(** * authentik OAuth2 authorization endpoint: a shallow embedding

    Source: [authentik/providers/oauth2/views/authorize.py].

    The Python code is embedded as Rocq functions over an explicit world
    (database rows, audit log, flow-plan context).  Exceptions are values of
    a result type and every function that can raise or touch the world lives
    in a small state-and-exception monad.  Functions of the Python standard
    library and of authentik modules other than [authorize.py] are taken
    through the [External] interface; a reference instance is given further
    down for running the model on concrete requests. *)

From Stdlib Require Import ZArith Ascii String List Bool Lia.
From stdpp Require Import base strings gmap list option pretty.

Open Scope string_scope.
Open Scope Z_scope.

(** ** Python values *)

(** [bool(s)] for a [str]. *)
Definition truthy (s : string) : bool := negb (String.eqb s "").

(** [bool(o)] for a [str | None]. *)
Definition truthy_opt (o : option string) : bool :=
  match o with
  | Some s => truthy s
  | None => false
  end.

(** [str(o)] for a [str | None]. *)
Definition py_str (o : option string) : string :=
  match o with
  | Some s => s
  | None => "None"
  end.

(** White space as recognised by [str.split()] and [str.isspace()].  A
    [str] is held as its UTF-8 bytes: the ASCII characters U+0009 to U+000D
    and U+001C to U+0020 are one byte, U+0085 and U+00A0 two bytes, U+1680,
    U+2000 to U+200A, U+2028, U+2029, U+202F, U+205F and U+3000 three. *)
Definition is_space (c : ascii) : bool :=
  let n := nat_of_ascii c in
  ((9 <=? n)%nat && (n <=? 13)%nat) || ((28 <=? n)%nat && (n <=? 32)%nat).

Definition is_space2 (c1 c2 : ascii) : bool :=
  let n1 := nat_of_ascii c1 in
  let n2 := nat_of_ascii c2 in
  (n1 =? 194)%nat && ((n2 =? 133)%nat || (n2 =? 160)%nat).

Definition is_space3 (c1 c2 c3 : ascii) : bool :=
  let n1 := nat_of_ascii c1 in
  let n2 := nat_of_ascii c2 in
  let n3 := nat_of_ascii c3 in
  ((n1 =? 225)%nat && (n2 =? 154)%nat && (n3 =? 128)%nat)
  || ((n1 =? 226)%nat && (n2 =? 128)%nat
      && (((128 <=? n3)%nat && (n3 <=? 138)%nat)
          || (n3 =? 168)%nat || (n3 =? 169)%nat || (n3 =? 175)%nat))
  || ((n1 =? 226)%nat && (n2 =? 129)%nat && (n3 =? 159)%nat)
  || ((n1 =? 227)%nat && (n2 =? 128)%nat && (n3 =? 128)%nat).

(** [s.split()]: split on runs of white space, dropping empty pieces.
    [cur] is the piece being read, reversed. *)
Fixpoint split_go (s : string) (cur : list ascii) : list string :=
  let flush rest :=
    match cur with
    | [] => rest
    | _ => string_of_list_ascii (rev cur) :: rest
    end in
  match s with
  | EmptyString => flush []
  | String c s1 =>
      if is_space c then flush (split_go s1 [])
      else
        match s1 with
        | String c2 s2 =>
            if is_space2 c c2 then flush (split_go s2 [])
            else
              match s2 with
              | String c3 s3 =>
                  if is_space3 c c2 c3 then flush (split_go s3 [])
                  else split_go s1 (c :: cur)
              | EmptyString => split_go s1 (c :: cur)
              end
        | EmptyString => split_go s1 (c :: cur)
        end
  end.

Definition py_split (s : string) : list string := split_go s [].

(** [" ".join(l)]. *)
Fixpoint py_join (l : list string) : string :=
  match l with
  | [] => ""
  | [x] => x
  | x :: rest => x ++ " " ++ py_join rest
  end.

(** A Python [dict] whose iteration order matters: keys in insertion order. *)
Definition dict (V : Type) : Type := list (string * V).

Fixpoint dict_get {V} (k : string) (d : dict V) : option V :=
  match d with
  | [] => None
  | (k', v) :: rest => if String.eqb k k' then Some v else dict_get k rest
  end.

(** [d[k] = v]: an existing key keeps its position. *)
Fixpoint dict_set {V} (k : string) (v : V) (d : dict V) : dict V :=
  match d with
  | [] => [(k, v)]
  | (k', v') :: rest =>
      if String.eqb k k' then (k, v) :: rest else (k', v') :: dict_set k v rest
  end.

Definition dict_keys {V} (d : dict V) : list string := map fst d.

(** ** Constants of [authentik.providers.oauth2] *)

(** Modelled from the spec: [constants.py] and [models.py] are modules of
    their own; the values below are the wire names the specification uses
    for prompts, scopes, PKCE methods, grant types, response types and
    response modes. *)
Definition PROMPT_NONE := "none".
Definition PROMPT_CONSENT := "consent".
Definition PROMPT_LOGIN := "login".
Definition SCOPE_OPENID := "openid".
Definition SCOPE_OFFLINE_ACCESS := "offline_access".
Definition PKCE_METHOD_PLAIN := "plain".
Definition PKCE_METHOD_S256 := "S256".

Module GrantTypes.
Definition AUTHORIZATION_CODE := "authorization_code".
Definition IMPLICIT := "implicit".
Definition HYBRID := "hybrid".
End GrantTypes.

Module ResponseTypes.
Definition CODE := "code".
Definition ID_TOKEN := "id_token".
Definition ID_TOKEN_TOKEN := "id_token token".
Definition CODE_TOKEN := "code token".
Definition CODE_ID_TOKEN := "code id_token".
Definition CODE_ID_TOKEN_TOKEN := "code id_token token".
End ResponseTypes.

Module ResponseMode.
Definition QUERY := "query".
Definition FRAGMENT := "fragment".
Definition FORM_POST := "form_post".
Definition values : list string := [QUERY; FRAGMENT; FORM_POST].
End ResponseMode.

Definition PLAN_CONTEXT_PARAMS := "goauthentik.io/providers/oauth2/params".
Definition SESSION_KEY_LAST_LOGIN_UID := "authentik/providers/oauth2/last_login_uid".

(** Modelled from the spec: the keys under which the flow planner and the
    consent stage file their entries are declared outside [authorize.py];
    section 6.5 of the specification names them. *)
Definition PLAN_CONTEXT_APPLICATION := "application".
Definition PLAN_CONTEXT_TITLE := "title".

Definition ALLOWED_PROMPT_PARAMS : gset string :=
  {[PROMPT_NONE; PROMPT_CONSENT; PROMPT_LOGIN]}.
Definition FORBIDDEN_URI_SCHEMES : gset string :=
  {["javascript"; "data"; "vbscript"]}.

(** ** Data model *)

Inductive RedirectURIMatchingMode := STRICT | REGEX.

Record RedirectURI := {
  matching_mode : RedirectURIMatchingMode;
  url : string;
}.

(** The columns of [OAuth2Provider] the views read.  Durations are kept in
    seconds, that is after [timedelta_from_string]. *)
Record OAuth2Provider := {
  pk : Z;
  provider_client_id : string;
  redirect_uris : list RedirectURI;
  access_code_validity : Z;
  access_token_validity : Z;
}.

Definition with_redirect_uris (l : list RedirectURI) (p : OAuth2Provider)
  : OAuth2Provider :=
  {| pk := pk p; provider_client_id := provider_client_id p;
     redirect_uris := l;
     access_code_validity := access_code_validity p;
     access_token_validity := access_token_validity p |}.

Record Application := {
  name : string;
  provider_id : Z;
}.

Record OAuthAuthorizationParams := {
  client_id : string;
  redirect_uri : string;
  response_type : string;
  response_mode : option string;
  scope : gset string;
  state : option string;
  nonce : option string;
  prompt : gset string;
  grant_type : string;
  provider : option OAuth2Provider;
  request : option string;
  max_age : option Z;
  code_challenge : option string;
  code_challenge_method : option string;
}.

Definition set_provider (v : option OAuth2Provider) (p : OAuthAuthorizationParams) :=
  {| client_id := client_id p; redirect_uri := redirect_uri p;
     response_type := response_type p; response_mode := response_mode p;
     scope := scope p; state := state p; nonce := nonce p; prompt := prompt p;
     grant_type := grant_type p; provider := v; request := request p;
     max_age := max_age p; code_challenge := code_challenge p;
     code_challenge_method := code_challenge_method p |}.

Definition set_grant_type (v : string) (p : OAuthAuthorizationParams) :=
  {| client_id := client_id p; redirect_uri := redirect_uri p;
     response_type := response_type p; response_mode := response_mode p;
     scope := scope p; state := state p; nonce := nonce p; prompt := prompt p;
     grant_type := v; provider := provider p; request := request p;
     max_age := max_age p; code_challenge := code_challenge p;
     code_challenge_method := code_challenge_method p |}.

Definition set_response_mode (v : option string) (p : OAuthAuthorizationParams) :=
  {| client_id := client_id p; redirect_uri := redirect_uri p;
     response_type := response_type p; response_mode := v;
     scope := scope p; state := state p; nonce := nonce p; prompt := prompt p;
     grant_type := grant_type p; provider := provider p; request := request p;
     max_age := max_age p; code_challenge := code_challenge p;
     code_challenge_method := code_challenge_method p |}.

Definition set_scope (v : gset string) (p : OAuthAuthorizationParams) :=
  {| client_id := client_id p; redirect_uri := redirect_uri p;
     response_type := response_type p; response_mode := response_mode p;
     scope := v; state := state p; nonce := nonce p; prompt := prompt p;
     grant_type := grant_type p; provider := provider p; request := request p;
     max_age := max_age p; code_challenge := code_challenge p;
     code_challenge_method := code_challenge_method p |}.

Definition set_prompt (v : gset string) (p : OAuthAuthorizationParams) :=
  {| client_id := client_id p; redirect_uri := redirect_uri p;
     response_type := response_type p; response_mode := response_mode p;
     scope := scope p; state := state p; nonce := nonce p; prompt := v;
     grant_type := grant_type p; provider := provider p; request := request p;
     max_age := max_age p; code_challenge := code_challenge p;
     code_challenge_method := code_challenge_method p |}.

Record AuthorizationCode := {
  code : string;
  code_user : string;
  code_provider : OAuth2Provider;
  code_auth_time : Z;
  code_expires : Z;
  code_scope : gset string;
  code_nonce : option string;
  code_session : string;
  code_code_challenge : option string;
  code_code_challenge_method : option string;
}.

(** Modelled from the spec: [IDToken] is declared in [id_token.py]; section
    3.1 of the specification lists the mandatory claims and the three
    optional ones, which a fresh token leaves unset. *)
Record IDToken := {
  iss : string;
  sub : string;
  aud : string;
  iat : Z;
  exp : Z;
  id_nonce : option string;
  c_hash : option string;
  at_hash : option string;
}.

Definition set_id_nonce (v : option string) (t : IDToken) :=
  {| iss := iss t; sub := sub t; aud := aud t; iat := iat t; exp := exp t;
     id_nonce := v; c_hash := c_hash t; at_hash := at_hash t |}.
Definition set_c_hash (v : option string) (t : IDToken) :=
  {| iss := iss t; sub := sub t; aud := aud t; iat := iat t; exp := exp t;
     id_nonce := id_nonce t; c_hash := v; at_hash := at_hash t |}.
Definition set_at_hash (v : option string) (t : IDToken) :=
  {| iss := iss t; sub := sub t; aud := aud t; iat := iat t; exp := exp t;
     id_nonce := id_nonce t; c_hash := c_hash t; at_hash := v |}.

(** [_id_token] is the JSON column; it is kept here as the claim set that
    [dumps] was applied to. *)
Record AccessToken := {
  token : string;
  token_user : string;
  token_scope : gset string;
  token_expires : Z;
  token_provider : OAuth2Provider;
  token_auth_time : Z;
  token_session : string;
  id_token : option IDToken;
  _id_token : option IDToken;
}.

Definition set__id_token (v : option IDToken) (t : AccessToken) :=
  {| token := token t; token_user := token_user t; token_scope := token_scope t;
     token_expires := token_expires t; token_provider := token_provider t;
     token_auth_time := token_auth_time t; token_session := token_session t;
     id_token := id_token t; _id_token := v |}.

(** The embedded [id_token] field is a reference to the token object built
    next to the access token. *)
Definition set_token_id_token (v : option IDToken) (t : AccessToken) :=
  {| token := token t; token_user := token_user t; token_scope := token_scope t;
     token_expires := token_expires t; token_provider := token_provider t;
     token_auth_time := token_auth_time t; token_session := token_session t;
     id_token := v; _id_token := _id_token t |}.

(** ** Exceptions and responses *)

(** The [OAuth2Error] family of [errors.py], with the constructor arguments
    the views pass and the cause attached by [with_cause]. *)
Inductive OAuth2Exception :=
| OAuth2Error
| ClientIdError (cid : string)
| RedirectUriError (provided : string) (allowed : list RedirectURI)
    (cause : option string)
| AuthorizeError (uri : string) (error : string) (grant : string)
    (st : option string) (description : option string) (cause : option string).

Definition with_cause (c : string) (e : OAuth2Exception) : OAuth2Exception :=
  match e with
  | OAuth2Error => OAuth2Error
  | ClientIdError cid => ClientIdError cid
  | RedirectUriError u l _ => RedirectUriError u l (Some c)
  | AuthorizeError u e g s d _ => AuthorizeError u e g s d (Some c)
  end.

Inductive HttpResponse :=
| HttpResponseBadRequest
  (* [bad_request_message(request, error.description, title=error.error)] *)
| BadRequestMessage (e : OAuth2Exception)
  (* [error.get_response(request)] of an [AuthorizeError] *)
| AuthorizeErrorResponse (e : OAuth2Exception)
| HttpResponseRedirectScheme (target : string) (allowed_schemes : list string)
  (* [HttpChallengeResponse] wrapping an [AutosubmitChallenge] *)
| HttpChallengeResponse (title : string) (action : string) (attrs : dict string).

Inductive Exception :=
| OAuth (e : OAuth2Exception)
| RequestValidationError (r : HttpResponse)
| Http404
| ValueError
| KeyError (key : string)
| AttributeError (attr : string).

Inductive result (A : Type) :=
| Ok (a : A)
| Raise (e : Exception).
Arguments Ok {A} a.
Arguments Raise {A} e.

(** ** The world the views act on *)

Inductive Event :=
| AuthorizeApplicationEvent (authorized_application : Application) (flow : Z)
    (scopes : string)
| ErrorEvent (e : OAuth2Exception) (application : Application).

Inductive ContextValue :=
| CtxParams (p : OAuthAuthorizationParams)
| CtxApplication (a : Application)
| CtxText (s : string)
| CtxFlag (b : bool).

Inductive ExecutorCall := stage_ok | stage_invalid.

Record World := {
  providers : list OAuth2Provider;          (* OAuth2Provider rows, by pk *)
  scope_mappings : list (Z * string);       (* (provider pk, scope_name) *)
  codes : list AuthorizationCode;           (* saved AuthorizationCode rows *)
  tokens : list AccessToken;                (* saved AccessToken rows *)
  events : list Event;                      (* audit log *)
  plan_context : gmap string ContextValue;  (* executor.plan.context *)
  flow_pk : Z;                              (* executor.plan.flow_pk *)
  executor : list ExecutorCall;             (* calls made on the executor *)
}.

Definition with_providers (v : list OAuth2Provider) (w : World) :=
  {| providers := v; scope_mappings := scope_mappings w; codes := codes w;
     tokens := tokens w; events := events w; plan_context := plan_context w;
     flow_pk := flow_pk w; executor := executor w |}.
Definition with_codes (v : list AuthorizationCode) (w : World) :=
  {| providers := providers w; scope_mappings := scope_mappings w; codes := v;
     tokens := tokens w; events := events w; plan_context := plan_context w;
     flow_pk := flow_pk w; executor := executor w |}.
Definition with_tokens (v : list AccessToken) (w : World) :=
  {| providers := providers w; scope_mappings := scope_mappings w;
     codes := codes w; tokens := v; events := events w;
     plan_context := plan_context w; flow_pk := flow_pk w;
     executor := executor w |}.
Definition with_events (v : list Event) (w : World) :=
  {| providers := providers w; scope_mappings := scope_mappings w;
     codes := codes w; tokens := tokens w; events := v;
     plan_context := plan_context w; flow_pk := flow_pk w;
     executor := executor w |}.
Definition with_plan_context (v : gmap string ContextValue) (w : World) :=
  {| providers := providers w; scope_mappings := scope_mappings w;
     codes := codes w; tokens := tokens w; events := events w;
     plan_context := v; flow_pk := flow_pk w; executor := executor w |}.
Definition with_executor (v : list ExecutorCall) (w : World) :=
  {| providers := providers w; scope_mappings := scope_mappings w;
     codes := codes w; tokens := tokens w; events := events w;
     plan_context := plan_context w; flow_pk := flow_pk w; executor := v |}.

Record LoginEvent := {
  login_pk : string;
  created : Z;
}.

(** The parts of a Django request the views read.  [GET] and [POST] list the
    parameters in the order received; [now], [uuid4_hex] and
    [generated_token] are what [timezone.now()], [uuid4().hex] and the
    default of [AccessToken.token] return while this request is served. *)
Record HttpRequest := {
  method : string;
  GET : dict string;
  POST : dict string;
  user : string;
  is_authenticated : bool;
  login_event : option LoginEvent;          (* get_login_event(request) *)
  session : gmap string string;
  now : Z;
  uuid4_hex : string;
  generated_token : string;
}.

(** ** State and exception monad *)

Definition M (A : Type) : Type := World → result A * World.

#[global] Instance M_ret : MRet M := λ A a w, (Ok a, w).
#[global] Instance M_bind : MBind M := λ A B f m w,
  match m w with
  | (Ok a, w') => f a w'
  | (Raise e, w') => (Raise e, w')
  end.

Definition raise {A} (e : Exception) : M A := λ w, (Raise e, w).
Definition gets {A} (f : World → A) : M A := λ w, (Ok (f w), w).
Definition modify (f : World → World) : M unit := λ w, (Ok tt, f w).

(** [try: body except <those handled by h>: ...]; an exception [h] does not
    handle propagates. *)
Definition try_except {A} (body : M A) (h : Exception → option (M A)) : M A :=
  λ w,
    match body w with
    | (Ok a, w') => (Ok a, w')
    | (Raise e, w') =>
        match h e with
        | Some k => k w'
        | None => (Raise e, w')
        end
    end.

(** ** Functions defined outside [authorize.py] *)

(** [urllib.parse.SplitResult]; [urlparse] additionally splits [;params]
    off the path, which no caller here looks at. *)
Record SplitResult := {
  scheme : string;
  netloc : string;
  path : string;
  query : string;
  fragment : string;
}.

Definition replace_query (q : string) (u : SplitResult) :=
  {| scheme := scheme u; netloc := netloc u; path := path u; query := q;
     fragment := fragment u |}.
Definition replace_fragment (f : string) (u : SplitResult) :=
  {| scheme := scheme u; netloc := netloc u; path := path u; query := query u;
     fragment := f |}.

(** Values stored in the dictionaries handed to [urlencode]. *)
Inductive QValue :=
| QStr (s : string)
| QList (l : list string)
| QInt (n : Z).

Class External := {
  (* constants.py *)
  SCOPE_GITHUB : gset string;
  TOKEN_TYPE : string;
  (* re.fullmatch(pattern, string); None stands for re.error *)
  fullmatch : string → string → option bool;
  (* urllib.parse; None stands for ValueError *)
  urlparse : string → option SplitResult;
  urlsplit : string → option SplitResult;
  urlunsplit : SplitResult → string;
  (* urlencode(d, doseq=True) *)
  urlencode : dict QValue → string;
  parse_qs : string → dict (list string);
  (* int(s); None stands for ValueError *)
  int_of_str : string → option Z;
  (* the mandatory claims IDToken.new fills in *)
  id_token_claims : OAuth2Provider → AccessToken → HttpRequest → IDToken;
  (* AuthorizationCode.c_hash and AccessToken.at_hash *)
  code_c_hash : AuthorizationCode → string;
  token_at_hash : AccessToken → string;
  (* provider.encode(id_token.to_dict()) *)
  encode : OAuth2Provider → IDToken → string;
}.

(** ** [OAuthAuthorizationParams]: validation of the request *)

Section Views.
Context {ext : External}.

(** [OAuth2Provider.objects.filter(client_id=...).first()] *)
Definition provider_by_client_id (cid : string) : M (option OAuth2Provider) :=
  gets (λ w, List.find (λ p, String.eqb (provider_client_id p) cid) (providers w)).

(** [provider.save()]: the row with this primary key is rewritten. *)
Definition save_provider (p : OAuth2Provider) : M unit :=
  modify (λ w,
    with_providers
      (if existsb (λ q, pk q =? pk p) (providers w)
       then map (λ q, if pk q =? pk p then p else q) (providers w)
       else providers w ++ [p]) w).

(** The [for allowed in allowed_redirect_urls] loop of [check_redirect_uri];
    the result is the final value of [match_found]. *)
Fixpoint match_found (uri : string) (allowed_redirect_urls : list RedirectURI)
  : bool :=
  match allowed_redirect_urls with
  | [] => false
  | allowed :: rest =>
      match matching_mode allowed with
      | STRICT =>
          if String.eqb uri (url allowed) then true else match_found uri rest
      | REGEX =>
          match fullmatch (url allowed) uri with
          | Some true => true
          | Some false => match_found uri rest
          | None => match_found uri rest   (* RegexError: logged, skipped *)
          end
      end
  end.

Definition check_redirect_uri (self : OAuthAuthorizationParams)
  : M OAuthAuthorizationParams :=
  match provider self with
  | None => raise (AttributeError "redirect_uris")
  | Some prov =>
      let allowed_redirect_urls := redirect_uris prov in
      if negb (truthy (redirect_uri self)) then
        raise (OAuth (with_cause "redirect_uri_missing"
                        (RedirectUriError "" allowed_redirect_urls None)))
      else
        '(self, allowed_redirect_urls) ←
          (if (length allowed_redirect_urls <? 1)%nat then
             let prov' :=
               with_redirect_uris
                 [{| matching_mode := STRICT; url := redirect_uri self |}] prov in
             _ ← save_provider prov';
             mret (set_provider (Some prov') self, redirect_uris prov')
           else mret (self, allowed_redirect_urls));
        if negb (match_found (redirect_uri self) allowed_redirect_urls) then
          raise (OAuth (with_cause "redirect_uri_no_match"
                          (RedirectUriError (redirect_uri self)
                             allowed_redirect_urls None)))
        else
          (* Check against forbidden schemes *)
          match urlparse (redirect_uri self) with
          | None => raise ValueError
          | Some parsed =>
              if bool_decide (scheme parsed ∈ FORBIDDEN_URI_SCHEMES) then
                raise (OAuth (with_cause "redirect_uri_forbidden_scheme"
                                (RedirectUriError (redirect_uri self)
                                   allowed_redirect_urls None)))
              else mret self
          end
  end.

Definition check_grant (self : OAuthAuthorizationParams)
  : M OAuthAuthorizationParams :=
  (* Determine which flow to use. *)
  let self :=
    if bool_decide (response_type self ∈ [ResponseTypes.CODE]) then
      set_grant_type GrantTypes.AUTHORIZATION_CODE self
    else if bool_decide (response_type self ∈
                           [ResponseTypes.ID_TOKEN; ResponseTypes.ID_TOKEN_TOKEN]) then
      set_grant_type GrantTypes.IMPLICIT self
    else if bool_decide (response_type self ∈
                           [ResponseTypes.CODE_TOKEN; ResponseTypes.CODE_ID_TOKEN;
                            ResponseTypes.CODE_ID_TOKEN_TOKEN]) then
      set_grant_type GrantTypes.HYBRID self
    else self in
  (* Grant type validation. *)
  if negb (truthy (grant_type self)) then
    raise (OAuth (AuthorizeError (redirect_uri self) "unsupported_response_type"
                    "" (state self) None None))
  else if negb (bool_decide (response_mode self ∈ Some <$> ResponseMode.values)) then
    let self := set_response_mode (Some ResponseMode.QUERY) self in
    if bool_decide (grant_type self ∈ [GrantTypes.IMPLICIT; GrantTypes.HYBRID]) then
      mret (set_response_mode (Some ResponseMode.FRAGMENT) self)
    else mret self
  else mret self.

(** [ScopeMapping.objects.filter(provider__in=[provider])
      .values_list("scope_name", flat=True)] as a set. *)
Definition default_scope_names_of (prov : option OAuth2Provider) (w : World)
  : gset string :=
  match prov with
  | None => ∅
  | Some p =>
      list_to_set (map snd (List.filter (λ r, fst r =? pk p) (scope_mappings w)))
  end.

Definition check_scope (github_compat : bool) (self : OAuthAuthorizationParams)
  : M OAuthAuthorizationParams :=
  default_scope_names ← gets (default_scope_names_of (provider self));
  let self :=
    if (size (scope self) =? 0)%nat then set_scope default_scope_names self
    else self in
  let scopes_to_check :=
    if github_compat then scope self ∖ SCOPE_GITHUB else scope self in
  let self :=
    if negb (bool_decide (scopes_to_check ⊆ default_scope_names)) then
      set_scope (scope self ∩ default_scope_names) self
    else self in
  if bool_decide (SCOPE_OPENID ∉ scope self)
     && (String.eqb (grant_type self) GrantTypes.HYBRID
         || bool_decide (response_type self ∈
                           [ResponseTypes.ID_TOKEN; ResponseTypes.ID_TOKEN_TOKEN]))
  then
    raise (OAuth (with_cause "scope_openid_missing"
                    (AuthorizeError (redirect_uri self) "invalid_scope"
                       (grant_type self) (state self) None None)))
  else if bool_decide (SCOPE_OFFLINE_ACCESS ∈ scope self) then
    if negb (bool_decide (response_type self ∈
                            [ResponseTypes.CODE; ResponseTypes.CODE_TOKEN;
                             ResponseTypes.CODE_ID_TOKEN;
                             ResponseTypes.CODE_ID_TOKEN_TOKEN])) then
      mret (set_scope (scope self ∖ {[SCOPE_OFFLINE_ACCESS]}) self)
    else mret self
  else mret self.

Definition check_nonce (self : OAuthAuthorizationParams) : M unit :=
  if negb (bool_decide (response_type self ∈
                          [ResponseTypes.ID_TOKEN; ResponseTypes.ID_TOKEN_TOKEN;
                           ResponseTypes.CODE_ID_TOKEN;
                           ResponseTypes.CODE_ID_TOKEN_TOKEN])) then mret tt
  else if bool_decide (SCOPE_OPENID ∉ scope self) then mret tt
  else if negb (truthy_opt (nonce self)) then
    raise (OAuth (with_cause "nonce_missing"
                    (AuthorizeError (redirect_uri self) "invalid_request"
                       (grant_type self) (state self) None None)))
  else mret tt.

Definition check_code_challenge (self : OAuthAuthorizationParams) : M unit :=
  if truthy_opt (code_challenge self)
     && negb (bool_decide (code_challenge_method self ∈
                             [Some PKCE_METHOD_PLAIN; Some PKCE_METHOD_S256]))
  then
    raise (OAuth (AuthorizeError (redirect_uri self) "invalid_request"
                    (grant_type self) (state self)
                    (Some ("Unsupported challenge method "
                           ++ py_str (code_challenge_method self)))
                    None))
  else mret tt.

(** [__post_init__]: runs when the dataclass is constructed. *)
Definition post_init (github_compat : bool) (self : OAuthAuthorizationParams)
  : M OAuthAuthorizationParams :=
  found ← provider_by_client_id (client_id self);
  let self := set_provider found self in
  if negb (bool_decide (is_Some (provider self))) then
    raise (OAuth (ClientIdError (client_id self)))
  else
    self ← check_redirect_uri self;
    self ← check_grant self;
    self ← check_scope github_compat self;
    if truthy_opt (request self) then
      raise (OAuth (AuthorizeError (redirect_uri self) "request_not_supported"
                      (grant_type self) (state self) None None))
    else
      _ ← check_nonce self;
      _ ← check_code_challenge self;
      mret self.

(** [QueryDict.get(key)]: the last value received for [key]. *)
Fixpoint qd_get (k : string) (d : dict string) : option string :=
  match d with
  | [] => None
  | (k', v) :: rest =>
      match qd_get k rest with
      | Some v' => Some v'
      | None => if String.eqb k k' then Some v else None
      end
  end.

Definition from_request (req : HttpRequest) (github_compat : bool)
  : M OAuthAuthorizationParams :=
  let query_dict :=
    if String.eqb (method req) "POST" then POST req else GET req in
  let state := qd_get "state" query_dict in
  let redirect_uri := default "" (qd_get "redirect_uri" query_dict) in
  let response_type := default "" (qd_get "response_type" query_dict) in
  let response_mode := qd_get "response_mode" query_dict in
  let max_age := qd_get "max_age" query_dict in
  match (if truthy_opt max_age then Some <$> int_of_str (py_str max_age)
         else Some None) with
  | None => raise ValueError
  | Some max_age =>
      post_init github_compat
        {| client_id := default "" (qd_get "client_id" query_dict);
           redirect_uri := redirect_uri;
           response_type := response_type;
           response_mode := response_mode;
           grant_type := "";
           scope := list_to_set (py_split (default "" (qd_get "scope" query_dict)));
           state := state;
           nonce := qd_get "nonce" query_dict;
           prompt := ALLOWED_PROMPT_PARAMS
                       ∩ list_to_set (py_split (default "" (qd_get "prompt" query_dict)));
           provider := None;
           request := qd_get "request" query_dict;
           max_age := max_age;
           code_challenge := qd_get "code_challenge" query_dict;
           code_challenge_method :=
             Some (default "plain" (qd_get "code_challenge_method" query_dict)) |}
  end.

(** ** [AuthorizationFlowInitView.pre_permission_check] *)

Definition pre_permission_check (req : HttpRequest) (github_compat : bool)
  : M OAuthAuthorizationParams :=
  if (length (GET req) <? 1)%nat then raise Http404
  else
    params ← try_except (from_request req github_compat)
      (λ e,
         match e with
         | OAuth (AuthorizeError _ _ _ _ _ _ as error) =>
             Some (raise (RequestValidationError (AuthorizeErrorResponse error)))
         | OAuth error =>
             Some (raise (RequestValidationError (BadRequestMessage error)))
         | _ => None
         end);
    if bool_decide (PROMPT_NONE ∈ prompt params) && negb (is_authenticated req)
    then
      raise (RequestValidationError
               (AuthorizeErrorResponse
                  (AuthorizeError (redirect_uri params) "login_required"
                     (grant_type params) (state params) None None)))
    else mret params.

End Views.

(** ** [OAuthAuthorizationParams.create_code] and [OAuthFulfillmentStage] *)

Section Fulfillment.
Context {ext : External}.

(** [model.save()] of a freshly built row. *)
Definition save_code (c : AuthorizationCode) : M unit :=
  modify (λ w, with_codes (codes w ++ [c]) w).
Definition save_token (t : AccessToken) : M unit :=
  modify (λ w, with_tokens (tokens w ++ [t]) w).

(** [Event(...).from_http(request)] stores the event. *)
Definition log_event (e : Event) : M unit :=
  modify (λ w, with_events (events w ++ [e]) w).

Definition executor_call (c : ExecutorCall) : M unit :=
  modify (λ w, with_executor (executor w ++ [c]) w).

(** [request.session["authenticatedsession"]] *)
Definition authenticated_session (req : HttpRequest) : M string :=
  match session req !! "authenticatedsession" with
  | Some s => mret s
  | None => raise (KeyError "authenticatedsession")
  end.

(** [auth_event.created if auth_event else now] *)
Definition auth_time_of (req : HttpRequest) : Z :=
  match login_event req with
  | Some auth_event => created auth_event
  | None => now req
  end.

Definition create_code (req : HttpRequest) (self : OAuthAuthorizationParams)
  : M AuthorizationCode :=
  match provider self with
  | None => raise (AttributeError "access_code_validity")
  | Some prov =>
      sess ← authenticated_session req;
      let c :=
        {| code := uuid4_hex req;
           code_user := user req;
           code_provider := prov;
           code_auth_time := auth_time_of req;
           code_expires := now req + access_code_validity prov;
           code_scope := scope self;
           code_nonce := nonce self;
           code_session := sess;
           code_code_challenge := None;
           code_code_challenge_method := None |} in
      if truthy_opt (code_challenge self)
         && truthy_opt (code_challenge_method self) then
        mret {| code := code c; code_user := code_user c;
                code_provider := code_provider c;
                code_auth_time := code_auth_time c;
                code_expires := code_expires c; code_scope := code_scope c;
                code_nonce := code_nonce c; code_session := code_session c;
                code_code_challenge := code_challenge self;
                code_code_challenge_method := code_challenge_method self |}
      else mret c
  end.

(** [str(state) if state else ""] *)
Definition state_or_empty (st : option string) : string :=
  if truthy_opt st then py_str st else "".

(** Modelled from the spec: [IDToken.new] lives in [id_token.py]; it fills
    the mandatory claims and leaves [c_hash] and [at_hash] unset. *)
Definition IDToken_new (prov : OAuth2Provider) (t : AccessToken)
    (req : HttpRequest) : IDToken :=
  set_c_hash None (set_at_hash None (id_token_claims prov t req)).

(** [code.<attr>] where [code] may be [None]. *)
Definition code_attr {A} (attr : string) (f : AuthorizationCode → A)
    (c : option AuthorizationCode) : M A :=
  match c with
  | Some c => mret (f c)
  | None => raise (AttributeError attr)
  end.

(** [create_implicit_response]: [self.params], [self.provider] and
    [self.request] are passed explicitly. *)
Definition create_implicit_response (req : HttpRequest)
    (params : OAuthAuthorizationParams) (prov : OAuth2Provider)
    (c : option AuthorizationCode) : M (dict QValue) :=
  let query_fragment : dict QValue := [] in
  let access_token_expiry := now req + access_token_validity prov in
  sess ← authenticated_session req;
  let tok :=
    {| token := generated_token req;
       token_user := user req;
       token_scope := scope params;
       token_expires := access_token_expiry;
       token_provider := prov;
       token_auth_time := auth_time_of req;
       token_session := sess;
       id_token := None;
       _id_token := None |} in
  let idt := IDToken_new prov tok req in
  let idt := set_id_nonce (nonce params) idt in
  idt ←
    (if bool_decide (response_type params ∈
                       [ResponseTypes.CODE_ID_TOKEN;
                        ResponseTypes.CODE_ID_TOKEN_TOKEN]) then
       h ← code_attr "c_hash" code_c_hash c;
       mret (set_c_hash (Some h) idt)
     else mret idt);
  let tok := set_token_id_token (Some idt) tok in
  (* Check if response_type must include access_token in the response. *)
  let '(query_fragment, idt) :=
    if bool_decide (response_type params ∈
                      [ResponseTypes.ID_TOKEN_TOKEN;
                       ResponseTypes.CODE_ID_TOKEN_TOKEN;
                       ResponseTypes.CODE_TOKEN]) then
      (dict_set "access_token" (QStr (token tok)) query_fragment,
       set_at_hash (Some (token_at_hash tok)) idt)
    else (query_fragment, idt) in
  (* Check if response_type must include id_token in the response. *)
  let '(query_fragment, tok) :=
    if bool_decide (response_type params ∈
                      [ResponseTypes.ID_TOKEN; ResponseTypes.ID_TOKEN_TOKEN;
                       ResponseTypes.CODE_ID_TOKEN;
                       ResponseTypes.CODE_ID_TOKEN_TOKEN]) then
      (dict_set "id_token" (QStr (encode prov idt)) query_fragment,
       set__id_token (Some idt) tok)
    else (query_fragment, tok) in
  (* [tok.id_token] and [idt] are one object: the saved token refers to the
     claims as they stand now. *)
  _ ← save_token (set_token_id_token (Some idt) tok);
  (* Code parameter must be present if it's Hybrid Flow. *)
  query_fragment ←
    (if String.eqb (grant_type params) GrantTypes.HYBRID then
       v ← code_attr "code" code c;
       mret (dict_set "code" (QStr v) query_fragment)
     else mret query_fragment);
  let query_fragment := dict_set "token_type" (QStr TOKEN_TYPE) query_fragment in
  let query_fragment :=
    dict_set "expires_in" (QInt (access_token_validity prov)) query_fragment in
  let query_fragment :=
    dict_set "state" (QStr (state_or_empty (state params))) query_fragment in
  mret query_fragment.

(** The [{code, state}] dictionary of the authorization-code grant. *)
Definition code_and_state (params : OAuthAuthorizationParams)
    (c : option AuthorizationCode) (d : dict QValue) : M (dict QValue) :=
  v ← code_attr "code" code c;
  let d := dict_set "code" (QStr v) d in
  mret (dict_set "state" (QList [state_or_empty (state params)]) d).

Definition create_response_uri (req : HttpRequest)
    (params : OAuthAuthorizationParams) (prov : OAuth2Provider) : M string :=
  match urlsplit (redirect_uri params) with
  | None => raise ValueError
  | Some uri =>
      try_except
        (c ←
           (if bool_decide (grant_type params ∈
                              [GrantTypes.AUTHORIZATION_CODE; GrantTypes.HYBRID])
            then
              c ← create_code req params;
              _ ← save_code c;
              mret (Some c)
            else mret None);
         if bool_decide (response_mode params = Some ResponseMode.QUERY) then
           let query_params :=
             (λ kv : string * list string, (kv.1, QList kv.2))
               <$> parse_qs (query uri) in
           query_params ← code_and_state params c query_params;
           mret (urlunsplit (replace_query (urlencode query_params) uri))
         else if bool_decide (response_mode params = Some ResponseMode.FRAGMENT) then
           query_fragment ←
             (if bool_decide (grant_type params ∈ [GrantTypes.AUTHORIZATION_CODE])
              then code_and_state params c []
              else create_implicit_response req params prov c);
           mret (urlunsplit
                   (replace_fragment (fragment uri ++ urlencode query_fragment) uri))
         else if bool_decide (response_mode params = Some ResponseMode.FORM_POST) then
           post_params ←
             (if bool_decide (grant_type params ∈ [GrantTypes.AUTHORIZATION_CODE])
              then code_and_state params c []
              else create_implicit_response req params prov c);
           mret (urlunsplit (replace_query (urlencode post_params) uri))
         else raise (OAuth OAuth2Error))
        (λ e,
           match e with
           | OAuth _ =>
               Some (raise (OAuth (AuthorizeError (redirect_uri params)
                                     "server_error" (grant_type params)
                                     (state params) None None)))
           | _ => None
           end)
  end.

(** [OAuthFulfillmentStage.redirect] *)
Definition redirect (params : OAuthAuthorizationParams)
    (application : Application) (uri : string) : M HttpResponse :=
  match urlparse uri with
  | None => raise ValueError
  | Some parsed =>
      if bool_decide (response_mode params = Some ResponseMode.FORM_POST) then
        (* [parse_qs] wraps every value in a non-empty list; keep its head *)
        let query_params :=
          (λ kv : string * list string, (kv.1, default "" (head kv.2)))
            <$> parse_qs (query parsed) in
        ctx ← gets plan_context;
        let title :=
          match ctx !! PLAN_CONTEXT_TITLE with
          | Some (CtxText t) => t
          | _ => "Redirecting to " ++ name application ++ "..."
          end in
        _ ← executor_call stage_ok;
        mret (HttpChallengeResponse title (redirect_uri params) query_params)
      else
        _ ← executor_call stage_ok;
        mret (HttpResponseRedirectScheme uri [scheme parsed])
  end.

(** [self.executor.plan.context.pop(key)] *)
Definition context_pop (key : string) : M ContextValue :=
  ctx ← gets plan_context;
  match ctx !! key with
  | Some v =>
      _ ← modify (with_plan_context (delete key ctx));
      mret v
  | None => raise (KeyError key)
  end.

(** [get_object_or_404(OAuth2Provider, pk=...)] *)
Definition get_object_or_404 (key : Z) : M OAuth2Provider :=
  found ← gets (λ w, List.find (λ p, pk p =? key) (providers w));
  match found with
  | Some p => mret p
  | None => raise Http404
  end.

(** [OAuthFulfillmentStage.get]; [post] forwards to it. *)
Definition get (req : HttpRequest) : M HttpResponse :=
  ctx ← gets plan_context;
  if negb (bool_decide (PLAN_CONTEXT_PARAMS ∈ dom ctx)) then
    mret HttpResponseBadRequest
  else
    params ← context_pop PLAN_CONTEXT_PARAMS;
    application ← context_pop PLAN_CONTEXT_APPLICATION;
    match params, application with
    | CtxParams params, CtxApplication application =>
        prov ← get_object_or_404 (provider_id application);
        try_except
          ((* At this point we don't need to check permissions anymore *)
           if bool_decide ({[PROMPT_NONE; PROMPT_CONSENT]} ⊆ prompt params) then
             raise (OAuth (AuthorizeError (redirect_uri params) "consent_required"
                             (grant_type params) (state params) None None))
           else
             flow ← gets flow_pk;
             _ ← log_event (AuthorizeApplicationEvent application flow
                              (py_join (elements (scope params))));
             uri ← create_response_uri req params prov;
             redirect params application uri)
          (λ e,
             match e with
             | OAuth (ClientIdError _ as error)
             | OAuth (RedirectUriError _ _ _ as error) =>
                 Some (_ ← log_event (ErrorEvent error application);
                       _ ← executor_call stage_invalid;
                       mret (BadRequestMessage error))
             | OAuth (AuthorizeError _ _ _ _ _ _ as error) =>
                 Some (_ ← log_event (ErrorEvent error application);
                       _ ← executor_call stage_invalid;
                       mret (AuthorizeErrorResponse error))
             | _ => None
             end)
    | _, _ => raise (AttributeError "plan context entry of another type")
    end.

Definition post (req : HttpRequest) : M HttpResponse := get req.

End Fulfillment.

(** ** A reference instance of [External]

    Enough of CPython's [urllib.parse], [re] and [int] to run the views on
    concrete requests.  What is left out is named at each definition. *)

Module CPython.

Definition ascii_in (c : ascii) (s : string) : bool :=
  existsb (Ascii.eqb c) (list_ascii_of_string s).

Definition is_digit (c : ascii) : bool :=
  let n := nat_of_ascii c in (48 <=? n)%nat && (n <=? 57)%nat.
Definition is_upper (c : ascii) : bool :=
  let n := nat_of_ascii c in (65 <=? n)%nat && (n <=? 90)%nat.
Definition is_lower (c : ascii) : bool :=
  let n := nat_of_ascii c in (97 <=? n)%nat && (n <=? 122)%nat.
Definition is_alpha (c : ascii) : bool := is_upper c || is_lower c.
Definition is_alnum (c : ascii) : bool := is_alpha c || is_digit c.

Definition lower (c : ascii) : ascii :=
  if is_upper c then ascii_of_nat (nat_of_ascii c + 32) else c.

Fixpoint map_string (f : ascii → ascii) (s : string) : string :=
  match s with
  | EmptyString => EmptyString
  | String c s' => String (f c) (map_string f s')
  end.

Fixpoint filter_string (f : ascii → bool) (s : string) : string :=
  match s with
  | EmptyString => EmptyString
  | String c s' => if f c then String c (filter_string f s') else filter_string f s'
  end.

Fixpoint forall_string (f : ascii → bool) (s : string) : bool :=
  match s with
  | EmptyString => true
  | String c s' => f c && forall_string f s'
  end.

(** [s.partition(c)] as [(before, Some after)], or [(s, None)] when [c]
    does not occur. *)
Fixpoint partition (c : ascii) (s : string) : string * option string :=
  match s with
  | EmptyString => (EmptyString, None)
  | String a s' =>
      if Ascii.eqb a c then (EmptyString, Some s')
      else let '(b, r) := partition c s' in (String a b, r)
  end.

(** [s.split(c)] *)
Fixpoint split_on (c : ascii) (s : string) : list string :=
  match s with
  | EmptyString => [EmptyString]
  | String a s' =>
      if Ascii.eqb a c then EmptyString :: split_on c s'
      else match split_on c s' with
           | piece :: rest => String a piece :: rest
           | [] => [String a EmptyString]
           end
  end.

(** [sep.join(l)] *)
Fixpoint join_with (sep : string) (l : list string) : string :=
  match l with
  | [] => ""
  | [x] => x
  | x :: rest => x ++ sep ++ join_with sep rest
  end.

(** *** [urlsplit], [urlparse], [urlunsplit] *)

Fixpoint lstrip_c0 (s : string) : string :=
  match s with
  | String c s' => if (nat_of_ascii c <=? 32)%nat then lstrip_c0 s' else s
  | EmptyString => EmptyString
  end.

Definition is_unsafe_byte (c : ascii) : bool :=
  let n := nat_of_ascii c in (n =? 9)%nat || (n =? 10)%nat || (n =? 13)%nat.

Definition is_scheme_char (c : ascii) : bool := is_alnum c || ascii_in c "+-.".

(** The part of [s] before the first character satisfying [stop], and the
    rest from that character on. *)
Fixpoint span_until (stop : ascii → bool) (s : string) : string * string :=
  match s with
  | EmptyString => (EmptyString, EmptyString)
  | String c s' =>
      if stop c then (EmptyString, s)
      else let '(a, b) := span_until stop s' in (String c a, b)
  end.

Definition split_scheme (u : string) : string * string :=
  match partition ":" u with
  | (String c0 cs, Some rest) =>
      if is_alpha c0 && forall_string is_scheme_char (String c0 cs)
      then (map_string lower (String c0 cs), rest)
      else ("", u)
  | _ => ("", u)
  end.

(** [urlsplit(url)].  Of the [ValueError]s only the unbalanced-bracket one is
    modelled; the IPv6 literal inside balanced brackets and the NFKC check
    of a non-ASCII host are not validated. *)
Definition urlsplit (u : string) : option SplitResult :=
  let u := filter_string (λ c, negb (is_unsafe_byte c)) (lstrip_c0 u) in
  let '(sch, u) := split_scheme u in
  let '(loc, u) :=
    match u with
    | String "/" (String "/" rest) => span_until (λ c, ascii_in c "/?#") rest
    | _ => ("", u)
    end in
  if xorb (ascii_in "[" loc) (ascii_in "]" loc) then None
  else
    let '(u, frag) := partition "#" u in
    let '(u, qry) := partition "?" u in
    Some {| scheme := sch; netloc := loc; path := u;
            query := default "" qry; fragment := default "" frag |}.

(** [urlparse] differs from [urlsplit] in the [params] component only. *)
Definition urlparse : string → option SplitResult := urlsplit.

Definition uses_netloc : list string :=
  [""; "ftp"; "http"; "gopher"; "nntp"; "telnet"; "imap"; "wais"; "file";
   "mms"; "https"; "shttp"; "snews"; "prospero"; "rtsp"; "rtsps"; "rtspu";
   "rsync"; "svn"; "svn+ssh"; "sftp"; "nfs"; "git"; "git+ssh"; "ws"; "wss";
   "itms-services"].

Definition starts_with (p s : string) : bool := String.prefix p s.

Definition urlunsplit (r : SplitResult) : string :=
  let u := path r in
  let u :=
    if truthy (netloc r)
       || (truthy (scheme r) && bool_decide (scheme r ∈ uses_netloc)
           && negb (starts_with "//" u))
    then
      let u := if truthy u && negb (starts_with "/" u) then "/" ++ u else u in
      "//" ++ netloc r ++ u
    else u in
  let u := if truthy (scheme r) then scheme r ++ ":" ++ u else u in
  let u := if truthy (query r) then u ++ "?" ++ query r else u in
  if truthy (fragment r) then u ++ "#" ++ fragment r else u.

(** *** [quote_plus], [urlencode], [parse_qs] *)

Definition hex_digit (n : nat) : ascii :=
  if (n <? 10)%nat then ascii_of_nat (48 + n) else ascii_of_nat (55 + n).

Definition hex_value (c : ascii) : option nat :=
  let n := nat_of_ascii c in
  if is_digit c then Some (n - 48)%nat
  else if (65 <=? n)%nat && (n <=? 70)%nat then Some (n - 55)%nat
  else if (97 <=? n)%nat && (n <=? 102)%nat then Some (n - 87)%nat
  else None.

Definition always_safe (c : ascii) : bool := is_alnum c || ascii_in c "_.-~".

(** [quote_plus(s)] on the UTF-8 bytes of [s]. *)
Fixpoint quote_plus (s : string) : string :=
  match s with
  | EmptyString => EmptyString
  | String c s' =>
      if always_safe c then String c (quote_plus s')
      else if Ascii.eqb c " " then String "+" (quote_plus s')
      else
        let n := nat_of_ascii c in
        String "%" (String (hex_digit (n / 16)) (String (hex_digit (n mod 16))
                                                    (quote_plus s')))
  end.

(** [unquote(s.replace("+", " "))]; a [%] not followed by two hex digits
    stays as it is.  [skip] counts hex digits already consumed. *)
Fixpoint unquote_go (skip : nat) (s : string) : string :=
  match s with
  | EmptyString => EmptyString
  | String c s' =>
      match skip with
      | S k => unquote_go k s'
      | O =>
          if Ascii.eqb c "+" then String " " (unquote_go 0 s')
          else if Ascii.eqb c "%" then
            match s' with
            | String h (String l _) =>
                match hex_value h, hex_value l with
                | Some a, Some b =>
                    String (ascii_of_nat (16 * a + b)) (unquote_go 2 s')
                | _, _ => String c (unquote_go 0 s')
                end
            | _ => String c (unquote_go 0 s')
            end
          else String c (unquote_go 0 s')
      end
  end.

Definition unquote_plus (s : string) : string := unquote_go 0 s.

Definition urlencode (d : dict QValue) : string :=
  join_with "&"
    (concat
       (map (λ kv : string * QValue,
               let k := quote_plus kv.1 in
               match kv.2 with
               | QStr v => [k ++ "=" ++ quote_plus v]
               | QInt n => [k ++ "=" ++ quote_plus (pretty n)]
               | QList l => map (λ elt, k ++ "=" ++ quote_plus elt) l
               end) d)).

(** [parse_qsl(qs)] with the defaults [keep_blank_values=False],
    [strict_parsing=False], [separator="&"]. *)
Definition parse_qsl (qs : string) : list (string * string) :=
  if negb (truthy qs) then []
  else
    concat
      (map (λ name_value,
              match partition "=" name_value with
              | (n, Some v) =>
                  if truthy v then [(unquote_plus n, unquote_plus v)] else []
              | (_, None) => []
              end) (split_on "&" qs)).

Fixpoint group_values (pairs : list (string * string))
    (acc : dict (list string)) : dict (list string) :=
  match pairs with
  | [] => acc
  | (k, v) :: rest =>
      group_values rest
        (match dict_get k acc with
         | Some vs => dict_set k (vs ++ [v])%list acc
         | None => (acc ++ [(k, [v])])%list
         end)
  end.

Definition parse_qs (qs : string) : dict (list string) :=
  group_values (parse_qsl qs) [].

(** *** [re.fullmatch] on a fragment of the pattern language

    Literal characters, [.], escaped punctuation and the postfix operators
    [*], [+] and [?].  A pattern using anything else is not interpreted and
    is reported like a malformed one. *)

Inductive atom := AChar (c : ascii) | AAny.
Inductive quantifier := One | Star | Plus | Opt.

Definition atom_matches (a : atom) (c : ascii) : bool :=
  match a with
  | AChar c' => Ascii.eqb c c'
  | AAny => negb (nat_of_ascii c =? 10)%nat
  end.

Definition quantifier_of (c : ascii) : quantifier :=
  if Ascii.eqb c "*" then Star else if Ascii.eqb c "+" then Plus else Opt.

(** [acc] holds the items read so far, last first. *)
Fixpoint re_parse (s : string) (escaped : bool)
    (acc : list (atom * quantifier)) : option (list (atom * quantifier)) :=
  match s with
  | EmptyString => if escaped then None else Some (rev acc)
  | String c s' =>
      if escaped then
        if is_alnum c then None
        else re_parse s' false ((AChar c, One) :: acc)
      else if Ascii.eqb c "\" then re_parse s' true acc
      else if Ascii.eqb c "." then re_parse s' false ((AAny, One) :: acc)
      else if ascii_in c "*+?" then
        match acc with
        | (a, One) :: acc' => re_parse s' false ((a, quantifier_of c) :: acc')
        | _ => None
        end
      else if ascii_in c "()[]{}|^$" then None
      else re_parse s' false ((AChar c, One) :: acc)
  end.

Fixpoint re_match (items : list (atom * quantifier)) : string → bool :=
  match items with
  | [] => λ s, negb (truthy s)
  | (a, q) :: rest =>
      let one (k : string → bool) (s : string) :=
        match s with
        | String c s' => atom_matches a c && k s'
        | EmptyString => false
        end in
      let star :=
        fix star (s : string) : bool :=
          re_match rest s
          || match s with
             | String c s' => atom_matches a c && star s'
             | EmptyString => false
             end in
      match q with
      | One => one (re_match rest)
      | Star => star
      | Plus => one star
      | Opt => λ s, re_match rest s || one (re_match rest) s
      end
  end.

Definition fullmatch (pattern s : string) : option bool :=
  (λ items, re_match items s) <$> re_parse pattern false [].

(** *** [int(s)]: an optional sign and decimal digits *)

Fixpoint digits_value (s : string) (acc : Z) : option Z :=
  match s with
  | EmptyString => Some acc
  | String c s' =>
      if is_digit c
      then digits_value s' (10 * acc + Z.of_nat (nat_of_ascii c - 48))
      else None
  end.

Definition int_of_str (s : string) : option Z :=
  match s with
  | EmptyString => None
  | String "-" (String c r) => Z.opp <$> digits_value (String c r) 0
  | String "+" (String c r) => digits_value (String c r) 0
  | _ => digits_value s 0
  end.

(** *** The instance

    [SCOPE_GITHUB] and [TOKEN_TYPE] carry the values of authentik's
    [constants.py].  The claims of a fresh ID token, the two hashes and the
    signed token are symbolic: they show what went in, not a digest. *)
Definition reference : External :=
  Build_External
    {["user"; "read:user"; "user:email"; "read:org"]}
    "Bearer"
    fullmatch urlparse urlsplit urlunsplit urlencode parse_qs int_of_str
    (λ prov t req,
       {| iss := "https://authentik.example/";
          sub := token_user t;
          aud := provider_client_id prov;
          iat := now req;
          exp := token_expires t;
          id_nonce := None; c_hash := None; at_hash := None |})
    (λ c, "c_hash(" ++ code c ++ ")")
    (λ t, "at_hash(" ++ token t ++ ")")
    (λ prov t,
       "jws(sub=" ++ sub t ++ ",nonce=" ++ py_str (id_nonce t)
       ++ ",c_hash=" ++ py_str (c_hash t)
       ++ ",at_hash=" ++ py_str (at_hash t) ++ ")").

End CPython.

(** ** The order of the validations, as a list *)

Section Order.
Context {ext : External}.

Definition validation : Type :=
  OAuthAuthorizationParams → M OAuthAuthorizationParams.

(** The [if self.request: raise ...] statement of [__post_init__]. *)
Definition check_request : validation := λ self,
  if truthy_opt (request self) then
    raise (OAuth (AuthorizeError (redirect_uri self) "request_not_supported"
                    (grant_type self) (state self) None None))
  else mret self.

(** A check that returns nothing, seen as a step that hands [self] on. *)
Definition as_validation (check : OAuthAuthorizationParams → M unit)
  : validation := λ self, _ ← check self; mret self.

(** Run the validations one after the other; the first exception ends the
    run. *)
Fixpoint run_in_order (vs : list validation) : validation := λ self,
  match vs with
  | [] => mret self
  | v :: rest => self ← v self; run_in_order rest self
  end.

(** [first_failure vs self w e w']: running [vs] from [self] in world [w],
    some validation raises [e] in world [w'], and every validation before
    it has returned. *)
Inductive first_failure
  : list validation → OAuthAuthorizationParams → World → Exception → World → Prop :=
| failure_here v vs self w e w' :
    v self w = (Raise e, w') →
    first_failure (v :: vs) self w e w'
| failure_later v vs self w self' w' e w'' :
    v self w = (Ok self', w') →
    first_failure vs self' w' e w'' →
    first_failure (v :: vs) self w e w''.

(** The order in which [__post_init__] calls the validations. *)
Definition code_order (github_compat : bool) : list validation :=
  [check_redirect_uri; check_grant; check_scope github_compat; check_request;
   as_validation check_nonce; as_validation check_code_challenge].

(** The order of the subsections 4.1.1 to 4.1.5 of the specification. *)
Definition spec_order (github_compat : bool) : list validation :=
  [check_grant; check_redirect_uri; check_scope github_compat;
   as_validation check_nonce; check_request].

(** The table of section 4.1.1 of the specification. *)
Definition grant_of_response_type (rt : string) : option string :=
  if String.eqb rt "code" then Some "authorization_code"
  else if String.eqb rt "id_token" || String.eqb rt "id_token token"
  then Some "implicit"
  else if String.eqb rt "code token" || String.eqb rt "code id_token"
          || String.eqb rt "code id_token token"
  then Some "hybrid"
  else None.

(** [tok] is one of the space-separated tokens of [response_type]. *)
Definition response_type_contains (tok rt : string) : bool :=
  bool_decide (tok ∈ py_split rt).

(** The scope set [check_scope] works with once the default and the overlap
    with the configured scopes are applied. *)
Definition resolved_scope (github_compat : bool)
    (self : OAuthAuthorizationParams) (w : World) : gset string :=
  let configured := default_scope_names_of (provider self) w in
  let requested :=
    if (size (scope self) =? 0)%nat then configured else scope self in
  let scopes_to_check :=
    if github_compat then requested ∖ SCOPE_GITHUB else requested in
  if bool_decide (scopes_to_check ⊆ configured) then requested
  else requested ∩ configured.

(** Serve the requests one after the other on the same flow plan. *)
Fixpoint get_each (reqs : list HttpRequest) (w : World)
  : list (result HttpResponse) * World :=
  match reqs with
  | [] => ([], w)
  | req :: rest =>
      let '(r, w') := get req w in
      let '(rs, w'') := get_each rest w' in
      (r :: rs, w'')
  end.

(** What [check_grant] leaves in [response_mode]. *)
Definition effective_response_mode (mode : option string) (g : string)
  : option string :=
  if bool_decide (mode ∈ Some <$> ResponseMode.values) then mode
  else if bool_decide (g ∈ [GrantTypes.IMPLICIT; GrantTypes.HYBRID])
       then Some ResponseMode.FRAGMENT
       else Some ResponseMode.QUERY.

(** The allow-list the redirect URI is matched against: an empty list is
    first replaced by the requested URI itself. *)
Definition effective_allow_list (uri : string) (prov : OAuth2Provider)
  : list RedirectURI :=
  if (length (redirect_uris prov) <? 1)%nat
  then [{| matching_mode := STRICT; url := uri |}]
  else redirect_uris prov.

(** Apply [f] to the value a computation returned. *)
Definition map_ok {A B} (f : A → B) (r : result A * World) : result B * World :=
  match r with
  | (Ok a, w) => (Ok (f a), w)
  | (Raise e, w) => (Raise e, w)
  end.

(** A computation that leaves the flow-plan context as it found it. *)
Definition keeps_context {A} (m : M A) : Prop :=
  ∀ w, plan_context (m w).2 = plan_context w.

(** The cause attached to the exception a computation raised. *)
Definition cause_of {A} (r : result A) : option string :=
  match r with
  | Raise (OAuth (RedirectUriError _ _ cause)) => cause
  | Raise (OAuth (AuthorizeError _ _ _ _ _ cause)) => cause
  | _ => None
  end.

End Order.

(** ** Sample data *)

Module Sample.

Definition rp_provider : OAuth2Provider :=
  {| pk := 1; provider_client_id := "CID";
     redirect_uris := [{| matching_mode := STRICT; url := "https://rp.example/cb" |}];
     access_code_validity := 60;
     access_token_validity := 3600 |}.

Definition rp_application : Application :=
  {| name := "RP"; provider_id := 1 |}.

Definition world : World :=
  {| providers := [rp_provider];
     scope_mappings := [(1, "openid"); (1, "profile"); (1, "offline_access")];
     codes := []; tokens := []; events := [];
     plan_context := ∅;
     flow_pk := 7;
     executor := [] |}.

(** An authenticated GET on the authorization endpoint. *)
Definition authorize (parameters : dict string) : HttpRequest :=
  {| method := "GET"; GET := parameters; POST := [];
     user := "alice"; is_authenticated := true;
     login_event := Some {| login_pk := "login-1"; created := 1000 |};
     session := {["authenticatedsession" := "session-1"]};
     now := 1500;
     uuid4_hex := "0123456789abcdef0123456789abcdef";
     generated_token := "opaque-access-token" |}.

(** The plan context [AuthorizationFlowInitView.get] hands to the planner,
    as far as the fulfillment stage reads it. *)
Definition planned (params : OAuthAuthorizationParams) (w : World) : World :=
  with_plan_context
    (<[PLAN_CONTEXT_PARAMS := CtxParams params]>
       (<[PLAN_CONTEXT_APPLICATION := CtxApplication rp_application]> ∅)) w.

(** Validate a request and, when it is accepted, run the fulfillment stage
    on the plan made for it. *)
Definition authorize_then_fulfill (req : HttpRequest) (w : World)
  : result HttpResponse * World :=
  match pre_permission_check (ext := CPython.reference) req false w with
  | (Ok params, w') => get (ext := CPython.reference) req (planned params w')
  | (Raise e, w') => (Raise e, w')
  end.

(** The dataclass as [from_request] fills it in, before [__post_init__]
    has run. *)
Definition unvalidated (uri rt : string) (mode : option string)
    (scopes : string) (st no : option string) (prompts : string)
    (jar : option string) : OAuthAuthorizationParams :=
  {| client_id := "CID";
     redirect_uri := uri;
     response_type := rt;
     response_mode := mode;
     scope := list_to_set (py_split scopes);
     state := st;
     nonce := no;
     prompt := ALLOWED_PROMPT_PARAMS ∩ list_to_set (py_split prompts);
     grant_type := "";
     provider := None;
     request := jar;
     max_age := None;
     code_challenge := None;
     code_challenge_method := Some "plain" |}.

(** A provider whose allow-list holds one strict entry. *)
Definition world_allowing (uri : string) : World :=
  with_providers
    [with_redirect_uris [{| matching_mode := STRICT; url := uri |}] rp_provider]
    world.

(** The params [pre_permission_check] hands on, if it accepts the request. *)
Definition accepted (req : HttpRequest) (w : World)
  : option OAuthAuthorizationParams :=
  match (pre_permission_check (ext := CPython.reference) req false w).1 with
  | Ok params => Some params
  | Raise _ => None
  end.


(** [self] as it stands once [check_grant] has filled in [grant] and
    [mode] for the sample provider. *)
Definition granted (grant mode : string) (self : OAuthAuthorizationParams)
  : OAuthAuthorizationParams :=
  set_response_mode (Some mode)
    (set_grant_type grant (set_provider (Some rp_provider) self)).

End Sample.


(** ** Further vocabulary for the statements *)

Section Vocabulary.
Context {ext : External}.

(** The provider as [check_redirect_uri] leaves it: an empty allow-list is
    replaced by the requested URI. *)
Definition provisioned (uri : string) (prov : OAuth2Provider) : OAuth2Provider :=
  if (length (redirect_uris prov) <? 1)%nat
  then with_redirect_uris [{| matching_mode := STRICT; url := uri |}] prov
  else prov.

(** [allowed] matches [uri]: by equality for a strict entry, by a full
    regular-expression match for a regex entry. *)
Definition entry_matches (uri : string) (allowed : RedirectURI) : Prop :=
  match matching_mode allowed with
  | STRICT => url allowed = uri
  | REGEX => fullmatch (url allowed) uri = Some true
  end.

(** The page or redirect [pre_permission_check] answers a validation
    error with: an OAuth error response for an [AuthorizeError], a
    bad-request page for the other errors. *)
Definition validation_error_response (error : OAuth2Exception) : HttpResponse :=
  match error with
  | AuthorizeError _ _ _ _ _ _ => AuthorizeErrorResponse error
  | _ => BadRequestMessage error
  end.

End Vocabulary.

(** ** [AuthorizationFlowInitView.get] *)

(** Modelled from the spec: the plan-context keys of the flow planner and
    of the consent stage are declared in their own modules; section 6.5 of
    the specification names them. *)
Definition PLAN_CONTEXT_SSO := "sso".
Definition PLAN_CONTEXT_CONSENT_HEADER := "consent_header".
Definition PLAN_CONTEXT_CONSENT_PERMISSIONS := "consent_permissions".

(** [ConsentMode]: the member the view names, and the others. *)
Inductive ConsentMode :=
| ALWAYS_REQUIRE
| OtherConsentMode (value : string).

(** A stage bound into a flow plan, as far as the view tells stages apart:
    a consent stage, a stage made by [in_memory_stage] from a view class,
    any other stage. *)
Inductive Stage :=
| ConsentStage (stage_name : string) (mode : ConsentMode)
| InMemoryStage (view : string)
| OtherStage (stage_name : string).

Definition is_consent_stage (s : Stage) : bool :=
  match s with
  | ConsentStage _ _ => true
  | _ => false
  end.

(** [in_memory_stage(OAuthFulfillmentStage)] *)
Definition fulfillment_stage : Stage := InMemoryStage "OAuthFulfillmentStage".

(** One entry of the list [get_scope_descriptions] returns. *)
Record PermissionDescription := {
  permission_id : string;
  permission_name : string;
}.

(** The values [AuthorizationFlowInitView.get] puts into the plan context. *)
Inductive PlanEntry :=
| PlanFlag (b : bool)
| PlanApplication (a : Application)
| PlanParams (p : OAuthAuthorizationParams)
| PlanText (s : string)
| PlanPermissions (l : list PermissionDescription).

Record FlowPlan := {
  bindings : list Stage;
  context : dict PlanEntry;
}.

(** [plan.append_stage(stage)] *)
Definition append_stage (s : Stage) (plan : FlowPlan) : FlowPlan :=
  {| bindings := bindings plan ++ [s]; context := context plan |}.

(** What the view hands back: the two permission handlers of
    [PolicyAccessView], or [plan.to_redirect] with the finished plan. *)
Inductive InitResponse :=
| handle_no_permission
| handle_no_permission_authenticated
| to_redirect (plan : FlowPlan) (allowed_silent_types : list Stage).

(** The flow planner and the userinfo view, which live in other modules. *)
Class FlowEnvironment := {
  (* UserInfoView().get_scope_descriptions(scope, provider) *)
  get_scope_descriptions :
    gset string → option OAuth2Provider → list PermissionDescription;
  (* FlowPlanner(provider.authorization_flow).plan(request, context);
     None stands for FlowNonApplicableException *)
  planner_plan :
    OAuth2Provider → HttpRequest → dict PlanEntry → option FlowPlan;
}.

Section InitView.
Context {flows : FlowEnvironment}.

(** [get]: [self.params], [self.provider] and [self.application] are passed
    explicitly; the session is returned as the view leaves it.  Times are
    in whole seconds; the consent header is the untranslated text. *)
Definition init_get (req : HttpRequest) (params : OAuthAuthorizationParams)
    (prov : OAuth2Provider) (application : Application)
  : InitResponse * gmap string string :=
  (* Require a login event to be set, otherwise make the user re-login *)
  match login_event req with
  | None => (handle_no_permission, session req)
  | Some login_event =>
      let login_uid := login_pk login_event in
      let max_age_exceeded :=
        match max_age params with
        | Some max_age =>
            negb (max_age =? 0)
            && (max_age <? now req - created login_event)
        | None => false
        end in
      if max_age_exceeded then
        (handle_no_permission,
         <[SESSION_KEY_LAST_LOGIN_UID := login_uid]> (session req))
      else if bool_decide (PROMPT_LOGIN ∈ prompt params)
              && (negb (bool_decide (SESSION_KEY_LAST_LOGIN_UID
                                       ∈ dom (session req)))
                  || bool_decide (session req !! SESSION_KEY_LAST_LOGIN_UID
                                  = Some login_uid))
      then
        (handle_no_permission,
         <[SESSION_KEY_LAST_LOGIN_UID := login_uid]> (session req))
      else
        let scope_descriptions :=
          get_scope_descriptions (scope params) (provider params) in
        match
          planner_plan prov req
            [(PLAN_CONTEXT_SSO, PlanFlag true);
             (PLAN_CONTEXT_APPLICATION, PlanApplication application);
             (PLAN_CONTEXT_PARAMS, PlanParams params);
             (PLAN_CONTEXT_CONSENT_HEADER,
              PlanText ("You're about to sign into "
                        ++ name application ++ "."));
             (PLAN_CONTEXT_CONSENT_PERMISSIONS,
              PlanPermissions scope_descriptions)]
        with
        | None => (handle_no_permission_authenticated, session req)
        | Some plan =>
            (* OpenID clients can specify a `prompt` parameter, and if its
               set to consent we need to inject a consent stage *)
            let plan :=
              if bool_decide (PROMPT_CONSENT ∈ prompt params)
                 && negb (existsb is_consent_stage (bindings plan))
              then
                append_stage
                  (ConsentStage "OAuth2 Provider In-memory consent stage"
                     ALWAYS_REQUIRE) plan
              else plan in
            let plan := append_stage fulfillment_stage plan in
            (to_redirect plan
               (if bool_decide (response_mode params ∈
                                  [Some ResponseMode.QUERY;
                                   Some ResponseMode.FRAGMENT])
                then [fulfillment_stage] else []),
             session req)
        end
  end.

End InitView.

(** ** [authentik.events.utils] *)

Module EventUtils.

(** The exceptions these functions can end in; [OtherError] is an
    exception of another class, which only [asdict] can raise here. *)
Inductive PyError :=
| TypeError
| ValueError (message : string)
| AttributeError (attr : string)
| OtherError (class_name : string).

Inductive outcome (A : Type) :=
| Returns (a : A)
| Raises (e : PyError).
Arguments Returns {A} a.
Arguments Raises {A} e.

Definition outcome_map {A B} (f : A → B) (o : outcome A) : outcome B :=
  match o with
  | Returns a => Returns (f a)
  | Raises e => Raises e
  end.

Record User := {
  username : string;
  user_pk : Z;
  email : string;
}.

(** A dict key: a [str], or a key of another type (an [int]). *)
Inductive Key :=
| KStr (s : string)
| KInt (n : Z).

#[global] Instance Key_eq_dec : EqDecision Key.
Proof. solve_decision. Defined.

(** The Python objects the functions tell apart, each with what the
    functions read of it.  A dict lists its items in iteration order, a set
    and a generator list their items in the order they yield them.  A
    dataclass instance is given by what [asdict] does with it (for a
    [PolicyRequest], after its [http_request] has been cleared):
    [VDataclass] holds the dict [asdict] returns, in which the instances
    nested in fields, lists, tuples and dicts are dicts already, and
    [VDataclassFailing] the exception [asdict] raises when a field holds
    something [deepcopy] cannot copy, a generator or a request for one.  A
    float is given by its [repr] and whether it equals zero; a model
    instance by
    [_meta.app_label], [_meta.model_name], [pk], [str(model)] and its
    [name] attribute, if it has one.  Values are trees: no list occurs twice
    in one value. *)
#[local] Unset Elimination Schemes.
Inductive Value :=
| VNone
| VEllipsis
| VBool (b : bool)
| VInt (n : Z)
| VFloat (is_zero : bool) (repr : string)
| VStr (s : string)
| VDict (items : list (Key * Value))
| VList (l : list Value)
| VTuple (l : list Value)
| VSet (l : list Value)
| VGenerator (l : list Value)
| VDataclass (asdict : list (Key * Value))
| VDataclassFailing (asdict_error : PyError)
| VDataclassType (name module : string)
| VUser (u : User)
| VAnonymousUser
| VModel (app_label model_name : string) (pk : Value) (str : string)
    (name : option Value)
| VUUID (hex : string)
| VRequest
| VCity (city_to_dict : Value)
| VASN (asn_to_dict : Value)
| VPath (str : string)
| VException (str : string)
| VYAMLTag (str : string)
| VEnum (value : Value)
| VType (name module : string)
| VDatetime (isoformat : string)
| VDate (isoformat : string)
| VTime (is_aware : bool) (isoformat : string)
| VTimedelta (total_seconds : string)
| VCallable (name : option string) (module : string)
| VOther (str : string).
#[local] Set Elimination Schemes.

Definition items := list (Key * Value).

(** [value is ...] *)
Definition is_ellipsis (value : Value) : bool :=
  match value with
  | VEllipsis => true
  | _ => false
  end.

(** [bool(value)]; an object that defines neither [__bool__] nor [__len__]
    is true. *)
Definition is_truthy (value : Value) : bool :=
  match value with
  | VNone => false
  | VBool b => b
  | VInt n => negb (n =? 0)
  | VFloat is_zero _ => negb is_zero
  | VStr s => negb (String.eqb s "")
  | VDict items => negb (bool_decide (items = []))
  | VList l | VTuple l | VSet l => negb (bool_decide (l = []))
  | _ => true
  end.

(** [final_dict[key] = value]: an existing key keeps its position. *)
Fixpoint item_set (key : Key) (value : Value) (d : items) : items :=
  match d with
  | [] => [(key, value)]
  | (key', value') :: rest =>
      if bool_decide (key = key') then (key, value) :: rest
      else (key', value') :: item_set key value rest
  end.

(** The loop of [cleanse_dict] and of [sanitize_dict], over the items with
    the new value of each already worked out: the first exception ends the
    loop, a new value that is [...] is left out. *)
Fixpoint collect (new_values : list (Key * outcome Value)) (final_dict : items)
  : outcome items :=
  match new_values with
  | [] => Returns final_dict
  | (key, Raises e) :: _ => Raises e
  | (key, Returns new_value) :: rest =>
      collect rest (if is_ellipsis new_value then final_dict
                    else item_set key new_value final_dict)
  end.

(** The items of a dict, each with its new value under [g]. *)
Definition new_values_of (g : Key → Value → outcome Value) (source : items)
  : list (Key * outcome Value) :=
  map (λ '(key, value), (key, g key value)) source.

(** The loop of [cleanse_item] over a list: each item is replaced by its
    new value. *)
Fixpoint replace_each (new_values : list (outcome Value)) : outcome (list Value) :=
  match new_values with
  | [] => Returns []
  | Raises e :: _ => Raises e
  | Returns new_value :: rest =>
      outcome_map (cons new_value) (replace_each rest)
  end.

(** The loop of [sanitize_item] over a list, tuple or set: a new value that
    is false is left out. *)
Fixpoint keep_truthy (new_values : list (outcome Value)) : outcome (list Value) :=
  match new_values with
  | [] => Returns []
  | Raises e :: _ => Raises e
  | Returns new_value :: rest =>
      outcome_map (λ kept, if is_truthy new_value then new_value :: kept else kept)
        (keep_truthy rest)
  end.

(** What the module takes from Django, from [re] and from guardian. *)
Class Environment := {
  (* re.compile(pattern, flags=re.I).search(key) is not None *)
  search_ignorecase : string → string → bool;
  (* the pattern of SafeExceptionReporterFilter.hidden_settings, which is
     compiled with re.I as well *)
  hidden_settings : string;
  (* SafeExceptionReporterFilter.cleansed_substitute *)
  cleansed_substitute : string;
  (* guardian.utils.get_anonymous_user(); None stands for User.DoesNotExist *)
  get_anonymous_user : option User;
  (* guardian's settings.ANONYMOUS_USER_NAME *)
  ANONYMOUS_USER_NAME : string;
}.

(** Special keys which are *not* cleaned, even when the default filter is
    matched *)
Definition ALLOWED_SPECIAL_KEYS := "passing|password_change_date".

Section Functions.
Context {env : Environment}.

(** [cleanse_item]; [cleanse_dict] is the [VDict] case, stated on its own
    below.  A tuple or a set takes no item assignment: [value[idx] = ...]
    raises [TypeError] once the new value of its first item is there. *)
Fixpoint cleanse_item (key : Key) (value : Value) : outcome Value :=
  match value with
  | VDict source =>
      outcome_map VDict
        (collect (map (λ '(key, value), (key, cleanse_item key value)) source) [])
  | VList l => outcome_map VList (replace_each (map (cleanse_item key) l))
  | VTuple l | VSet l =>
      match l with
      | [] => Returns value
      | item :: _ =>
          match cleanse_item key item with
          | Returns _ => Raises TypeError
          | Raises e => Raises e
          end
      end
  | _ =>
      match key with
      | KStr key =>
          if negb (search_ignorecase hidden_settings key) then Returns value
          else if search_ignorecase ALLOWED_SPECIAL_KEYS key then Returns value
          else Returns (VStr cleansed_substitute)
      | KInt _ => Returns value        (* except TypeError *)
      end
  end.

Definition cleanse_dict (source : items) : outcome items :=
  collect (map (λ '(key, value), (key, cleanse_item key value)) source) [].

(** [model_to_dict] *)
Definition model_to_dict (app_label model_name : string) (pk : Value)
    (str : string) (name : option Value) : items :=
  let name :=
    match name with
    | Some name => name
    | None => VStr str
    end in
  [(KStr "app", VStr app_label);
   (KStr "model_name", VStr model_name);
   (KStr "pk", pk);
   (KStr "name", name)].

(** [get_user]; [None] is an [AnonymousUser]. *)
Definition get_user (user : option User) : items :=
  let user :=
    match user with
    | Some user => Some user
    | None => get_anonymous_user
    end in
  match user with
  | None => []
  | Some user =>
      let user_data :=
        [(KStr "username", VStr (username user));
         (KStr "pk", VInt (user_pk user));
         (KStr "email", VStr (email user))] in
      if String.eqb (username user) ANONYMOUS_USER_NAME
      then item_set (KStr "is_anonymous") (VBool true) user_data
      else user_data
  end.

(** [sanitize_item]; [sanitize_dict] is the [VDict] case, stated on its own
    below.  The dicts [get_user] and [model_to_dict] build are sanitized
    item by item here: the strings, the number and the flag they hold are
    their own sanitized form ([sanitize_item_user] and
    [sanitize_item_model] below compare this with the calls of the
    source). *)
Fixpoint sanitize_item (value : Value) : outcome Value :=
  match value with
  | VDataclass source | VDict source =>
      outcome_map VDict
        (collect (map (λ '(key, value), (key, sanitize_item value)) source) [])
  | VDataclassFailing asdict_error => Raises asdict_error   (* asdict(value) *)
  | VDataclassType _ _ => Raises TypeError           (* asdict(value) *)
  | VGenerator l | VList l | VTuple l | VSet l =>
      outcome_map VList (keep_truthy (map sanitize_item l))
  | VUser u => Returns (VDict (get_user (Some u)))
  | VAnonymousUser => Returns (VDict (get_user None))
  | VModel app_label model_name pk str name =>
      outcome_map VDict
        (collect
           [(KStr "app", Returns (VStr app_label));
            (KStr "model_name", Returns (VStr model_name));
            (KStr "pk", sanitize_item pk);
            (KStr "name",
             match name with
             | Some name => sanitize_item name
             | None => Returns (VStr str)
             end)] [])
  | VUUID hex => Returns (VStr hex)
  | VRequest => Returns VEllipsis
  | VCity city_to_dict => Returns city_to_dict
  | VASN asn_to_dict => Returns asn_to_dict
  | VPath str | VException str | VYAMLTag str => Returns (VStr str)
  | VEnum value => Returns value
  | VType name module =>
      Returns (VDict [(KStr "type", VStr name); (KStr "module", VStr module)])
  | VDatetime isoformat =>
      let representation := isoformat in
      let representation :=
        if String.eqb (substring (String.length representation - 6) 6
                         representation) "+00:00"
        then substring 0 (String.length representation - 6) representation
             ++ "Z"
        else representation in
      Returns (VStr representation)
  | VDate isoformat => Returns (VStr isoformat)
  | VTime is_aware isoformat =>
      if is_aware
      then Raises (ValueError "JSON can't represent timezone-aware times.")
      else Returns (VStr isoformat)
  | VTimedelta total_seconds => Returns (VStr total_seconds)
  | VCallable name module =>
      match name with
      | Some name =>
          Returns (VDict [(KStr "type", VStr "callable");
                          (KStr "name", VStr name);
                          (KStr "module", VStr module)])
      | None => Raises (AttributeError "__name__")
      end
  | VBool _ | VInt _ | VFloat _ _ | VNone => Returns value
  | VStr str | VOther str => Returns (VStr str)
  | VEllipsis => Returns (VStr "Ellipsis")
  end.

Definition sanitize_dict (source : items) : outcome items :=
  collect (map (λ '(key, value), (key, sanitize_item value)) source) [].

End Functions.

(** The values a value holds directly. *)
Definition children (value : Value) : list Value :=
  match value with
  | VDict items | VDataclass items => map snd items
  | VList l | VTuple l | VSet l | VGenerator l => l
  | VModel _ _ pk _ name =>
      pk :: match name with Some name => [name] | None => [] end
  | VCity v | VASN v | VEnum v => [v]
  | _ => []
  end.

(** A value that takes [cleanse_item]'s item assignment throughout: no
    tuple and no set with an item in it is reached through dicts and
    lists. *)
Fixpoint assignable (value : Value) : bool :=
  match value with
  | VDict items => forallb (λ '(_, value), assignable value) items
  | VList l => forallb assignable l
  | VTuple l | VSet l => match l with [] => true | _ :: _ => false end
  | _ => true
  end.

(** A value [sanitize_item] has a form for throughout: no dataclass class,
    no dataclass instance [asdict] fails on, no timezone-aware time and no
    callable without a [__name__] is reached through dicts, dataclasses,
    lists, tuples, sets, generators and the [pk] and [name] of models. *)
Fixpoint representable (value : Value) : bool :=
  match value with
  | VDict items | VDataclass items =>
      forallb (λ '(_, value), representable value) items
  | VList l | VTuple l | VSet l | VGenerator l => forallb representable l
  | VModel _ _ pk _ name =>
      representable pk
      && match name with Some name => representable name | None => true end
  | VDataclassFailing _ | VDataclassType _ _ => false
  | VTime is_aware _ => negb is_aware
  | VCallable name _ => bool_decide (is_Some name)
  | _ => true
  end.

(** A value made of [None], booleans, numbers, strings, dicts and lists
    only: what the JSON encoder takes as it is. *)
Fixpoint json_plain (value : Value) : bool :=
  match value with
  | VNone | VBool _ | VInt _ | VFloat _ _ | VStr _ => true
  | VDict items => forallb (λ '(_, value), json_plain value) items
  | VList l => forallb json_plain l
  | _ => false
  end.

(** The values [sanitize_item] answers with [...]: a request, and an enum
    member or a GeoIP record that holds [...] itself. *)
Definition yields_ellipsis (value : Value) : bool :=
  match value with
  | VRequest | VEnum VEllipsis | VCity VEllipsis | VASN VEllipsis => true
  | _ => false
  end.

Definition is_request (value : Value) : bool :=
  match value with
  | VRequest => true
  | _ => false
  end.

(** A value [sanitize_item] converts throughout: it holds no enum member
    and no GeoIP record, whose payload is handed on as it is, and a request
    only as a value of a dict or a dataclass or as the [pk] or [name] of a
    model, where it is left out. *)
Fixpoint convertible (value : Value) : bool :=
  match value with
  | VDict items | VDataclass items =>
      forallb (λ '(_, value), is_request value || convertible value) items
  | VList l | VTuple l | VSet l | VGenerator l => forallb convertible l
  | VModel _ _ pk _ name =>
      (is_request pk || convertible pk)
      && match name with
         | Some name => is_request name || convertible name
         | None => true
         end
  | VRequest | VEnum _ | VCity _ | VASN _ => false
  | _ => true
  end.

(** The form [sanitize_item] leaves a convertible value in: plain JSON
    data in which no key occurs twice in a dict and no list holds a false
    item. *)
Fixpoint canonical (value : Value) : bool :=
  match value with
  | VNone | VBool _ | VInt _ | VFloat _ _ | VStr _ => true
  | VDict items =>
      bool_decide (NoDup (map fst items))
      && forallb (λ '(_, value), canonical value) items
  | VList l => forallb (λ value, is_truthy value && canonical value) l
  | _ => false
  end.

Section Vocabulary.
Context {env : Environment}.

(** A key whose values [cleanse_item] replaces. *)
Definition masked (key : string) : bool :=
  search_ignorecase hidden_settings key
  && negb (search_ignorecase ALLOWED_SPECIAL_KEYS key).

(** What a masked key holds after cleansing: the substitute, lists of it,
    empty tuples and sets, and dicts, which are cleansed by their own
    keys. *)
Fixpoint blanked (value : Value) : bool :=
  match value with
  | VStr s => String.eqb s cleansed_substitute
  | VList l => forallb blanked l
  | VDict _ => true
  | VTuple l | VSet l => match l with [] => true | _ :: _ => false end
  | _ => false
  end.

End Vocabulary.

End EventUtils.

(** ** Sample surroundings of the init view and of the event utilities *)

Module Fixtures.
Import Sample.

(** The sample provider before any request has reached it: its allow-list
    is still empty. *)
Definition fresh_provider : OAuth2Provider := with_redirect_uris [] rp_provider.
Definition fresh_world : World := with_providers [fresh_provider] world.

(** A planner with a plan of one stage for every signed-in user, and none
    for anyone else; a scope is described by its own name. *)
Definition flows : FlowEnvironment :=
  {| get_scope_descriptions := λ scope _,
       (λ s, {| permission_id := s; permission_name := s |}) <$> elements scope;
     planner_plan := λ _ req context,
       if is_authenticated req
       then Some {| bindings := [OtherStage "default-provider-authorization"];
                    context := context |}
       else None |}.

(** [re.search] with [re.I], for a pattern that is an alternation of
    literals and a key of ASCII characters. *)
Definition lower (c : ascii) : ascii :=
  let n := nat_of_ascii c in
  if ((65 <=? n) && (n <=? 90))%nat then ascii_of_nat (n + 32) else c.

Fixpoint lowercase (s : string) : string :=
  match s with
  | EmptyString => EmptyString
  | String c rest => String (lower c) (lowercase rest)
  end.

Fixpoint alternatives (pattern current : string) : list string :=
  match pattern with
  | EmptyString => [current]
  | String c rest =>
      if Ascii.eqb c "|" then current :: alternatives rest EmptyString
      else alternatives rest (current ++ String c EmptyString)
  end.

Definition search_literals (pattern key : string) : bool :=
  existsb
    (λ literal,
       match String.index 0 (lowercase literal) (lowercase key) with
       | Some _ => true
       | None => false
       end)
    (alternatives pattern EmptyString).

(** The filter and the substitute of Django's
    [SafeExceptionReporterFilter], and guardian's anonymous user. *)
Definition django : EventUtils.Environment :=
  {| EventUtils.search_ignorecase := search_literals;
     EventUtils.hidden_settings := "API|AUTH|TOKEN|KEY|SECRET|PASS|SIGNATURE|HTTP_COOKIE";
     EventUtils.cleansed_substitute := "********************";
     EventUtils.get_anonymous_user :=
       Some {| EventUtils.username := "AnonymousUser";
               EventUtils.user_pk := 1;
               EventUtils.email := "" |};
     EventUtils.ANONYMOUS_USER_NAME := "AnonymousUser" |}.

End Fixtures.

(** ** Properties *)

Ltac unfold_M :=
  unfold mbind, M_bind, mret, M_ret, raise, gets, modify, try_except in *.

Ltac unfold_names :=
  unfold ResponseTypes.CODE, ResponseTypes.ID_TOKEN,
    ResponseTypes.ID_TOKEN_TOKEN, ResponseTypes.CODE_TOKEN,
    ResponseTypes.CODE_ID_TOKEN, ResponseTypes.CODE_ID_TOKEN_TOKEN,
    GrantTypes.AUTHORIZATION_CODE, GrantTypes.IMPLICIT, GrantTypes.HYBRID,
    ResponseMode.values, ResponseMode.QUERY, ResponseMode.FRAGMENT,
    ResponseMode.FORM_POST in *.

(** Goals and hypotheses about membership in a literal list. *)
Ltac list_membership :=
  unfold_names; rewrite ?elem_of_cons, ?elem_of_nil in *; intuition congruence.

Section Properties.
Context {ext : External}.

Implicit Types (self params : OAuthAuthorizationParams) (w : World).

Lemma grant_of_response_type_cases rt g :
  grant_of_response_type rt = Some g →
  (rt = "code" ∧ g = "authorization_code")
  ∨ ((rt = "id_token" ∨ rt = "id_token token") ∧ g = "implicit")
  ∨ ((rt = "code token" ∨ rt = "code id_token" ∨ rt = "code id_token token")
     ∧ g = "hybrid").
Proof.
  unfold grant_of_response_type.
  repeat match goal with
         | |- context [String.eqb rt ?s] =>
             destruct (String.eqb_spec rt s); simpl
         end; intros Hg; inversion Hg; auto 10.
Qed.

Lemma grant_of_response_type_none rt :
  grant_of_response_type rt = None →
  rt ∉ ["code"; "id_token"; "id_token token"; "code token"; "code id_token";
        "code id_token token"].
Proof.
  unfold grant_of_response_type.
  repeat match goal with
         | |- context [String.eqb rt ?s] =>
             destruct (String.eqb_spec rt s); simpl
         end; try discriminate.
  intros _ Hin.
  repeat (apply elem_of_cons in Hin as [-> | Hin]; [congruence |]).
  by apply elem_of_nil in Hin.
Qed.

Lemma check_grant_known self w g :
  grant_of_response_type (response_type self) = Some g →
  check_grant self w =
    (Ok (set_response_mode (effective_response_mode (response_mode self) g)
           (set_grant_type g self)), w).
Proof.
  intros Hg. apply grant_of_response_type_cases in Hg.
  destruct self as [cid uri rt mode sc st no pr gt prov rq ma cc ccm].
  simpl in *. unfold check_grant, effective_response_mode. simpl.
  destruct Hg as [[-> ->]|[[[-> | ->] ->]|[[-> | [-> | ->]] ->]]];
    (destruct (bool_decide (mode ∈ Some <$> ResponseMode.values)) eqn:Hm;
     vm_compute in Hm |- *; rewrite ?Hm; reflexivity).
Qed.

Lemma check_grant_unknown self w :
  grant_type self = "" →
  grant_of_response_type (response_type self) = None →
  check_grant self w =
    (Raise (OAuth (AuthorizeError (redirect_uri self) "unsupported_response_type"
                     "" (state self) None None)), w).
Proof.
  intros Hgt Hg. apply grant_of_response_type_none in Hg.
  unfold check_grant.
  rewrite !bool_decide_eq_false_2 by list_membership.
  by rewrite Hgt.
Qed.

(** *** [__post_init__] as a run of validations *)

Lemma post_init_unknown_client gc self w :
  provider_by_client_id (client_id self) w = (Ok None, w) →
  post_init gc self w = (Raise (OAuth (ClientIdError (client_id self))), w).
Proof.
  unfold post_init, provider_by_client_id. unfold_M. intros [= ->].
  reflexivity.
Qed.

Lemma post_init_run gc self w prov :
  provider_by_client_id (client_id self) w = (Ok (Some prov), w) →
  post_init gc self w =
    run_in_order (code_order gc) (set_provider (Some prov) self) w.
Proof.
  unfold post_init, provider_by_client_id, code_order, run_in_order,
    as_validation, check_request.
  unfold_M. intros [= ->]. simpl.
  destruct (check_redirect_uri _ w) as [[s1 | e] w1]; [| done].
  destruct (check_grant s1 w1) as [[s2 | e] w2]; [| done].
  destruct (check_scope gc s2 w2) as [[s3 | e] w3]; [| done].
  destruct (truthy_opt (request s3)); [done |].
  destruct (check_nonce s3 w3) as [[[] | e] w4]; [| done].
  by destruct (check_code_challenge s3 w4) as [[[] | e] w5].
Qed.

Lemma run_in_order_first_failure (vs : list validation) self w e w' :
  run_in_order vs self w = (Raise e, w') ↔ first_failure vs self w e w'.
Proof.
  revert self w. induction vs as [| v vs IH]; intros self w; simpl.
  - unfold_M. split; [discriminate | inversion 1].
  - unfold_M. split.
    + destruct (v self w) as [[s1 | e1] w1] eqn:Hv.
      * intros Hrun. eapply failure_later; [exact Hv | by apply IH].
      * intros [= -> ->]. by apply failure_here.
    + inversion 1 as [? ? ? ? ? ? Hv | ? ? ? ? ? ? ? ? Hv Hrest]; subst;
        rewrite Hv; [done | by apply IH].
Qed.


(** *** Redirect URI validation *)

Lemma truthy_true s : truthy s = true ↔ s ≠ "".
Proof.
  unfold truthy. destruct (String.eqb_spec s ""); simpl; split; congruence.
Qed.

Lemma match_found_self uri :
  match_found uri [{| matching_mode := STRICT; url := uri |}] = true.
Proof. simpl. by rewrite String.eqb_refl. Qed.

(** C1, as amended.  A request of a known client whose redirect URI has one
    of the schemes javascript, data or vbscript is always refused by the
    redirect URI validation, with a [RedirectUriError]: the cause is
    [redirect_uri_forbidden_scheme] when the URI matches the allow-list
    (an empty allow-list is first filled with the URI itself, so it always
    matches), and [redirect_uri_no_match] when it matches no entry. *)
Theorem forbidden_scheme_rejected gc self w prov parsed :
  provider_by_client_id (client_id self) w = (Ok (Some prov), w) →
  redirect_uri self ≠ "" →
  urlparse (redirect_uri self) = Some parsed →
  scheme parsed ∈ FORBIDDEN_URI_SCHEMES →
  let allowed := effective_allow_list (redirect_uri self) prov in
  (post_init gc self w).1 =
    Raise (OAuth (RedirectUriError (redirect_uri self) allowed
             (Some (if match_found (redirect_uri self) allowed
                    then "redirect_uri_forbidden_scheme"
                    else "redirect_uri_no_match"))))
  ∧ (redirect_uris prov = [] →
     match_found (redirect_uri self) allowed = true).
Proof.
  intros Hprov Huri Hparse Hscheme allowed. split.
  - rewrite (post_init_run _ _ _ _ Hprov). simpl. unfold_M.
    unfold check_redirect_uri. simpl. unfold_M.
    apply truthy_true in Huri. rewrite Huri. simpl.
    subst allowed. unfold effective_allow_list, save_provider. unfold_M.
    destruct (length (redirect_uris prov) <? 1)%nat; simpl.
    + rewrite String.eqb_refl. simpl. rewrite Hparse.
      by rewrite bool_decide_eq_true_2.
    + destruct (match_found _ _); simpl; [| done].
      rewrite Hparse. by rewrite bool_decide_eq_true_2.
  - intros Hempty. subst allowed. unfold effective_allow_list.
    rewrite Hempty. apply match_found_self.
Qed.

(** C2, as amended.  For a request of a known client, [__post_init__] runs
    the validations in the order redirect URI (4.1.2), [response_type] to
    [grant_type] (4.1.1), scope (4.1.3), presence of [request] (4.1.5),
    nonce (4.1.4) and PKCE method, and the exception it raises is the one of
    the first validation that fails in that order. *)
Theorem validations_in_code_order gc self w prov e w' :
  provider_by_client_id (client_id self) w = (Ok (Some prov), w) →
  post_init gc self w = (Raise e, w')
  ↔ first_failure (code_order gc) (set_provider (Some prov) self) w e w'.
Proof.
  intros Hprov. rewrite (post_init_run _ _ _ _ Hprov).
  apply run_in_order_first_failure.
Qed.

(** *** What each validation leaves untouched *)

Lemma set_provider_same self : set_provider (provider self) self = self.
Proof. by destruct self. Qed.

Lemma check_redirect_uri_ok self w self' w' :
  check_redirect_uri self w = (Ok self', w') →
  ∃ pv, self' = set_provider pv self.
Proof.
  unfold check_redirect_uri, save_provider. unfold_M.
  destruct (provider self) as [prov |] eqn:Hp; [| done].
  destruct (negb (truthy (redirect_uri self))); [done |].
  destruct (length (redirect_uris prov) <? 1)%nat; simpl.
  - rewrite String.eqb_refl. simpl.
    destruct (urlparse (redirect_uri self)); [| done].
    destruct (bool_decide _); [done |]. intros [= <- _]. eauto.
  - destruct (match_found _ _); simpl; [| done].
    destruct (urlparse (redirect_uri self)); [| done].
    destruct (bool_decide _); [done |]. intros [= <- _].
    exists (provider self). by rewrite set_provider_same.
Qed.

Lemma check_grant_ok self w self' w' :
  check_grant self w = (Ok self', w') →
  w' = w ∧ ∃ g m, self' = set_response_mode m (set_grant_type g self)
                  ∧ (grant_type self = "" →
                     grant_of_response_type (response_type self) = Some g).
Proof.
  destruct (grant_of_response_type (response_type self)) as [g |] eqn:Hg.
  - rewrite (check_grant_known _ _ _ Hg). intros [= <- <-]. eauto 6.
  - intros Hok. split.
    + revert Hok. unfold check_grant. unfold_M.
      repeat match goal with
             | |- context [if ?b then _ else _] => destruct b
             end; congruence.
    + exists (grant_type self'), (response_mode self'). split.
      * revert Hok. unfold check_grant. unfold_M.
        apply grant_of_response_type_none in Hg.
        rewrite !bool_decide_eq_false_2 by list_membership.
        repeat match goal with
               | |- context [if ?b then _ else _] => destruct b
               end; intros [= <- _]; by destruct self.
      * intros Hgt. by rewrite (check_grant_unknown _ _ Hgt Hg) in Hok.
Qed.

Lemma check_scope_eq gc self w :
  check_scope gc self w =
    let resolved := resolved_scope gc self w in
    if bool_decide (SCOPE_OPENID ∉ resolved)
       && (String.eqb (grant_type self) GrantTypes.HYBRID
           || bool_decide (response_type self ∈
                             [ResponseTypes.ID_TOKEN; ResponseTypes.ID_TOKEN_TOKEN]))
    then
      (Raise (OAuth (AuthorizeError (redirect_uri self) "invalid_scope"
                       (grant_type self) (state self) None
                       (Some "scope_openid_missing"))), w)
    else if bool_decide (response_type self ∈
                           [ResponseTypes.CODE; ResponseTypes.CODE_TOKEN;
                            ResponseTypes.CODE_ID_TOKEN;
                            ResponseTypes.CODE_ID_TOKEN_TOKEN])
    then (Ok (set_scope resolved self), w)
    else (Ok (set_scope (resolved ∖ {[SCOPE_OFFLINE_ACCESS]}) self), w).
Proof.
  unfold check_scope, resolved_scope. unfold_M. cbv zeta.
  set (configured := default_scope_names_of (provider self) w).
  set (requested := if (size (scope self) =? 0)%nat then configured else scope self).
  assert (Hself : (if (size (scope self) =? 0)%nat
      then set_scope configured self
      else self) = set_scope requested self).
  { subst requested. destruct (size (scope self) =? 0)%nat; [done | by destruct self]. }
  rewrite Hself. simpl.
  set (to_check := if gc then requested ∖ SCOPE_GITHUB else requested).
  set (resolved := if bool_decide (to_check ⊆ configured) then requested else requested ∩ configured).
  assert (Hself2 : (if negb (bool_decide (to_check ⊆ configured))
      then set_scope (requested ∩ configured) (set_scope requested self)
      else set_scope requested self) = set_scope resolved self).
  { subst resolved. by destruct (bool_decide (to_check ⊆ configured)). }
  rewrite Hself2. simpl.
  destruct (bool_decide (SCOPE_OPENID ∉ resolved) && _); [done |].
  destruct (bool_decide (SCOPE_OFFLINE_ACCESS ∈ resolved)) eqn:Hoff.
  - by destruct (bool_decide (response_type self ∈ _)).
  - apply bool_decide_eq_false in Hoff.
    rewrite (difference_disjoint_L resolved) by by apply disjoint_singleton_r.
    by destruct (bool_decide (response_type self ∈ _)).
Qed.

Lemma check_scope_ok gc self w self' w' :
  check_scope gc self w = (Ok self', w') →
  w' = w ∧ self' = set_scope (scope self') self
  ∧ (response_type self ∉ [ResponseTypes.CODE; ResponseTypes.CODE_TOKEN;
                            ResponseTypes.CODE_ID_TOKEN;
                            ResponseTypes.CODE_ID_TOKEN_TOKEN] →
     scope self' = resolved_scope gc self w ∖ {[SCOPE_OFFLINE_ACCESS]}).
Proof.
  rewrite check_scope_eq. cbv zeta.
  destruct (bool_decide (SCOPE_OPENID ∉ _) && _); [done |].
  case_bool_decide as Hrt; intros [= <- <-]; repeat split; done.
Qed.

Lemma check_nonce_world self w r w' :
  check_nonce self w = (r, w') → w' = w.
Proof.
  unfold check_nonce. unfold_M.
  repeat match goal with
         | |- context [if ?b then _ else _] => destruct b
         end; congruence.
Qed.

Lemma check_code_challenge_world self w r w' :
  check_code_challenge self w = (r, w') → w' = w.
Proof.
  unfold check_code_challenge. unfold_M.
  destruct (_ && _); congruence.
Qed.

(** The steps a successful [__post_init__] has gone through. *)
Lemma post_init_ok gc self w self' w' :
  post_init gc self w = (Ok self', w') →
  ∃ prov s1 s2,
    provider_by_client_id (client_id self) w = (Ok (Some prov), w)
    ∧ check_redirect_uri (set_provider (Some prov) self) w = (Ok s1, w')
    ∧ check_grant s1 w' = (Ok s2, w')
    ∧ check_scope gc s2 w' = (Ok self', w')
    ∧ truthy_opt (request self') = false
    ∧ check_nonce self' w' = (Ok tt, w')
    ∧ check_code_challenge self' w' = (Ok tt, w').
Proof.
  unfold post_init, provider_by_client_id. unfold_M.
  destruct (find _ (providers w)) as [prov |]; simpl; [| done].
  destruct (check_redirect_uri _ w) as [[s1 | e] w1] eqn:H1; [| done].
  destruct (check_grant s1 w1) as [[s2 | e] w2] eqn:H2; [| done].
  destruct (check_scope gc s2 w2) as [[s3 | e] w3] eqn:H3; [| done].
  destruct (truthy_opt (request s3)) eqn:H4; [done |].
  destruct (check_nonce s3 w3) as [[[] | e] w4] eqn:H5; [| done].
  destruct (check_code_challenge s3 w4) as [[[] | e] w5] eqn:H6; [| done].
  intros [= <- <-].
  apply check_grant_ok in H2 as H2'. destruct H2' as [-> _].
  apply check_scope_ok in H3 as H3'. destruct H3' as [-> _].
  apply check_nonce_world in H5 as H5'. subst w4.
  apply check_code_challenge_world in H6 as H6'. subst w5.
  exists prov, s1, s2. done.
Qed.

(** A request that passes validation carries the grant type of the table. *)
Lemma post_init_grant gc self w self' w' :
  grant_type self = "" →
  post_init gc self w = (Ok self', w') →
  response_type self' = response_type self
  ∧ grant_of_response_type (response_type self) = Some (grant_type self').
Proof.
  intros Hgt (prov & s1 & s2 & _ & H1 & H2 & H3 & _)%post_init_ok.
  apply check_redirect_uri_ok in H1 as [pv ->].
  apply check_grant_ok in H2 as (_ & g & m & -> & Hg).
  apply check_scope_ok in H3 as (_ & -> & _). simpl. auto.
Qed.

(** C4.  The grant type is a function of [response_type] alone, read as the
    exact string sent.  For a string of the table of section 4.1.1,
    [check_grant] sets the grant type of the table, and a request that
    passes the whole validation carries it.  Any other string, a
    reordering of the tokens of a table entry included, is refused by
    [check_grant] with [unsupported_response_type], and the validation
    fails: with [ClientIdError] for an unknown client, with the error of
    the redirect URI validation, which runs first, if that fails, and with
    [unsupported_response_type] otherwise. *)
Theorem grant_type_of_response_type gc self w :
  grant_type self = "" →
  match grant_of_response_type (response_type self) with
  | Some g =>
      check_grant self w =
        (Ok (set_response_mode
               (effective_response_mode (response_mode self) g)
               (set_grant_type g self)), w)
      ∧ ∀ self' w',
          post_init gc self w = (Ok self', w') →
          response_type self' = response_type self ∧ grant_type self' = g
  | None =>
      check_grant self w =
        (Raise (OAuth (AuthorizeError (redirect_uri self)
                         "unsupported_response_type" "" (state self)
                         None None)), w)
      ∧ post_init gc self w =
          match (provider_by_client_id (client_id self) w).1 with
          | Ok (Some prov) =>
              match check_redirect_uri (set_provider (Some prov) self) w with
              | (Ok _, w1) =>
                  (Raise (OAuth (AuthorizeError (redirect_uri self)
                                   "unsupported_response_type" ""
                                   (state self) None None)), w1)
              | (Raise e, w1) => (Raise e, w1)
              end
          | _ => (Raise (OAuth (ClientIdError (client_id self))), w)
          end
  end.
Proof.
  intros Hgt.
  destruct (grant_of_response_type (response_type self)) as [g |] eqn:Hg.
  - split; [by apply check_grant_known |].
    intros self' w' Hpost.
    destruct (post_init_grant gc self w self' w' Hgt Hpost) as [Hrt Hg'].
    split; [done | congruence].
  - split; [by apply check_grant_unknown |].
    unfold post_init, provider_by_client_id. unfold_M. simpl.
    destruct (find _ (providers w)) as [prov |]; simpl; [| done].
    destruct (check_redirect_uri _ w) as [[s1 | e1] w1] eqn:H1; [| done].
    apply check_redirect_uri_ok in H1 as [pv ->].
    by rewrite check_grant_unknown.
Qed.

(** *** Nonce *)

Lemma contains_id_token rt g :
  grant_of_response_type rt = Some g →
  response_type_contains "id_token" rt =
    bool_decide (rt ∈ [ResponseTypes.ID_TOKEN; ResponseTypes.ID_TOKEN_TOKEN;
                       ResponseTypes.CODE_ID_TOKEN;
                       ResponseTypes.CODE_ID_TOKEN_TOKEN]).
Proof.
  intros Hg. apply grant_of_response_type_cases in Hg.
  destruct Hg as [[-> _]|[[[-> | ->] _]|[[-> | [-> | ->]] _]]];
    by vm_compute.
Qed.

Lemma check_nonce_eq self w g :
  grant_of_response_type (response_type self) = Some g →
  check_nonce self w =
    if response_type_contains "id_token" (response_type self)
       && bool_decide (SCOPE_OPENID ∈ scope self)
       && negb (truthy_opt (nonce self))
    then
      (Raise (OAuth (AuthorizeError (redirect_uri self) "invalid_request"
                       (grant_type self) (state self) None
                       (Some "nonce_missing"))), w)
    else (Ok tt, w).
Proof.
  intros Hg. rewrite (contains_id_token _ _ Hg). unfold check_nonce. unfold_M.
  destruct (bool_decide (response_type self ∈ _)); simpl; [| done].
  destruct (decide (SCOPE_OPENID ∈ scope self)) as [Hin | Hout].
  - rewrite (bool_decide_eq_true_2 _ Hin).
    rewrite bool_decide_eq_false_2 by auto. simpl.
    by destruct (truthy_opt (nonce self)).
  - rewrite (bool_decide_eq_false_2 _ Hout).
    by rewrite bool_decide_eq_true_2.
Qed.



(** *** [offline_access] *)

Lemma check_redirect_uri_scope sc self w :
  check_redirect_uri (set_scope sc self) w
  = map_ok (set_scope sc) (check_redirect_uri self w).
Proof.
  unfold check_redirect_uri, save_provider. unfold_M. simpl.
  destruct (provider self) as [prov |]; [| done].
  destruct (negb (truthy (redirect_uri self))); [done |].
  destruct (length (redirect_uris prov) <? 1)%nat; simpl.
  - rewrite String.eqb_refl. simpl.
    destruct (urlparse (redirect_uri self)); [| done].
    by destruct (bool_decide _).
  - destruct (match_found _ _); simpl; [| done].
    destruct (urlparse (redirect_uri self)); [| done].
    by destruct (bool_decide _).
Qed.

Lemma check_grant_scope sc self w :
  check_grant (set_scope sc self) w
  = map_ok (set_scope sc) (check_grant self w).
Proof.
  destruct self as [cid uri rt mode sc0 st no pr0 gt prov rq ma cc ccm].
  unfold check_grant. unfold_M. simpl.
  destruct (bool_decide (rt ∈ [ResponseTypes.CODE])); simpl;
    [| destruct (bool_decide (rt ∈ [ResponseTypes.ID_TOKEN; _])); simpl;
       [| destruct (bool_decide (rt ∈ [ResponseTypes.CODE_TOKEN; _; _])); simpl;
          [| destruct (truthy gt); simpl; [| done]]]];
    destruct (bool_decide (mode ∈ _)); simpl; try reflexivity.
  by destruct (bool_decide (gt ∈ _)).
Qed.

(** With a scope named in the request, the scope [check_scope] works with
    is the requested one, cut down to the configured scopes where it goes
    beyond them. *)
Lemma resolved_scope_requested gc self w :
  scope self ≠ ∅ →
  resolved_scope gc self w =
    let configured := default_scope_names_of (provider self) w in
    if bool_decide ((if gc then scope self ∖ SCOPE_GITHUB else scope self)
                    ⊆ configured)
    then scope self else scope self ∩ configured.
Proof.
  intros Hne. unfold resolved_scope. cbv zeta.
  destruct (size (scope self) =? 0)%nat eqn:Hsize; [| done].
  apply Nat.eqb_eq, size_empty_inv in Hsize.
  destruct Hne. by apply leibniz_equiv.
Qed.

Lemma resolved_scope_standard self w :
  scope self ≠ ∅ →
  resolved_scope false self w
  = scope self ∩ default_scope_names_of (provider self) w.
Proof.
  intros Hne. rewrite resolved_scope_requested by done. cbv zeta.
  destruct (bool_decide _) eqn:Hsub; [| done].
  apply bool_decide_eq_true in Hsub. apply leibniz_equiv.
  intros x. rewrite elem_of_intersection. split; [| tauto].
  intros Hx. split; [done | by apply Hsub].
Qed.

(** On the standard route, asking for [offline_access] on top of other
    scopes changes nothing about what [check_scope] does for a response
    type that produces no code. *)
Lemma check_scope_without_offline_access self w :
  response_type self ∉ [ResponseTypes.CODE; ResponseTypes.CODE_TOKEN;
                        ResponseTypes.CODE_ID_TOKEN;
                        ResponseTypes.CODE_ID_TOKEN_TOKEN] →
  scope self ≠ ∅ →
  scope self ∖ {[SCOPE_OFFLINE_ACCESS]} ≠ ∅ →
  check_scope false (set_scope (scope self ∖ {[SCOPE_OFFLINE_ACCESS]}) self) w
  = check_scope false self w.
Proof.
  intros Hrt Hne Hrest. rewrite !check_scope_eq. cbv zeta.
  rewrite !resolved_scope_standard by done.
  change (provider (set_scope _ self)) with (provider self).
  change (scope (set_scope (scope self ∖ {[SCOPE_OFFLINE_ACCESS]}) self))
    with (scope self ∖ {[SCOPE_OFFLINE_ACCESS]}).
  set (configured := default_scope_names_of (provider self) w).
  assert (Hopenid :
    bool_decide (SCOPE_OPENID ∉ (scope self ∖ {[SCOPE_OFFLINE_ACCESS]}) ∩ configured)
    = bool_decide (SCOPE_OPENID ∉ scope self ∩ configured)).
  { apply bool_decide_ext.
    rewrite !elem_of_intersection, elem_of_difference, elem_of_singleton.
    assert (SCOPE_OPENID ≠ SCOPE_OFFLINE_ACCESS) by discriminate. tauto. }
  assert (Hsame :
    ((scope self ∖ {[SCOPE_OFFLINE_ACCESS]}) ∩ configured) ∖ {[SCOPE_OFFLINE_ACCESS]}
    = (scope self ∩ configured) ∖ {[SCOPE_OFFLINE_ACCESS]}).
  { apply leibniz_equiv. intros x.
    rewrite !elem_of_difference, !elem_of_intersection, elem_of_difference.
    tauto. }
  rewrite Hopenid, Hsame. simpl.
  rewrite (bool_decide_eq_false_2 _ Hrt).
  by destruct (_ && _).
Qed.

(** C7.  For a request that asks for [offline_access] with a response type
    that produces no authorization code, [check_scope] raises no error on
    account of [offline_access]: it fails only when [openid] is missing
    from a hybrid or [id_token] request, and otherwise returns the
    requested scope, cut down to the configured scopes where it goes
    beyond them, without [offline_access].  Whenever the whole validation
    succeeds, the scope it leaves is that one, so it no longer contains
    [offline_access]; validation can still fail in another check.  On the
    standard route, a request that names other scopes as well has the
    outcome of the same request without [offline_access]. *)
Theorem offline_access_removed (gc : bool) self w :
  SCOPE_OFFLINE_ACCESS ∈ scope self →
  response_type self ∉ [ResponseTypes.CODE; ResponseTypes.CODE_TOKEN;
                        ResponseTypes.CODE_ID_TOKEN;
                        ResponseTypes.CODE_ID_TOKEN_TOKEN] →
  let kept (configured : gset string) : gset string :=
    if bool_decide ((if gc then scope self ∖ SCOPE_GITHUB else scope self)
                    ⊆ configured)
    then scope self else scope self ∩ configured in
  (check_scope gc self w =
     let kept := kept (default_scope_names_of (provider self) w) in
     if bool_decide (SCOPE_OPENID ∉ kept)
        && (String.eqb (grant_type self) GrantTypes.HYBRID
            || bool_decide (response_type self ∈
                              [ResponseTypes.ID_TOKEN;
                               ResponseTypes.ID_TOKEN_TOKEN]))
     then
       (Raise (OAuth (AuthorizeError (redirect_uri self) "invalid_scope"
                        (grant_type self) (state self) None
                        (Some "scope_openid_missing"))), w)
     else (Ok (set_scope (kept ∖ {[SCOPE_OFFLINE_ACCESS]}) self), w))
  ∧ (∀ self' w',
       post_init gc self w = (Ok self', w') →
       scope self'
       = kept (default_scope_names_of (provider self') w')
           ∖ {[SCOPE_OFFLINE_ACCESS]}
       ∧ SCOPE_OFFLINE_ACCESS ∉ scope self')
  ∧ (gc = false →
     scope self ≠ {[SCOPE_OFFLINE_ACCESS]} →
     post_init gc (set_scope (scope self ∖ {[SCOPE_OFFLINE_ACCESS]}) self) w
     = post_init gc self w).
Proof.
  intros Hoff Hrt kept.
  assert (Hne : scope self ≠ ∅).
  { intros Hempty. rewrite Hempty in Hoff. by apply not_elem_of_empty in Hoff. }
  split; [| split].
  - rewrite check_scope_eq. cbv zeta.
    rewrite resolved_scope_requested by done. cbv zeta. fold kept.
    by rewrite (bool_decide_eq_false_2 _ Hrt).
  - intros self' w' Hpost.
    apply post_init_ok in Hpost as (prov & s1 & s2 & _ & H1 & H2 & H3 & _).
    apply check_redirect_uri_ok in H1 as [pv ->].
    apply check_grant_ok in H2 as (_ & g & m & -> & _).
    apply check_scope_ok in H3 as (_ & Hself' & Hscope).
    assert (Hprov : provider self' = pv) by (by rewrite Hself').
    rewrite (Hscope Hrt), resolved_scope_requested by done. cbv zeta.
    simpl. rewrite Hprov. split; [done |].
    rewrite elem_of_difference, elem_of_singleton. tauto.
  - intros -> Hother.
    assert (Hrest : scope self ∖ {[SCOPE_OFFLINE_ACCESS]} ≠ ∅).
    { intros Hempty. apply Hother. apply leibniz_equiv. intros x.
      rewrite elem_of_singleton. split.
      - intros Hx. destruct (decide (x = SCOPE_OFFLINE_ACCESS)); [done |].
        assert (x ∈ scope self ∖ {[SCOPE_OFFLINE_ACCESS]})
          by (rewrite elem_of_difference, elem_of_singleton; done).
        rewrite Hempty in H. by apply not_elem_of_empty in H.
      - by intros ->. }
    unfold post_init, provider_by_client_id. unfold_M. simpl.
    destruct (find _ (providers w)) as [prov |]; simpl; [| done].
    change (set_provider (Some prov) (set_scope ?sc self))
      with (set_scope sc (set_provider (Some prov) self)).
    rewrite check_redirect_uri_scope.
    destruct (check_redirect_uri _ w) as [[s1 | e] w1] eqn:H1; simpl; [| done].
    apply check_redirect_uri_ok in H1 as [pv ->].
    rewrite check_grant_scope.
    destruct (check_grant _ w1) as [[s2 | e] w2] eqn:H2; simpl; [| done].
    apply check_grant_ok in H2 as (_ & g & m & -> & _).
    change (scope self) with
      (scope (set_response_mode m (set_grant_type g (set_provider pv self)))).
    by rewrite check_scope_without_offline_access.
Qed.

(** *** The fulfillment stage and the flow-plan context *)

Lemma keeps_ret {A} (a : A) : keeps_context (mret a).
Proof. by intros w. Qed.

Lemma keeps_raise {A} e : keeps_context (raise e : M A).
Proof. by intros w. Qed.

Lemma keeps_gets {A} (f : World → A) : keeps_context (gets f).
Proof. by intros w. Qed.

Lemma keeps_bind {A B} (m : M A) (f : A → M B) :
  keeps_context m → (∀ a, keeps_context (f a)) → keeps_context (m ≫= f).
Proof.
  intros Hm Hf w. unfold_M. specialize (Hm w).
  destruct (m w) as [[a | e] w1]; simpl in *; [| done].
  by rewrite Hf.
Qed.

Lemma keeps_try_except {A} (body : M A) h :
  keeps_context body →
  (∀ e k, h e = Some k → keeps_context k) →
  keeps_context (try_except body h).
Proof.
  intros Hbody Hh w. unfold try_except. specialize (Hbody w).
  destruct (body w) as [[a | e] w1]; simpl in *; [done |].
  destruct (h e) as [k |] eqn:Hk; simpl; [| done].
  by rewrite (Hh _ _ Hk).
Qed.

Lemma keeps_save_code c : keeps_context (save_code c).
Proof. by intros w. Qed.
Lemma keeps_save_token t : keeps_context (save_token t).
Proof. by intros w. Qed.
Lemma keeps_log_event e : keeps_context (log_event e).
Proof. by intros w. Qed.
Lemma keeps_executor_call c : keeps_context (executor_call c).
Proof. by intros w. Qed.

Lemma keeps_authenticated_session req :
  keeps_context (authenticated_session req).
Proof.
  unfold authenticated_session.
  destruct (session req !! _); [apply keeps_ret | apply keeps_raise].
Qed.

Lemma keeps_code_attr {A} attr (f : AuthorizationCode → A) c :
  keeps_context (code_attr attr f c).
Proof. destruct c; [apply keeps_ret | apply keeps_raise]. Qed.

Lemma keeps_if {A} (b : bool) (m1 m2 : M A) :
  keeps_context m1 → keeps_context m2 →
  keeps_context (if b then m1 else m2).
Proof. by destruct b. Qed.

Create HintDb keeps.
#[local] Hint Resolve keeps_ret keeps_raise keeps_gets keeps_save_code
  keeps_save_token keeps_log_event keeps_executor_call
  keeps_authenticated_session keeps_code_attr : keeps.

(** Walk through a computation built from steps that keep the context. *)
Ltac keeps :=
  repeat first
    [ solve [auto with keeps nocore]
    | apply keeps_bind; [| intros ?]
    | apply keeps_if
    | match goal with
      | |- keeps_context (let '(_, _) := ?p in _) => destruct p
      | |- keeps_context (match ?x with _ => _ end) => destruct x
      end
    | progress cbv zeta ].

Lemma keeps_create_code req params : keeps_context (create_code req params).
Proof. unfold create_code. keeps. Qed.
#[local] Hint Resolve keeps_create_code : keeps.

Lemma keeps_create_implicit_response req params prov c :
  keeps_context (create_implicit_response req params prov c).
Proof. unfold create_implicit_response. keeps. Qed.
#[local] Hint Resolve keeps_create_implicit_response : keeps.

Lemma keeps_code_and_state params c d :
  keeps_context (code_and_state params c d).
Proof. unfold code_and_state. keeps. Qed.
#[local] Hint Resolve keeps_code_and_state : keeps.

Lemma keeps_create_response_uri req params prov :
  keeps_context (create_response_uri req params prov).
Proof.
  unfold create_response_uri.
  destruct (urlsplit (redirect_uri params)); [| apply keeps_raise].
  apply keeps_try_except.
  - keeps.
  - intros e k. destruct e; try done. intros [= <-]. apply keeps_raise.
Qed.
#[local] Hint Resolve keeps_create_response_uri : keeps.

Lemma keeps_redirect params application uri :
  keeps_context (redirect params application uri).
Proof. unfold redirect. keeps. Qed.
#[local] Hint Resolve keeps_redirect : keeps.

Lemma keeps_get_object_or_404 key : keeps_context (get_object_or_404 key).
Proof. unfold get_object_or_404. keeps. Qed.
#[local] Hint Resolve keeps_get_object_or_404 : keeps.

Lemma params_key_is_not_application_key :
  PLAN_CONTEXT_PARAMS ≠ PLAN_CONTEXT_APPLICATION.
Proof. done. Qed.

Lemma bind_run {A B} (m : M A) (f : A → M B) w :
  (m ≫= f) w =
    match m w with
    | (Ok a, w') => f a w'
    | (Raise e, w') => (Raise e, w')
    end.
Proof. reflexivity. Qed.

Lemma context_pop_run key w :
  context_pop key w =
    match plan_context w !! key with
    | Some v => (Ok v, with_plan_context (delete key (plan_context w)) w)
    | None => (Raise (KeyError key), w)
    end.
Proof.
  unfold context_pop. rewrite bind_run. unfold gets.
  by destruct (plan_context w !! key).
Qed.

(** Whatever happens in [get], the params entry is gone afterwards. *)
Lemma get_pops_params req w :
  plan_context (get req w).2 !! PLAN_CONTEXT_PARAMS = None.
Proof.
  unfold get. rewrite bind_run. unfold gets at 1. cbv beta iota.
  case_bool_decide as Hin; cbv beta iota delta [negb].
  - apply elem_of_dom in Hin as [v Hv].
    rewrite bind_run, context_pop_run, Hv.
    set (w1 := with_plan_context _ w).
    assert (Hw1 : plan_context w1 !! PLAN_CONTEXT_PARAMS = None)
      by apply lookup_delete_eq.
    rewrite bind_run, context_pop_run.
    destruct (plan_context w1 !! PLAN_CONTEXT_APPLICATION) as [a |];
      [| exact Hw1].
    set (w2 := with_plan_context _ w1).
    assert (Hw2 : plan_context w2 !! PLAN_CONTEXT_PARAMS = None).
    { subst w2. cbn [plan_context with_plan_context].
      rewrite lookup_delete_ne by done. exact Hw1. }
    destruct v as [params | | |]; try exact Hw2.
    destruct a as [| application | |]; try exact Hw2.
    match goal with
    | |- plan_context (?m w2).2 !! _ = None =>
        assert (Hk : keeps_context m)
    end.
    { apply keeps_bind; [keeps | intros prov].
      apply keeps_try_except.
      - keeps.
      - intros e k. destruct e as [[] | | | | |]; try done;
          intros [= <-]; keeps. }
    by rewrite Hk.
  - by apply not_elem_of_dom.
Qed.

Lemma get_without_params req w :
  plan_context w !! PLAN_CONTEXT_PARAMS = None →
  get req w = (Ok HttpResponseBadRequest, w).
Proof.
  intros Hnone. unfold get. unfold_M.
  rewrite bool_decide_eq_false_2; [done |].
  by apply not_elem_of_dom.
Qed.

Lemma get_each_without_params reqs w :
  plan_context w !! PLAN_CONTEXT_PARAMS = None →
  get_each reqs w = (replicate (length reqs) (Ok HttpResponseBadRequest), w).
Proof.
  intros Hnone. induction reqs as [| req reqs IH]; simpl; [done |].
  by rewrite (get_without_params _ _ Hnone), IH.
Qed.

(** C10.  After the fulfillment stage has run once on a plan, the params
    object is no longer in the plan context, whatever the outcome of that
    run; every further run on that plan answers HTTP 400 and leaves the
    world as it is, so it creates no code and no token. *)
Theorem fulfillment_runs_once req reqs w :
  let w1 := (get req w).2 in
  (PLAN_CONTEXT_PARAMS ∉ dom (plan_context w1))
  ∧ get_each reqs w1
    = (replicate (length reqs) (Ok HttpResponseBadRequest), w1).
Proof.
  intros w1. pose proof (get_pops_params req w) as Hnone. split.
  - by apply not_elem_of_dom.
  - by apply get_each_without_params.
Qed.

(** *** The prompt parameter *)

(** No validation reads [prompt]. *)
Lemma check_redirect_uri_prompt pr self w :
  check_redirect_uri (set_prompt pr self) w
  = map_ok (set_prompt pr) (check_redirect_uri self w).
Proof.
  unfold check_redirect_uri, save_provider. unfold_M. simpl.
  destruct (provider self) as [prov |]; [| done].
  destruct (negb (truthy (redirect_uri self))); [done |].
  destruct (length (redirect_uris prov) <? 1)%nat; simpl.
  - rewrite String.eqb_refl. simpl.
    destruct (urlparse (redirect_uri self)); [| done].
    by destruct (bool_decide _).
  - destruct (match_found _ _); simpl; [| done].
    destruct (urlparse (redirect_uri self)); [| done].
    by destruct (bool_decide _).
Qed.

Lemma check_grant_prompt pr self w :
  check_grant (set_prompt pr self) w
  = map_ok (set_prompt pr) (check_grant self w).
Proof.
  destruct self as [cid uri rt mode sc st no pr0 gt prov rq ma cc ccm].
  unfold check_grant. unfold_M. simpl.
  destruct (bool_decide (rt ∈ [ResponseTypes.CODE])); simpl;
    [| destruct (bool_decide (rt ∈ [ResponseTypes.ID_TOKEN; _])); simpl;
       [| destruct (bool_decide (rt ∈ [ResponseTypes.CODE_TOKEN; _; _])); simpl;
          [| destruct (truthy gt); simpl; [| done]]]];
    destruct (bool_decide (mode ∈ _)); simpl; try reflexivity.
  by destruct (bool_decide (gt ∈ _)).
Qed.

Lemma check_scope_prompt gc pr self w :
  check_scope gc (set_prompt pr self) w
  = map_ok (set_prompt pr) (check_scope gc self w).
Proof.
  rewrite !check_scope_eq. cbv zeta.
  change (resolved_scope gc (set_prompt pr self) w)
    with (resolved_scope gc self w). simpl.
  repeat match goal with
         | |- context [if ?b then _ else _] => destruct b; simpl
         end; reflexivity.
Qed.

Lemma check_nonce_prompt pr self w :
  check_nonce (set_prompt pr self) w = check_nonce self w.
Proof. reflexivity. Qed.

Lemma check_code_challenge_prompt pr self w :
  check_code_challenge (set_prompt pr self) w = check_code_challenge self w.
Proof. reflexivity. Qed.

Lemma post_init_ignores_prompt gc pr self w :
  post_init gc (set_prompt pr self) w
  = map_ok (set_prompt pr) (post_init gc self w).
Proof.
  unfold post_init, provider_by_client_id. unfold_M. simpl.
  destruct (find _ (providers w)) as [prov |]; simpl; [| done].
  change (set_provider (Some prov) (set_prompt pr self))
    with (set_prompt pr (set_provider (Some prov) self)).
  rewrite check_redirect_uri_prompt.
  destruct (check_redirect_uri _ w) as [[s1 | e] w1]; simpl; [| done].
  rewrite check_grant_prompt.
  destruct (check_grant s1 w1) as [[s2 | e] w2]; simpl; [| done].
  rewrite check_scope_prompt.
  destruct (check_scope gc s2 w2) as [[s3 | e] w3]; simpl; [| done].
  destruct (truthy_opt (request s3)); [done |].
  rewrite check_nonce_prompt.
  destruct (check_nonce s3 w3) as [[[] | e] w4]; simpl; [| done].
  rewrite check_code_challenge_prompt.
  by destruct (check_code_challenge s3 w4) as [[[] | e] w5].
Qed.

(** For a signed-in user [pre_permission_check] adds nothing to the
    validation of the parameters. *)
Lemma pre_permission_check_signed_in req gc w params w' :
  GET req ≠ [] →
  is_authenticated req = true →
  from_request req gc w = (Ok params, w') →
  pre_permission_check req gc w = (Ok params, w').
Proof.
  intros Hget Hauth Hfrom. unfold pre_permission_check.
  destruct (GET req); [done |]. simpl.
  rewrite bind_run. unfold try_except. rewrite Hfrom, Hauth.
  by rewrite andb_false_r.
Qed.

Lemma get_object_or_404_run key w :
  get_object_or_404 key w =
    match find (λ p, pk p =? key) (providers w) with
    | Some p => (Ok p, w)
    | None => (Raise Http404, w)
    end.
Proof.
  unfold get_object_or_404. rewrite bind_run. unfold gets.
  by destruct (find _ _).
Qed.

(** C6.  When the params in the plan context carry both [none] and
    [consent] in [prompt], the fulfillment stage answers with the OAuth
    error [consent_required]; it saves no code and no token, logs the error
    and marks the stage invalid.  The validation of the request never looks
    at [prompt]: its outcome with such a prompt set is its outcome with any
    other. *)
Theorem none_and_consent_refused req params application prov w gc self w0 :
  plan_context w !! PLAN_CONTEXT_PARAMS = Some (CtxParams params) →
  plan_context w !! PLAN_CONTEXT_APPLICATION
    = Some (CtxApplication application) →
  get_object_or_404 (provider_id application) w = (Ok prov, w) →
  {[PROMPT_NONE; PROMPT_CONSENT]} ⊆ prompt params →
  let error :=
    AuthorizeError (redirect_uri params) "consent_required"
      (grant_type params) (state params) None None in
  let w' := (get req w).2 in
  (get req w).1 = Ok (AuthorizeErrorResponse error)
  ∧ codes w' = codes w
  ∧ tokens w' = tokens w
  ∧ events w' = (events w ++ [ErrorEvent error application])%list
  ∧ executor w' = (executor w ++ [stage_invalid])%list
  ∧ post_init gc (set_prompt (prompt params) self) w0
    = map_ok (set_prompt (prompt params)) (post_init gc self w0).
Proof.
  intros Hparams Happ Hprov Hprompt error w'.
  assert (Hget : get req w =
    (Ok (AuthorizeErrorResponse error),
     with_executor (executor w ++ [stage_invalid])
       (with_events (events w ++ [ErrorEvent error application])
          (with_plan_context
             (delete PLAN_CONTEXT_APPLICATION
                (delete PLAN_CONTEXT_PARAMS (plan_context w))) w)))).
  { unfold get. rewrite bind_run. unfold gets at 1. cbv beta iota.
    rewrite bool_decide_eq_true_2 by (apply elem_of_dom; eauto).
    cbv beta iota delta [negb].
    rewrite bind_run, context_pop_run, Hparams.
    rewrite bind_run, context_pop_run.
    cbn [plan_context with_plan_context].
    rewrite lookup_delete_ne by done. rewrite Happ.
    rewrite bind_run, get_object_or_404_run.
    rewrite get_object_or_404_run in Hprov.
    cbn [providers with_plan_context].
    destruct (find _ (providers w)) as [p |]; [| done].
    injection Hprov as ->.
    unfold try_except.
    rewrite (bool_decide_eq_true_2 _ Hprompt).
    reflexivity. }
  subst w'. rewrite Hget. simpl.
  repeat split; try done. apply post_init_ignores_prompt.
Qed.

(** *** The response builder *)

Lemma authenticated_session_run req w :
  authenticated_session req w =
    match session req !! "authenticatedsession" with
    | Some s => (Ok s, w)
    | None => (Raise (KeyError "authenticatedsession"), w)
    end.
Proof. unfold authenticated_session. by destruct (session req !! _). Qed.





Lemma dict_get_set {V} k k' (v : V) d :
  dict_get k (dict_set k' v d)
  = if String.eqb k k' then Some v else dict_get k d.
Proof.
  induction d as [| [k0 v0] d IH]; simpl.
  - done.
  - destruct (String.eqb_spec k' k0) as [-> | Hne]; simpl.
    + by destruct (String.eqb k k0).
    + destruct (String.eqb_spec k k0) as [-> | Hne'].
      * destruct (String.eqb_spec k0 k'); [congruence | done].
      * exact IH.
Qed.

(** [create_code] reads the world but does not change it, and the only
    exceptions it raises are Python's own. *)
Lemma create_code_run req params w :
  ∃ r, create_code req params w = (r, w)
       ∧ ∀ e, r ≠ Raise (OAuth e).
Proof.
  unfold create_code.
  destruct (provider params); [| by eexists].
  rewrite bind_run, authenticated_session_run.
  destruct (session req !! _); [| by eexists].
  destruct (_ && _); by eexists.
Qed.

(** C9, as amended.  In query mode the response builder never calls
    [create_implicit_response]: it takes the query parameters the redirect
    URI already has, sets [code] and [state], and encodes the result, for
    the authorization-code and for the hybrid grant alike.  For any other
    grant there is no code and reading it raises [AttributeError], which is
    not turned into an OAuth error.  [check_grant] leaves a
    [response_mode=query] sent with an implicit response type in place, so
    such a request reaches that branch. *)
Theorem query_mode_response req params prov w uri :
  urlsplit (redirect_uri params) = Some uri →
  response_mode params = Some ResponseMode.QUERY →
  let own :=
    (λ kv : string * list string, (kv.1, QList kv.2)) <$> parse_qs (query uri) in
  let payload c :=
    dict_set "state" (QList [state_or_empty (state params)])
      (dict_set "code" (QStr (code c)) own) in
  (create_response_uri req params prov w =
     if bool_decide (grant_type params ∈
                       [GrantTypes.AUTHORIZATION_CODE; GrantTypes.HYBRID])
     then
       match create_code req params w with
       | (Ok c, _) =>
           (Ok (urlunsplit (replace_query (urlencode (payload c)) uri)),
            with_codes (codes w ++ [c]) w)
       | (Raise e, _) => (Raise e, w)
       end
     else (Raise (AttributeError "code"), w))
  ∧ (∀ c k,
       dict_get k (payload c) =
         if String.eqb k "state"
         then Some (QList [state_or_empty (state params)])
         else if String.eqb k "code" then Some (QStr (code c))
         else dict_get k own)
  ∧ (∀ self w0,
       response_type self ∈ [ResponseTypes.ID_TOKEN; ResponseTypes.ID_TOKEN_TOKEN] →
       response_mode self = Some ResponseMode.QUERY →
       ∃ self', check_grant self w0 = (Ok self', w0)
                ∧ grant_type self' = GrantTypes.IMPLICIT
                ∧ response_mode self' = Some ResponseMode.QUERY).
Proof.
  intros Hsplit Hmode own payload. repeat split.
  - unfold create_response_uri. rewrite Hsplit.
    destruct (create_code_run req params w) as (r & Hr & Hne).
    unfold code_and_state, code_attr, save_code. unfold_M.
    rewrite (bool_decide_eq_true_2 _ Hmode).
    destruct (bool_decide (grant_type params ∈ _)); [| done].
    rewrite Hr. destruct r as [c | e]; [done |].
    destruct e as [e | | | | |]; try done. by destruct (Hne e).
  - intros c k. subst payload. cbv beta. by rewrite !dict_get_set.
  - intros self w0 Hrt Hmode'.
    assert (Hg : grant_of_response_type (response_type self) = Some "implicit").
    { unfold grant_of_response_type.
      apply elem_of_cons in Hrt as [-> | Hrt]; [done |].
      apply elem_of_cons in Hrt as [-> | Hrt]; [done |].
      by apply elem_of_nil in Hrt. }
    rewrite (check_grant_known _ _ _ Hg). eexists. split; [reflexivity |].
    rewrite Hmode'. done.
Qed.

End Properties.

(** ** The properties on concrete requests *)

Section Runs.
#[local] Existing Instance CPython.reference.
Import Sample.

(** Replace a closed term by its value. *)
Ltac evaluate t :=
  let v := eval vm_compute in t in change t with v; cbv beta iota.

(** Name the value of a closed run. *)
Ltac run_as H t :=
  let v := eval vm_compute in t in
  assert (H : t = v) by (vm_compute; reflexivity).

(** C1 does not hold as stated: a [javascript:] redirect URI that is not on
    the allow-list is refused with cause [redirect_uri_no_match], not
    [redirect_uri_forbidden_scheme]. *)
Lemma forbidden_scheme_off_the_allow_list :
  let self :=
    unvalidated "javascript:alert(1)" "code" None "openid" (Some "xyz") None ""
      None in
  scheme <$> urlparse (redirect_uri self) = Some "javascript"
  ∧ (post_init false self world).1
    = Raise (OAuth (RedirectUriError "javascript:alert(1)"
                      [{| matching_mode := STRICT;
                          url := "https://rp.example/cb" |}]
                      (Some "redirect_uri_no_match")))
  ∧ cause_of (post_init false self world).1
    ≠ Some "redirect_uri_forbidden_scheme".
Proof. by vm_compute. Qed.

(** Scenario S3 of the specification: the [javascript:] URI is on the
    allow-list and is refused for its scheme. *)
Lemma forbidden_scheme_rejected_witness :
  let self :=
    unvalidated "javascript:alert(1)" "code" None "openid" (Some "xyz") None ""
      None in
  (post_init false self (world_allowing "javascript:alert(1)")).1
  = Raise (OAuth (RedirectUriError "javascript:alert(1)"
                    [{| matching_mode := STRICT; url := "javascript:alert(1)" |}]
                    (Some "redirect_uri_forbidden_scheme"))).
Proof.
  intros self.
  refine (proj1 (forbidden_scheme_rejected false self
                   (world_allowing "javascript:alert(1)")
                   (with_redirect_uris
                      [{| matching_mode := STRICT;
                          url := "javascript:alert(1)" |}] rp_provider)
                   {| scheme := "javascript"; netloc := "";
                      path := "alert(1)"; query := ""; fragment := "" |}
                   _ _ _ _)).
  - reflexivity.
  - discriminate.
  - reflexivity.
  - by vm_compute.
Defined.

(** C2 does not hold as stated.  With an empty redirect URI and an unknown
    response type, the order of the specification reports
    [unsupported_response_type] while the code reports
    [redirect_uri_missing]; with a [request] parameter and a missing nonce,
    the order of the specification reports [nonce_missing] while the code
    reports [request_not_supported]. *)
Lemma spec_order_reports_another_error :
  let first := unvalidated "" "bogus" None "openid" (Some "xyz") None "" None in
  let second :=
    unvalidated "https://rp.example/cb" "id_token" None "openid" (Some "xyz")
      None "" (Some "eyJ") in
  first_failure (spec_order false) (set_provider (Some rp_provider) first) world
    (OAuth (AuthorizeError "" "unsupported_response_type" "" (Some "xyz")
              None None)) world
  ∧ post_init false first world
    = (Raise (OAuth (RedirectUriError ""
                       [{| matching_mode := STRICT;
                           url := "https://rp.example/cb" |}]
                       (Some "redirect_uri_missing"))), world)
  ∧ first_failure (spec_order false) (set_provider (Some rp_provider) second)
      world
      (OAuth (AuthorizeError "https://rp.example/cb" "invalid_request"
                "implicit" (Some "xyz") None (Some "nonce_missing"))) world
  ∧ post_init false second world
    = (Raise (OAuth (AuthorizeError "https://rp.example/cb"
                       "request_not_supported" "implicit" (Some "xyz")
                       None None)), world).
Proof.
  intros first second. split; [| split; [| split]].
  - apply run_in_order_first_failure. by vm_compute.
  - by vm_compute.
  - apply run_in_order_first_failure. by vm_compute.
  - by vm_compute.
Qed.

Lemma validations_in_code_order_witness :
  let self :=
    unvalidated "https://rp.example/cb" "id_token" None "openid" (Some "xyz")
      None "" (Some "eyJ") in
  first_failure (code_order false) (set_provider (Some rp_provider) self) world
    (OAuth (AuthorizeError "https://rp.example/cb" "request_not_supported"
              "implicit" (Some "xyz") None None)) world.
Proof.
  intros self.
  apply (validations_in_code_order false self world rp_provider).
  - reflexivity.
  - by vm_compute.
Defined.

(** C3: a code response for a request without [state], in each response
    mode.  In query and in fragment mode the redirect carries [state=]; in
    [form_post] mode the form the browser submits has a [code] field and no
    [state] field, because [redirect] reads the fields back with
    [parse_qs], which drops blank values.  The same happens to the payload
    of a hybrid response. *)
Theorem form_post_omits_empty_state :
  let run response_type scopes mode :=
    (authorize_then_fulfill
       (authorize [("response_type", response_type); ("client_id", "CID");
                   ("redirect_uri", "https://rp.example/cb");
                   ("scope", scopes); ("nonce", "n");
                   ("response_mode", mode)]) world).1 in
  run "code" "" "query"
  = Ok (HttpResponseRedirectScheme
          "https://rp.example/cb?code=0123456789abcdef0123456789abcdef&state="
          ["https"])
  ∧ run "code" "" "fragment"
    = Ok (HttpResponseRedirectScheme
            "https://rp.example/cb#code=0123456789abcdef0123456789abcdef&state="
            ["https"])
  ∧ run "code" "" "form_post"
    = Ok (HttpChallengeResponse "Redirecting to RP..." "https://rp.example/cb"
            [("code", "0123456789abcdef0123456789abcdef")])
  ∧ run "code id_token" "openid" "form_post"
    = Ok (HttpChallengeResponse "Redirecting to RP..." "https://rp.example/cb"
            [("id_token",
              "jws(sub=alice,nonce=n,c_hash=c_hash(0123456789abcdef0123456789abcdef),at_hash=None)");
             ("code", "0123456789abcdef0123456789abcdef");
             ("token_type", "Bearer"); ("expires_in", "3600")]).
Proof. by vm_compute. Qed.

(** C4 does not hold as stated: [token id_token] has the token set of
    [id_token token], which the table maps to [implicit], and is refused
    with [unsupported_response_type]. *)
Lemma permuted_response_type_refused :
  let tabled :=
    unvalidated "https://rp.example/cb" "id_token token" None "openid"
      (Some "s") (Some "n") "" None in
  let sent :=
    unvalidated "https://rp.example/cb" "token id_token" None "openid"
      (Some "s") (Some "n") "" None in
  (list_to_set (py_split (response_type sent)) : gset string)
  = list_to_set (py_split (response_type tabled))
  ∧ match (post_init false tabled world).1 with
    | Ok self' => grant_type self' = "implicit"
    | Raise _ => False
    end
  ∧ post_init false sent world
    = (Raise (OAuth (AuthorizeError "https://rp.example/cb"
                       "unsupported_response_type" "" (Some "s") None None)),
       world).
Proof. by vm_compute. Qed.

(** Scenario S1's hybrid sibling is given the grant of the table; the
    reordered [token id_token] fails with [unsupported_response_type]. *)
Lemma grant_type_of_response_type_witness :
  let self :=
    unvalidated "https://rp.example/cb" "code id_token" None "openid"
      (Some "xyz") (Some "n") "" None in
  let reordered :=
    unvalidated "https://rp.example/cb" "token id_token" None "openid"
      (Some "xyz") (Some "n") "" None in
  check_grant self world
  = (Ok (set_response_mode (Some "fragment") (set_grant_type "hybrid" self)),
     world)
  ∧ match post_init false self world with
    | (Ok self', _) =>
        response_type self' = "code id_token" ∧ grant_type self' = "hybrid"
    | (Raise _, _) => False
    end
  ∧ post_init false reordered world
    = (Raise (OAuth (AuthorizeError "https://rp.example/cb"
                       "unsupported_response_type" "" (Some "xyz") None None)),
       world).
Proof.
  intros self reordered.
  destruct (grant_type_of_response_type false self world eq_refl) as [Hg Hp].
  pose proof (grant_type_of_response_type false reordered world eq_refl)
    as [_ Hr].
  split; [exact Hg |]. split.
  - revert Hp. evaluate (post_init false self world).
    intros Hp. exact (Hp _ _ eq_refl).
  - rewrite Hr. by vm_compute.
Defined.


(** A request with [prompt=none consent] passes [pre_permission_check] for
    a signed-in user and is refused by the fulfillment stage. *)
Lemma none_and_consent_refused_witness :
  let req :=
    authorize [("response_type", "code"); ("client_id", "CID");
               ("redirect_uri", "https://rp.example/cb");
               ("prompt", "none consent"); ("state", "s")] in
  match accepted req world with
  | Some params =>
      let w := planned params world in
      (get req w).1
      = Ok (AuthorizeErrorResponse
              (AuthorizeError "https://rp.example/cb" "consent_required"
                 "authorization_code" (Some "s") None None))
      ∧ codes (get req w).2 = []
      ∧ tokens (get req w).2 = []
  | None => False
  end.
Proof.
  intros req. evaluate (accepted req world).
  match goal with
  | |- let w := planned ?params world in _ =>
      intros w;
      destruct (none_and_consent_refused req params rp_application rp_provider
                  w false params world)
        as (Hget & Hcodes & Htokens & _)
  end.
  - reflexivity.
  - reflexivity.
  - reflexivity.
  - by vm_compute.
  - split; [exact Hget | split; [exact Hcodes | exact Htokens]].
Defined.

(** C7 does not hold as stated: an [id_token] request for
    [openid offline_access] without a nonce, and one for [offline_access]
    alone, are inside the claim's conditions and are refused. *)
Lemma offline_access_request_refused :
  let no_nonce :=
    unvalidated "https://rp.example/cb" "id_token" None
      "openid offline_access" (Some "s") None "" None in
  let no_openid :=
    unvalidated "https://rp.example/cb" "id_token" None "offline_access"
      (Some "s") (Some "n") "" None in
  bool_decide (SCOPE_OFFLINE_ACCESS ∈ scope no_nonce) = true
  ∧ bool_decide (SCOPE_OFFLINE_ACCESS ∈ scope no_openid) = true
  ∧ response_type no_nonce = "id_token"
  ∧ response_type no_openid = "id_token"
  ∧ post_init false no_nonce world
    = (Raise (OAuth (AuthorizeError "https://rp.example/cb" "invalid_request"
                       "implicit" (Some "s") None (Some "nonce_missing"))),
       world)
  ∧ post_init false no_openid world
    = (Raise (OAuth (AuthorizeError "https://rp.example/cb" "invalid_scope"
                       "implicit" (Some "s") None
                       (Some "scope_openid_missing"))),
       world).
Proof.
  intros no_nonce no_openid.
  split; [by vm_compute |]. split; [by vm_compute |].
  split; [reflexivity |]. split; [reflexivity |].
  split; by vm_compute.
Qed.

(** An implicit request for [openid offline_access] with a nonce passes,
    and [openid] is the scope that is left; it is validated like the same
    request for [openid] alone. *)
Lemma offline_access_removed_witness :
  let self :=
    unvalidated "https://rp.example/cb" "id_token" None
      "openid offline_access" (Some "s") (Some "n") "" None in
  let checked := granted "implicit" "fragment" self in
  check_scope false checked world = (Ok (set_scope {["openid"]} checked), world)
  ∧ (∃ self',
       post_init false self world = (Ok self', world)
       ∧ SCOPE_OFFLINE_ACCESS ∉ scope self')
  ∧ post_init false (set_scope {["openid"]} self) world
    = post_init false self world.
Proof.
  intros self checked.
  assert (Hoff : SCOPE_OFFLINE_ACCESS ∈ scope self)
    by (apply (bool_decide_unpack _); by vm_compute).
  assert (Hrt : response_type self ∉
                  [ResponseTypes.CODE; ResponseTypes.CODE_TOKEN;
                   ResponseTypes.CODE_ID_TOKEN;
                   ResponseTypes.CODE_ID_TOKEN_TOKEN])
    by (apply (bool_decide_unpack _); by vm_compute).
  destruct (offline_access_removed false checked world Hoff Hrt)
    as (Hscope & _ & _).
  destruct (offline_access_removed false self world Hoff Hrt)
    as (_ & Hpost & Hsame).
  split; [| split].
  - rewrite Hscope. by vm_compute.
  - run_as Hrun (post_init false self world).
    eexists. split; [exact Hrun |]. exact (proj2 (Hpost _ _ Hrun)).
  - rewrite <- (Hsame eq_refl); [by vm_compute |].
    intros Heq.
    assert (Hopenid : SCOPE_OPENID ∈ scope self)
      by (apply (bool_decide_unpack _); by vm_compute).
    rewrite Heq in Hopenid. apply elem_of_singleton in Hopenid. discriminate.
Defined.



(** C9 does not hold as stated: the payload of a query-mode response keeps
    the query parameters of the redirect URI next to [code] and [state],
    be it one named [tenant] or one named [access_token]. *)
Lemma query_payload_keeps_other_parameters :
  let run uri :=
    (authorize_then_fulfill
       (authorize [("response_type", "code token"); ("client_id", "CID");
                   ("redirect_uri", uri); ("scope", "openid"); ("state", "s");
                   ("response_mode", "query")]) (world_allowing uri)).1 in
  run "https://rp.example/cb?tenant=a"
  = Ok (HttpResponseRedirectScheme
          "https://rp.example/cb?tenant=a&code=0123456789abcdef0123456789abcdef&state=s"
          ["https"])
  ∧ run "https://rp.example/cb?access_token=forged"
    = Ok (HttpResponseRedirectScheme
            "https://rp.example/cb?access_token=forged&code=0123456789abcdef0123456789abcdef&state=s"
            ["https"])
  ∧ dict_keys
      (parse_qs
         "access_token=forged&code=0123456789abcdef0123456789abcdef&state=s")
    = ["access_token"; "code"; "state"].
Proof. by vm_compute. Qed.

(** A hybrid request in query mode gets [code] and [state] and no token; an
    implicit request in query mode ends in [AttributeError]. *)
Lemma query_mode_response_witness :
  let req := authorize [] in
  let hybrid :=
    granted "hybrid" "query"
      (unvalidated "https://rp.example/cb?tenant=a" "code id_token"
         (Some "query") "openid" (Some "s") (Some "n") "" None) in
  let implicit :=
    granted "implicit" "query"
      (unvalidated "https://rp.example/cb" "id_token" (Some "query") "openid"
         (Some "s") (Some "n") "" None) in
  (create_response_uri req hybrid rp_provider world).1
  = Ok "https://rp.example/cb?tenant=a&code=0123456789abcdef0123456789abcdef&state=s"
  ∧ tokens (create_response_uri req hybrid rp_provider world).2 = []
  ∧ create_response_uri req implicit rp_provider world
    = (Raise (AttributeError "code"), world).
Proof.
  intros req hybrid implicit.
  destruct (query_mode_response req hybrid rp_provider world
              {| scheme := "https"; netloc := "rp.example"; path := "/cb";
                 query := "tenant=a"; fragment := "" |})
    as (Hhybrid & _ & _); [by vm_compute | reflexivity |].
  destruct (query_mode_response req implicit rp_provider world
              {| scheme := "https"; netloc := "rp.example"; path := "/cb";
                 query := ""; fragment := "" |})
    as (Himplicit & _ & _); [by vm_compute | reflexivity |].
  rewrite Hhybrid, Himplicit. by vm_compute.
Defined.

End Runs.

(** ** Further properties of the views *)

Section Coverage.
Context {ext : External}.
Implicit Types (self params : OAuthAuthorizationParams) (w : World).

(** *** What validation does to the database *)

Lemma check_grant_world self w r w' : check_grant self w = (r, w') → w' = w.
Proof.
  unfold check_grant. unfold_M.
  repeat match goal with
         | |- context [if ?b then _ else _] => destruct b
         end; congruence.
Qed.

Lemma check_scope_world gc self w r w' :
  check_scope gc self w = (r, w') → w' = w.
Proof.
  rewrite check_scope_eq. cbv zeta.
  repeat match goal with
         | |- context [if ?b then _ else _] => destruct b
         end; congruence.
Qed.

(** [check_redirect_uri], branch by branch. *)
Lemma check_redirect_uri_eq self w prov :
  provider self = Some prov →
  check_redirect_uri self w =
    let uri := redirect_uri self in
    if negb (truthy uri) then
      (Raise (OAuth (RedirectUriError "" (redirect_uris prov)
                       (Some "redirect_uri_missing"))), w)
    else
      let prov' := provisioned uri prov in
      let w' :=
        if (length (redirect_uris prov) <? 1)%nat
        then (save_provider prov' w).2 else w in
      if negb (match_found uri (redirect_uris prov')) then
        (Raise (OAuth (RedirectUriError uri (redirect_uris prov')
                         (Some "redirect_uri_no_match"))), w')
      else
        match urlparse uri with
        | None => (Raise ValueError, w')
        | Some parsed =>
            if bool_decide (scheme parsed ∈ FORBIDDEN_URI_SCHEMES) then
              (Raise (OAuth (RedirectUriError uri (redirect_uris prov')
                               (Some "redirect_uri_forbidden_scheme"))), w')
            else (Ok (set_provider (Some prov') self), w')
        end.
Proof.
  intros Hprov. unfold check_redirect_uri, provisioned, save_provider.
  rewrite Hprov. unfold_M. cbv zeta.
  destruct (negb (truthy (redirect_uri self))); [done |].
  destruct (length (redirect_uris prov) <? 1)%nat; simpl.
  - rewrite String.eqb_refl. simpl.
    destruct (urlparse (redirect_uri self)); [| done].
    by destruct (bool_decide _).
  - destruct (match_found _ _); simpl; [| done].
    destruct (urlparse (redirect_uri self)); [| done].
    destruct (bool_decide _); [done |].
    by rewrite <- Hprov, set_provider_same.
Qed.

(** The world after [__post_init__], whatever its outcome: only the
    auto-provisioning of an empty allow-list writes to it. *)
Lemma post_init_world gc self w prov :
  provider_by_client_id (client_id self) w = (Ok (Some prov), w) →
  (post_init gc self w).2 =
    if truthy (redirect_uri self)
       && (length (redirect_uris prov) <? 1)%nat
    then (save_provider (provisioned (redirect_uri self) prov) w).2
    else w.
Proof.
  unfold post_init, provider_by_client_id. unfold_M. intros [= ->]. simpl.
  rewrite (check_redirect_uri_eq _ w prov) by done. cbv zeta. simpl.
  destruct (truthy (redirect_uri self)); simpl; [| done].
  set (w1 := if (length (redirect_uris prov) <? 1)%nat then _ else w).
  destruct (match_found _ _); simpl; [| done].
  destruct (urlparse (redirect_uri self)); simpl; [| done].
  destruct (bool_decide _); simpl; [done |].
  destruct (check_grant _ w1) as [[s2 | e] w2] eqn:H2;
    apply check_grant_world in H2 as ->; [| done].
  destruct (check_scope gc s2 w1) as [[s3 | e] w3] eqn:H3;
    apply check_scope_world in H3 as ->; [| done].
  destruct (truthy_opt (request s3)); [done |].
  destruct (check_nonce s3 w1) as [[[] | e] w4] eqn:H4;
    apply check_nonce_world in H4 as ->; [| done].
  destruct (check_code_challenge s3 w1) as [[[] | e] w5] eqn:H5;
    by apply check_code_challenge_world in H5 as ->.
Qed.


(** *** The allow-list *)

(** The scan of the allow-list, entry by entry. *)
Lemma match_found_exists uri (allowed_redirect_urls : list RedirectURI) :
  match_found uri allowed_redirect_urls = true
  ↔ ∃ allowed, allowed ∈ allowed_redirect_urls ∧ entry_matches uri allowed.
Proof.
  unfold entry_matches.
  induction allowed_redirect_urls as [| a l IH]; simpl.
  - split; [discriminate | intros (? & []%elem_of_nil & _)].
  - assert (Hhere :
      match matching_mode a with
      | STRICT => url a = uri
      | REGEX => fullmatch (url a) uri = Some true
      end →
      ∃ allowed, allowed ∈ a :: l
                 ∧ match matching_mode allowed with
                   | STRICT => url allowed = uri
                   | REGEX => fullmatch (url allowed) uri = Some true
                   end).
    { intros Ha. exists a. split; [apply list_elem_of_here | done]. }
    assert (Hlater :
      ¬ match matching_mode a with
        | STRICT => url a = uri
        | REGEX => fullmatch (url a) uri = Some true
        end →
      match_found uri l = true
      ↔ ∃ allowed, allowed ∈ a :: l
                   ∧ match matching_mode allowed with
                     | STRICT => url allowed = uri
                     | REGEX => fullmatch (url allowed) uri = Some true
                     end).
    { intros Ha. rewrite IH. split; intros (x & Hin & Hx); exists x.
      - split; [by apply list_elem_of_further | done].
      - apply elem_of_cons in Hin as [-> | Hin]; done. }
    destruct (matching_mode a).
    + destruct (String.eqb_spec uri (url a)) as [-> | Hne].
      * split; [intros _; by apply Hhere | done].
      * apply Hlater. congruence.
    + destruct (fullmatch (url a) uri) as [[] |].
      * split; [intros _; by apply Hhere | done].
      * apply Hlater. congruence.
      * apply Hlater. congruence.
Qed.

(** X1.  The scan of the allow-list finds a match exactly when some entry
    matches the URI: a strict entry by equality, a regex entry by a full
    match.  An entry whose pattern does not compile matches nothing and
    does not end the scan. *)
Theorem match_found_iff uri (allowed_redirect_urls : list RedirectURI) :
  match_found uri allowed_redirect_urls = true
  ↔ ∃ allowed, allowed ∈ allowed_redirect_urls ∧ entry_matches uri allowed.
Proof. apply match_found_exists. Qed.

Lemma lookup_after_save cid w prov prov' :
  provider_by_client_id cid w = (Ok (Some prov), w) →
  provider_client_id prov' = cid →
  pk prov' = pk prov →
  provider_by_client_id cid (save_provider prov' w).2
  = (Ok (Some prov'), (save_provider prov' w).2).
Proof.
  unfold provider_by_client_id, save_provider. unfold_M. simpl.
  intros [= Hfind] Hcid Hpk. f_equal. f_equal.
  assert (Hex : existsb (λ q, pk q =? pk prov') (providers w) = true).
  { apply existsb_exists. exists prov. split.
    - by apply find_some in Hfind as [? _].
    - rewrite Hpk. apply Z.eqb_refl. }
  rewrite Hex. clear Hex.
  induction (providers w) as [| q l IH]; simpl in *; [done |].
  destruct (String.eqb_spec (provider_client_id q) cid) as [Hq | Hq].
  - injection Hfind as ->. rewrite Hpk, Z.eqb_refl. simpl.
    by rewrite Hcid, String.eqb_refl.
  - destruct (pk q =? pk prov'); simpl.
    + by rewrite Hcid, String.eqb_refl.
    + destruct (String.eqb_spec (provider_client_id q) cid); [done |].
      by apply IH.
Qed.

Lemma lookup_client_id cid w prov :
  provider_by_client_id cid w = (Ok (Some prov), w) →
  provider_client_id prov = cid.
Proof.
  unfold provider_by_client_id. unfold_M.
  intros [= Hfind]. apply find_some in Hfind as [_ Heq].
  by apply String.eqb_eq in Heq.
Qed.

Lemma provisioned_same_row uri prov :
  provider_client_id (provisioned uri prov) = provider_client_id prov
  ∧ pk (provisioned uri prov) = pk prov.
Proof. unfold provisioned. by destruct (_ <? _)%nat. Qed.

(** X2.  A request that passes validation has a non-empty redirect URI
    that matches an entry of the allow-list of the provider recorded in the
    params and whose scheme is not a forbidden one; that provider is the
    row the database now holds for the client. *)
Theorem validated_redirect_uri gc self w self' w' :
  post_init gc self w = (Ok self', w') →
  redirect_uri self' = redirect_uri self
  ∧ redirect_uri self ≠ ""
  ∧ ∃ prov parsed,
      provider self' = Some prov
      ∧ provider_by_client_id (client_id self) w' = (Ok (Some prov), w')
      ∧ (∃ allowed, allowed ∈ redirect_uris prov
                    ∧ entry_matches (redirect_uri self) allowed)
      ∧ urlparse (redirect_uri self) = Some parsed
      ∧ scheme parsed ∉ FORBIDDEN_URI_SCHEMES.
Proof.
  intros (prov & s1 & s2 & Hprov & H1 & H2 & H3 & _)%post_init_ok.
  rewrite (check_redirect_uri_eq _ w prov) in H1 by done.
  cbv zeta in H1. simpl in H1.
  destruct (truthy (redirect_uri self)) eqn:Huri; simpl in H1; [| done].
  destruct (match_found _ _) eqn:Hmatch; simpl in H1; [| done].
  destruct (urlparse (redirect_uri self)) as [parsed |]; [| done].
  case_bool_decide as Hscheme; [done |].
  injection H1 as <- Hw.
  apply check_grant_ok in H2 as (_ & g & m & -> & _).
  apply check_scope_ok in H3 as (_ & -> & _). simpl.
  split; [done |]. split; [by apply truthy_true |].
  exists (provisioned (redirect_uri self) prov), parsed.
  split; [done |]. split; [| split; [by apply match_found_exists | done]].
  destruct (length (redirect_uris prov) <? 1)%nat eqn:Hlen.
  - subst w'. destruct (provisioned_same_row (redirect_uri self) prov).
    apply (lookup_after_save _ _ prov); [done | | done].
    by rewrite <- (lookup_client_id _ _ _ Hprov).
  - subst w'. unfold provisioned. by rewrite Hlen.
Qed.

(** The world after validating a request sent to a provider whose
    allow-list is empty. *)
Lemma post_init_provisions gc self w prov :
  provider_by_client_id (client_id self) w = (Ok (Some prov), w) →
  redirect_uris prov = [] →
  redirect_uri self ≠ "" →
  let prov' :=
    with_redirect_uris
      [{| matching_mode := STRICT; url := redirect_uri self |}] prov in
  let w' := (post_init gc self w).2 in
  provider_by_client_id (client_id self) w' = (Ok (Some prov'), w').
Proof.
  intros Hprov Hempty Huri prov' w'. subst w'.
  rewrite (post_init_world _ _ _ _ Hprov).
  apply truthy_true in Huri. rewrite Huri, Hempty. simpl.
  pose proof (lookup_client_id _ _ _ Hprov) as Hcid.
  replace (provisioned (redirect_uri self) prov) with prov'
    by (unfold provisioned; by rewrite Hempty).
  by apply (lookup_after_save _ _ prov).
Qed.

(** X3.  A request with a non-empty redirect URI sent to a provider whose
    allow-list is empty leaves that URI as the provider's one strict entry
    in the database, whether the request is then accepted or refused (for a
    forbidden scheme, an unknown response type, a missing nonce, ...). *)
Theorem auto_provisioning_persists gc self w prov :
  provider_by_client_id (client_id self) w = (Ok (Some prov), w) →
  redirect_uris prov = [] →
  redirect_uri self ≠ "" →
  let w' := (post_init gc self w).2 in
  provider_by_client_id (client_id self) w'
  = (Ok (Some (with_redirect_uris
                 [{| matching_mode := STRICT; url := redirect_uri self |}]
                 prov)), w').
Proof. apply post_init_provisions. Qed.

(** X4.  Auto-provisioning happens once: after the first request to a
    provider with an empty allow-list, a request of the same client with
    another redirect URI is refused with [redirect_uri_no_match]. *)
Theorem auto_provisioning_locks gc self w prov gc2 self2 :
  provider_by_client_id (client_id self) w = (Ok (Some prov), w) →
  redirect_uris prov = [] →
  redirect_uri self ≠ "" →
  client_id self2 = client_id self →
  redirect_uri self2 ≠ "" →
  redirect_uri self2 ≠ redirect_uri self →
  (post_init gc2 self2 (post_init gc self w).2).1
  = Raise (OAuth (RedirectUriError (redirect_uri self2)
                    [{| matching_mode := STRICT; url := redirect_uri self |}]
                    (Some "redirect_uri_no_match"))).
Proof.
  intros Hprov Hempty Huri Hcid Huri2 Hne.
  pose proof (post_init_provisions gc self w prov Hprov Hempty Huri) as Hw.
  cbv zeta in Hw. rewrite <- Hcid in Hw.
  set (w' := (post_init gc self w).2) in *.
  unfold post_init. unfold_M. rewrite Hw. simpl.
  rewrite (check_redirect_uri_eq _ w'
             (with_redirect_uris
                [{| matching_mode := STRICT; url := redirect_uri self |}]
                prov)) by done.
  cbv zeta. simpl.
  apply truthy_true in Huri2. rewrite Huri2. simpl.
  unfold provisioned. simpl.
  destruct (String.eqb_spec (redirect_uri self2) (redirect_uri self));
    [done |]. reflexivity.
Qed.

(** X5.  Validation only reads the database when the provider has an
    allow-list: whatever the outcome, the world is left as it was. *)
Theorem validation_reads_only gc self w prov :
  provider_by_client_id (client_id self) w = (Ok (Some prov), w) →
  redirect_uris prov ≠ [] →
  (post_init gc self w).2 = w.
Proof.
  intros Hprov Hlist. rewrite (post_init_world _ _ _ _ Hprov).
  destruct (redirect_uris prov); [done |]. simpl. by rewrite andb_false_r.
Qed.


(** *** What a validated request looks like *)

(** The request between the validations: the redirect URI check may only
    change [provider], [check_grant] sets [grant_type] and [response_mode],
    [check_scope] sets [scope]. *)
Lemma post_init_shape gc self w self' w' :
  grant_type self = "" →
  post_init gc self w = (Ok self', w') →
  ∃ g,
    grant_of_response_type (response_type self) = Some g
    ∧ self' =
        set_scope (scope self')
          (set_response_mode
             (effective_response_mode (response_mode self) g)
             (set_grant_type g (set_provider (provider self') self)))
    ∧ check_scope gc
        (set_response_mode (effective_response_mode (response_mode self) g)
           (set_grant_type g (set_provider (provider self') self))) w'
      = (Ok self', w').
Proof.
  intros Hgt (prov & s1 & s2 & _ & H1 & H2 & H3 & _)%post_init_ok.
  apply check_redirect_uri_ok in H1 as [pv ->].
  destruct (grant_of_response_type (response_type self)) as [g |] eqn:Hg.
  - rewrite (check_grant_known _ _ g) in H2 by done.
    injection H2 as <-. exists g. split; [done |].
    apply check_scope_ok in H3 as H3'. destruct H3' as (_ & Hs & _).
    assert (Hpv : provider self' = pv) by (by rewrite Hs).
    rewrite Hpv. simpl in *. by split.
  - by rewrite check_grant_unknown in H2.
Qed.

Lemma resolved_within (gc : bool) (requested configured github : gset string) :
  (if bool_decide ((if gc then requested ∖ github else requested) ⊆ configured)
   then requested else requested ∩ configured)
  ⊆ configured ∪ (if gc then github else ∅).
Proof.
  intros x Hx. apply elem_of_union.
  case_bool_decide as Hsub.
  - destruct gc; [| left; by apply Hsub].
    destruct (decide (x ∈ github)); [by right | left].
    apply Hsub. by apply elem_of_difference.
  - left. by apply elem_of_intersection in Hx as [_ ?].
Qed.

(** X6.  The scope of a validated request lies within the scopes
    configured for the provider, to which the GitHub pseudo-scopes are
    added on the GitHub-compatible route; a request that names no scope
    gets all configured scopes (less [offline_access] when no code is
    produced). *)
Theorem validated_scope_configured gc self w self' w' :
  grant_type self = "" →
  post_init gc self w = (Ok self', w') →
  let configured := default_scope_names_of (provider self') w' in
  scope self' ⊆ configured ∪ (if gc then SCOPE_GITHUB else ∅)
  ∧ (scope self = ∅ →
     scope self' =
       if bool_decide (response_type self ∈
                         [ResponseTypes.CODE; ResponseTypes.CODE_TOKEN;
                          ResponseTypes.CODE_ID_TOKEN;
                          ResponseTypes.CODE_ID_TOKEN_TOKEN])
       then configured else configured ∖ {[SCOPE_OFFLINE_ACCESS]}).
Proof.
  intros Hgt Hpost configured.
  destruct (post_init_shape _ _ _ _ _ Hgt Hpost) as (g & _ & _ & Hscope).
  rewrite check_scope_eq in Hscope. cbv zeta in Hscope.
  unfold resolved_scope in Hscope. simpl in Hscope. fold configured in Hscope.
  destruct (bool_decide (SCOPE_OPENID ∉ _) && _); [done |].
  split.
  - pose proof (resolved_within gc
                  (if (size (scope self) =? 0)%nat then configured
                   else scope self) configured SCOPE_GITHUB) as Hres.
    destruct gc;
      destruct (bool_decide (response_type self ∈ _));
      injection Hscope as <-; simpl;
      first [ exact Hres
            | intros x [Hx _]%elem_of_difference; by apply Hres ].
  - intros Hempty. rewrite Hempty in Hscope.
    rewrite size_empty in Hscope. simpl in Hscope.
    rewrite (bool_decide_eq_true_2 (_ ⊆ configured)) in Hscope
      by (destruct gc; [by apply subseteq_difference_l | done]).
    by destruct (bool_decide (response_type self ∈ _));
      injection Hscope as <-.
Qed.

(** X7.  A validated implicit or hybrid request has [openid] in its scope,
    and a validated request whose response type contains [id_token] has a
    non-empty nonce. *)
Theorem validated_openid_and_nonce gc self w self' w' :
  grant_type self = "" →
  post_init gc self w = (Ok self', w') →
  (grant_type self' ≠ GrantTypes.AUTHORIZATION_CODE → SCOPE_OPENID ∈ scope self')
  ∧ (response_type_contains "id_token" (response_type self') = true →
     truthy_opt (nonce self') = true).
Proof.
  intros Hgt Hpost.
  destruct (post_init_shape _ _ _ _ _ Hgt Hpost) as (g & Hg & Hself & Hscope).
  assert (Hgrant : grant_type self' = g) by (by rewrite Hself).
  assert (Hrt : response_type self' = response_type self) by (by rewrite Hself).
  assert (Hopenid : grant_type self' ≠ GrantTypes.AUTHORIZATION_CODE →
                    SCOPE_OPENID ∈ scope self').
  { intros Hnot. rewrite check_scope_eq in Hscope. cbv zeta in Hscope.
    simpl in Hscope.
    set (resolved := resolved_scope gc _ w') in Hscope.
    assert (Hneeded :
      String.eqb g GrantTypes.HYBRID
      || bool_decide (response_type self ∈
                        [ResponseTypes.ID_TOKEN; ResponseTypes.ID_TOKEN_TOKEN])
      = true).
    { apply grant_of_response_type_cases in Hg.
      by destruct Hg as [[_ ->]|[[[-> | ->] ->]|[_ ->]]]. }
    rewrite Hneeded, andb_true_r in Hscope.
    destruct (bool_decide (SCOPE_OPENID ∉ resolved)) eqn:Hin; [done |].
    apply bool_decide_eq_false, dec_stable in Hin.
    destruct (bool_decide (response_type self ∈ _));
      injection Hscope as <-; simpl; [done |].
    apply elem_of_difference. split; [done |].
    by intros ?%elem_of_singleton. }
  split; [done |].
  intros Hcontains.
  apply post_init_ok in Hpost as (_ & _ & _ & _ & _ & _ & _ & _ & Hnonce & _).
  rewrite (check_nonce_eq _ _ g) in Hnonce by (by rewrite Hrt).
  rewrite Hcontains in Hnonce.
  destruct (truthy_opt (nonce self')); [done |].
  rewrite bool_decide_eq_true_2 in Hnonce; [done |].
  apply Hopenid. rewrite Hgrant.
  rewrite Hrt in Hcontains. apply grant_of_response_type_cases in Hg.
  destruct Hg as [[Hcode _]|[[_ ->]|[_ ->]]]; [| done..].
  by rewrite Hcode in Hcontains.
Qed.

(** X8.  After validation the response mode is always one of [query],
    [fragment] and [form_post]: the one the caller sent if it is one of
    them, otherwise [query] for the authorization-code grant and
    [fragment] for the implicit and hybrid grants. *)
Theorem validated_response_mode gc self w self' w' :
  grant_type self = "" →
  post_init gc self w = (Ok self', w') →
  response_mode self' ∈ Some <$> ResponseMode.values
  ∧ response_mode self' =
      if bool_decide (response_mode self ∈ Some <$> ResponseMode.values)
      then response_mode self
      else if bool_decide (grant_type self' = GrantTypes.AUTHORIZATION_CODE)
           then Some ResponseMode.QUERY
           else Some ResponseMode.FRAGMENT.
Proof.
  intros Hgt Hpost.
  destruct (post_init_shape _ _ _ _ _ Hgt Hpost) as (g & Hg & Hself & _).
  assert (Hmode : response_mode self'
                  = effective_response_mode (response_mode self) g)
    by (by rewrite Hself).
  assert (Hgrant : grant_type self' = g) by (by rewrite Hself).
  rewrite Hmode, Hgrant. unfold effective_response_mode.
  destruct (bool_decide (response_mode self ∈ Some <$> ResponseMode.values))
    eqn:Hin.
  - by apply bool_decide_eq_true in Hin.
  - apply grant_of_response_type_cases in Hg.
    destruct Hg as [[_ ->]|[[_ ->]|[_ ->]]];
      (split; [apply (bool_decide_unpack _); by vm_compute | by vm_compute]).
Qed.

(** X9.  A validated request that carries a PKCE challenge names one of the
    methods [plain] and [S256]. *)
Theorem validated_pkce_method gc self w self' w' :
  grant_type self = "" →
  post_init gc self w = (Ok self', w') →
  code_challenge self' = code_challenge self
  ∧ code_challenge_method self' = code_challenge_method self
  ∧ (truthy_opt (code_challenge self) = true →
     code_challenge_method self ∈ [Some PKCE_METHOD_PLAIN; Some PKCE_METHOD_S256]).
Proof.
  intros Hgt Hpost.
  destruct (post_init_shape _ _ _ _ _ Hgt Hpost) as (g & _ & Hself & _).
  assert (H1 : code_challenge self' = code_challenge self) by (by rewrite Hself).
  assert (H2 : code_challenge_method self' = code_challenge_method self)
    by (by rewrite Hself).
  split; [done |]. split; [done |]. intros Hset.
  apply post_init_ok in Hpost as (_ & _ & _ & _ & _ & _ & _ & _ & _ & Hcc).
  revert Hcc. unfold check_code_challenge. unfold_M.
  rewrite H1, H2, Hset. simpl.
  by case_bool_decide.
Qed.


(** *** [pre_permission_check] *)

(** X10.  A validation error never leaves [pre_permission_check] as it is:
    an [AuthorizeError] becomes an OAuth error response, a
    [RedirectUriError] or [ClientIdError] a bad-request page. *)
Theorem validation_errors_become_responses req gc w error w' :
  GET req ≠ [] →
  from_request req gc w = (Raise (OAuth error), w') →
  pre_permission_check req gc w
  = (Raise (RequestValidationError (validation_error_response error)), w').
Proof.
  intros Hget Hfrom. unfold pre_permission_check.
  destruct (GET req); [done |]. simpl.
  rewrite bind_run. unfold try_except. rewrite Hfrom.
  by destruct error.
Qed.

(** X11.  A request without query-string parameters is answered 404 before
    anything is parsed, also when it is a POST that carries its parameters
    in the body. *)
Theorem no_query_string_is_not_found req gc w :
  GET req = [] →
  pre_permission_check req gc w = (Raise Http404, w).
Proof. intros Hget. unfold pre_permission_check. by rewrite Hget. Qed.

(** X12.  A valid request with [prompt=none] from a user who is not signed
    in is answered with the OAuth error [login_required]. *)
Theorem prompt_none_needs_a_login req gc w params w' :
  GET req ≠ [] →
  from_request req gc w = (Ok params, w') →
  PROMPT_NONE ∈ prompt params →
  is_authenticated req = false →
  pre_permission_check req gc w
  = (Raise (RequestValidationError
              (AuthorizeErrorResponse
                 (AuthorizeError (redirect_uri params) "login_required"
                    (grant_type params) (state params) None None))), w').
Proof.
  intros Hget Hfrom Hnone Hauth. unfold pre_permission_check.
  destruct (GET req); [done |]. simpl.
  rewrite bind_run. unfold try_except. rewrite Hfrom, Hauth.
  by rewrite bool_decide_eq_true_2.
Qed.

(** *** What the fulfillment stage stores *)

(** What [create_implicit_response] does to the world: it appends one
    access token, or raises before it gets there. *)
Lemma create_implicit_response_world req params prov c w :
  let w' := (create_implicit_response req params prov c w).2 in
  w' = w ∨ ∃ t, w' = with_tokens (tokens w ++ [t]) w.
Proof.
  unfold create_implicit_response. rewrite bind_run.
  rewrite authenticated_session_run.
  destruct (session req !! _) as [sess |]; [| by left].
  rewrite bind_run.
  destruct (bool_decide (response_type params ∈ [_; _])).
  - unfold code_attr. destruct c as [c |]; [| by left].
    rewrite bind_run. unfold mret, M_ret.
    destruct (bool_decide (response_type params ∈ [_; _; _]));
      destruct (bool_decide (response_type params ∈ [_; _; _; _]));
      cbv zeta beta iota; rewrite bind_run; unfold save_token, modify;
      (destruct (String.eqb (grant_type params) GrantTypes.HYBRID);
       unfold_M; simpl; right; by eexists).
  - unfold mret at 1, M_ret at 1.
    destruct (bool_decide (response_type params ∈ [_; _; _]));
      destruct (bool_decide (response_type params ∈ [_; _; _; _]));
      cbv zeta beta iota; rewrite bind_run; unfold save_token, modify;
      (destruct (String.eqb (grant_type params) GrantTypes.HYBRID);
       [destruct c as [c |] |]; unfold_M; simpl; right; by eexists).
Qed.


Lemma code_and_state_world params c d w :
  (code_and_state params c d w).2 = w.
Proof. unfold code_and_state, code_attr. unfold_M. by destruct c. Qed.

Lemma create_code_code req params w c w' :
  create_code req params w = (Ok c, w') → code c = uuid4_hex req.
Proof.
  unfold create_code.
  destruct (provider params); [| done].
  rewrite bind_run, authenticated_session_run.
  destruct (session req !! _); [| done].
  destruct (_ && _); by intros [= <- _].
Qed.

Lemma bind_mret_world {A B} (m : M A) (k : A → B) w :
  ((m ≫= λ a, mret (k a)) w).2 = (m w).2.
Proof. rewrite bind_run. by destruct (m w) as [[a | e] w1]. Qed.

Lemma try_except_raise_world {A} (body : M A) h w :
  (∀ e k, h e = Some k → ∃ e', k = raise e') →
  (try_except body h w).2 = (body w).2.
Proof.
  intros Hh. unfold try_except.
  destruct (body w) as [[a | e] w1]; [done |].
  destruct (h e) as [k |] eqn:Hk; [| done].
  by destruct (Hh _ _ Hk) as [e' ->].
Qed.

(** The world after [create_response_uri], in two steps: the code that may
    have been saved, then the access token that may have been saved. *)
Lemma create_response_uri_world req params prov w :
  ∃ wc,
    (wc = w
     ∨ grant_type params ∈ [GrantTypes.AUTHORIZATION_CODE; GrantTypes.HYBRID]
       ∧ ∃ c, code c = uuid4_hex req ∧ wc = with_codes (codes w ++ [c]) w)
    ∧ ((create_response_uri req params prov w).2 = wc
       ∨ (grant_type params ∉ [GrantTypes.AUTHORIZATION_CODE])
         ∧ response_mode params ≠ Some ResponseMode.QUERY
         ∧ ∃ t, (create_response_uri req params prov w).2
                = with_tokens (tokens wc ++ [t]) wc).
Proof.
  unfold create_response_uri.
  destruct (urlsplit (redirect_uri params)) as [uri |];
    [| exists w; split; by left].
  rewrite try_except_raise_world
    by (intros [] k; try done; intros [= <-]; by eexists).
  rewrite bind_run.
  match goal with
  | |- context [match ?first w with _ => _ end] =>
      assert (Hfirst :
        (∃ e, first w = (Raise e, w))
        ∨ first w = (Ok None, w)
        ∨ grant_type params ∈ [GrantTypes.AUTHORIZATION_CODE; GrantTypes.HYBRID]
          ∧ ∃ c, code c = uuid4_hex req
                 ∧ first w = (Ok (Some c), with_codes (codes w ++ [c]) w))
  end.
  { destruct (bool_decide (grant_type params ∈ [_; _])) eqn:Hgrant;
      [| right; by left].
    apply bool_decide_eq_true in Hgrant. rewrite bind_run.
    destruct (create_code_run req params w) as (r & Hr & _). rewrite Hr.
    destruct r as [c |]; [| left; by eexists].
    right; right. split; [done |]. exists c.
    split; [by eapply create_code_code |]. reflexivity. }
  destruct Hfirst as [[e ->] | [-> | (Hgrant & c & Hc & ->)]].
  - exists w. split; by left.
  - exists w. split; [by left |].
    destruct (bool_decide (response_mode params = Some ResponseMode.QUERY))
      eqn:Hq.
    { left. by rewrite bind_mret_world, code_and_state_world. }
    apply bool_decide_eq_false in Hq.
    destruct (bool_decide (response_mode params = Some ResponseMode.FRAGMENT));
      [| destruct (bool_decide (response_mode params
                                = Some ResponseMode.FORM_POST)); [| by left]];
      rewrite bind_mret_world;
      (destruct (bool_decide (grant_type params ∈ [_])) eqn:Hg;
       [ left; by rewrite code_and_state_world
       | apply bool_decide_eq_false in Hg;
         destruct (create_implicit_response_world req params prov None w)
           as [-> | (t & ->)]; [by left | right; eauto] ]).
  - exists (with_codes (codes w ++ [c]) w). split; [right; eauto |].
    set (wc := with_codes (codes w ++ [c]) w).
    destruct (bool_decide (response_mode params = Some ResponseMode.QUERY))
      eqn:Hq.
    { left. by rewrite bind_mret_world, code_and_state_world. }
    apply bool_decide_eq_false in Hq.
    destruct (bool_decide (response_mode params = Some ResponseMode.FRAGMENT));
      [| destruct (bool_decide (response_mode params
                                = Some ResponseMode.FORM_POST)); [| by left]];
      rewrite bind_mret_world;
      (destruct (bool_decide (grant_type params ∈ [_])) eqn:Hg;
       [ left; by rewrite code_and_state_world
       | apply bool_decide_eq_false in Hg;
         destruct (create_implicit_response_world req params prov (Some c) wc)
           as [-> | (t & ->)]; [by left | right; eauto] ]).
Qed.

(** X13.  [create_response_uri] stores at most one authorization code, and
    only for the authorization-code and hybrid grants; it stores at most
    one access token, never for the authorization-code grant and never in
    query mode; nothing else in the world changes.  This holds whether it
    returns or raises. *)
Theorem what_the_builder_stores req params prov w :
  let w' := (create_response_uri req params prov w).2 in
  (codes w' = codes w
   ∨ grant_type params ∈ [GrantTypes.AUTHORIZATION_CODE; GrantTypes.HYBRID]
     ∧ ∃ c, code c = uuid4_hex req ∧ codes w' = (codes w ++ [c])%list)
  ∧ (tokens w' = tokens w
     ∨ (grant_type params ∉ [GrantTypes.AUTHORIZATION_CODE])
       ∧ response_mode params ≠ Some ResponseMode.QUERY
       ∧ ∃ t, tokens w' = (tokens w ++ [t])%list)
  ∧ providers w' = providers w
  ∧ events w' = events w
  ∧ plan_context w' = plan_context w
  ∧ executor w' = executor w.
Proof.
  intros w'. subst w'.
  destruct (create_response_uri_world req params prov w)
    as (wc & [-> | (Hg & c & Hc & ->)] & [-> | (Hg' & Hm & t & ->)]);
    simpl; repeat match goal with |- _ ∧ _ => split end;
    first [ reflexivity | by left | right; eauto 6 ].
Qed.


(** *** What the fulfillment stage tells the executor *)

Lemma redirect_run params application uri w :
  redirect params application uri w =
    match urlparse uri with
    | None => (Raise ValueError, w)
    | Some parsed =>
        (Ok (if bool_decide (response_mode params = Some ResponseMode.FORM_POST)
             then
               HttpChallengeResponse
                 match plan_context w !! PLAN_CONTEXT_TITLE with
                 | Some (CtxText t) => t
                 | _ => "Redirecting to " ++ name application ++ "..."
                 end
                 (redirect_uri params)
                 ((λ kv : string * list string, (kv.1, default "" (head kv.2)))
                    <$> parse_qs (query parsed))
             else HttpResponseRedirectScheme uri [scheme parsed]),
         with_executor (executor w ++ [stage_ok]) w)
    end.
Proof.
  unfold redirect. destruct (urlparse uri) as [parsed |]; [| done].
  by destruct (bool_decide _).
Qed.

Lemma create_response_uri_frame req params prov w :
  executor (create_response_uri req params prov w).2 = executor w
  ∧ events (create_response_uri req params prov w).2 = events w
  ∧ plan_context (create_response_uri req params prov w).2 = plan_context w.
Proof.
  destruct (create_response_uri_world req params prov w)
    as (wc & [-> | (_ & c & _ & ->)] & [-> | (_ & _ & t & ->)]); done.
Qed.

(** X14.  Every run of the fulfillment stage that answers tells the
    executor exactly once how the stage went: [stage_ok] with a redirect or
    an auto-submit form, [stage_invalid] with an error response, which is
    also logged as the last event.  A run that answers 400 or ends in an
    exception tells the executor nothing. *)
Theorem the_executor_is_told_once req w :
  match get req w with
  | (Ok HttpResponseBadRequest, w') => w' = w
  | (Ok (HttpResponseRedirectScheme _ _), w')
  | (Ok (HttpChallengeResponse _ _ _), w') =>
      executor w' = (executor w ++ [stage_ok])%list
  | (Ok (AuthorizeErrorResponse error), w')
  | (Ok (BadRequestMessage error), w') =>
      executor w' = (executor w ++ [stage_invalid])%list
      ∧ ∃ application, last (events w') = Some (ErrorEvent error application)
  | (Raise _, w') => executor w' = executor w
  end.
Proof.
  unfold get. rewrite bind_run. unfold gets at 1. cbv beta iota.
  destruct (bool_decide (PLAN_CONTEXT_PARAMS ∈ dom (plan_context w)));
    cbv beta iota delta [negb]; [| done].
  rewrite bind_run, context_pop_run.
  destruct (plan_context w !! PLAN_CONTEXT_PARAMS) as [v |]; [| done].
  set (w1 := with_plan_context _ w).
  rewrite bind_run, context_pop_run.
  destruct (plan_context w1 !! PLAN_CONTEXT_APPLICATION) as [a |]; [| done].
  set (w2 := with_plan_context _ w1).
  destruct v as [params | | |]; try done.
  destruct a as [| application | |]; try done.
  rewrite bind_run, get_object_or_404_run.
  destruct (find _ (providers w2)) as [prov |]; [| done].
  unfold try_except.
  assert (Hhandled : ∀ error wb,
    executor wb = executor w →
    let w' :=
      with_executor (executor wb ++ [stage_invalid])
        (with_events (events wb ++ [ErrorEvent error application]) wb) in
    executor w' = (executor w ++ [stage_invalid])%list
    ∧ ∃ application, last (events w') = Some (ErrorEvent error application)).
  { intros error wb Hwb w'. subst w'. simpl. rewrite Hwb. split; [done |].
    exists application. apply last_snoc. }
  destruct (bool_decide ({[PROMPT_NONE; PROMPT_CONSENT]} ⊆ prompt params)).
  { by apply (Hhandled _ w2). }
  rewrite bind_run. unfold gets at 1. cbv beta iota.
  rewrite bind_run. unfold log_event at 1, modify at 1. cbv beta iota.
  set (w3 := with_events _ w2).
  rewrite bind_run.
  destruct (create_response_uri_frame req params prov w3) as (Hex & _ & _).
  destruct (create_response_uri req params prov w3) as [[uri | e] w4];
    simpl in Hex.
  - rewrite redirect_run.
    destruct (urlparse uri) as [parsed |]; [| by rewrite Hex].
    destruct (bool_decide (response_mode params = Some ResponseMode.FORM_POST));
      simpl; by rewrite Hex.
  - destruct e as [[] | | | | |]; try (by rewrite Hex);
      by apply (Hhandled _ w4).
Qed.

End Coverage.

Section InitViewProperties.
Context {flows : FlowEnvironment}.
Implicit Types (params : OAuthAuthorizationParams) (req : HttpRequest).

(** *** [AuthorizationFlowInitView.get] *)

Lemma last_append_stage s plan : last (bindings (append_stage s plan)) = Some s.
Proof. simpl. apply last_snoc. Qed.

(** X15.  Whenever the view starts the flow, the plan it hands on ends with
    the fulfillment stage and, if the request asked for [prompt=consent],
    holds a consent stage before it; the session is left as it was, and
    the fulfillment stage may run silently exactly in the response modes
    [query] and [fragment]. *)
Theorem started_plan_ends_with_fulfillment req params prov application
    plan silent s' :
  init_get req params prov application = (to_redirect plan silent, s') →
  last (bindings plan) = Some fulfillment_stage
  ∧ (PROMPT_CONSENT ∈ prompt params →
     ∃ before, bindings plan = (before ++ [fulfillment_stage])%list
               ∧ existsb is_consent_stage before = true)
  ∧ silent = (if bool_decide (response_mode params = Some ResponseMode.QUERY
                              ∨ response_mode params = Some ResponseMode.FRAGMENT)
              then [fulfillment_stage] else [])
  ∧ s' = session req.
Proof.
  unfold init_get. destruct (login_event req) as [ev |]; [| done].
  destruct (match max_age params with Some _ => _ | None => _ end); [done |].
  destruct (_ && (_ || _)); [done |].
  destruct (planner_plan _ _ _) as [planned |]; [| done].
  intros [= <- <- <-]. split; [apply last_append_stage |].
  split; [| split; [| done]].
  - intros Hconsent. rewrite (bool_decide_eq_true_2 _ Hconsent). simpl.
    destruct (existsb is_consent_stage (bindings planned)) eqn:Hany; simpl.
    + by exists (bindings planned).
    + eexists. split; [done |]. rewrite existsb_app, Hany. done.
  - destruct (bool_decide (_ ∈ _)) eqn:Hin.
    + apply bool_decide_eq_true in Hin. rewrite bool_decide_eq_true_2; [done |].
      apply elem_of_cons in Hin as [-> | Hin]; [by left |].
      apply elem_of_cons in Hin as [-> | Hin]; [by right |].
      by apply elem_of_nil in Hin.
    + apply bool_decide_eq_false in Hin. rewrite bool_decide_eq_false_2; [done |].
      intros [H | H]; apply Hin; rewrite H.
      * apply list_elem_of_here.
      * apply list_elem_of_further, list_elem_of_here.
Qed.


(** X17.  A login event older than [max_age] seconds sends the user to
    sign in again and stores the uid of that event in the session,
    whatever the prompt; [max_age=0] is not a limit: without
    [prompt=login] the user is let through however old the login is. *)
Theorem max_age_forces_a_login req ev params prov application :
  login_event req = Some ev →
  (∀ limit, max_age params = Some limit → limit ≠ 0 →
            limit < now req - created ev →
            init_get req params prov application
            = (handle_no_permission,
               <[SESSION_KEY_LAST_LOGIN_UID := login_pk ev]> (session req)))
  ∧ (max_age params = Some 0 → PROMPT_LOGIN ∉ prompt params →
     (init_get req params prov application).1 ≠ handle_no_permission
     ∧ (init_get req params prov application).2 = session req).
Proof.
  intros Hev. split.
  - intros limit Hage Hnonzero Hold. unfold init_get. rewrite Hev, Hage.
    apply Z.eqb_neq in Hnonzero. apply Z.ltb_lt in Hold.
    by rewrite Hnonzero, Hold.
  - intros Hage Hprompt. unfold init_get. rewrite Hev, Hage. simpl.
    rewrite (bool_decide_eq_false_2 _ Hprompt). simpl.
    destruct (planner_plan _ _ _); done.
Qed.

End InitViewProperties.

(** ** Properties of [authentik.events.utils] *)

Section EventUtilsProperties.
Import EventUtils.
Context {env : Environment}.

(** Case analysis on a value, with the names the proofs below use. *)
Ltac destruct_value value :=
  destruct value as
    [ | | b | n | is_zero repr | s | items0 | l | l | l | l | asdict
    | asdict_error | name module | u | | app_label model_name value str name | hex |
    | city_to_dict | asn_to_dict | str | str | str | value | name module
    | isoformat | isoformat | is_aware isoformat | total_seconds
    | name module | str ].

(** Induction on a value, with the property at hand for the values it
    holds. *)
Lemma Value_children_ind (P : Value → Prop) :
  (∀ value, Forall P (children value) → P value) → ∀ value, P value.
Proof.
  intros H. fix IH 1. intros value. apply H.
  assert (Hlist : ∀ l : list Value, Forall P l).
  { fix go 1. intros [| x l]; constructor; [apply IH | apply go]. }
  assert (Hitems : ∀ l : items, Forall P (map snd l)).
  { fix go 1. intros [| [k x] l]; constructor; [apply IH | apply go]. }
  destruct_value value; simpl;
    try match goal with
        | |- Forall P (map snd ?l) => is_var l; apply Hitems
        | |- Forall P ?l => is_var l; apply Hlist
        end;
    repeat first [apply Forall_nil_2 | apply Forall_cons_2; [apply IH |]].
  destruct name; repeat first [apply Forall_nil_2 | apply Forall_cons_2; [apply IH |]].
Qed.

Section Loops.
Context (g : Key → Value → outcome Value).

Lemma collect_raises source acc e :
  collect (new_values_of g source) acc = Raises e →
  ∃ key value, (key, value) ∈ source ∧ g key value = Raises e.
Proof.
  revert acc. induction source as [| [k v] source IH]; intros acc; simpl.
  - discriminate.
  - destruct (g k v) as [nv | e'] eqn:Hg.
    + intros H. destruct (IH _ H) as (key & value & Hin & Hraise).
      exists key, value. split; [by apply list_elem_of_further | done].
    + intros [= ->]. exists k, v. split; [apply list_elem_of_here | done].
Qed.

Lemma collect_returns source acc d :
  collect (new_values_of g source) acc = Returns d →
  Forall (λ '(key, value), ∃ new_value, g key value = Returns new_value) source.
Proof.
  revert acc. induction source as [| [k v] source IH]; intros acc; simpl.
  - constructor.
  - destruct (g k v) as [nv | e'] eqn:Hg; [| discriminate].
    intros H. constructor; [by eexists | by eapply IH].
Qed.

Lemma collect_total source acc :
  Forall (λ '(key, value), ∃ new_value, g key value = Returns new_value) source →
  ∃ d, collect (new_values_of g source) acc = Returns d.
Proof.
  revert acc. induction source as [| [k v] source IH]; intros acc Hall; simpl.
  - by eexists.
  - apply Forall_cons in Hall as [[nv Hnv] Hall]. rewrite Hnv. by apply IH.
Qed.

End Loops.

Lemma replace_each_raises (f : Value → outcome Value) l e :
  replace_each (map f l) = Raises e → ∃ value, value ∈ l ∧ f value = Raises e.
Proof.
  induction l as [| v l IH]; simpl; [discriminate |].
  destruct (f v) as [nv | e'] eqn:Hf.
  - destruct (replace_each (map f l)); simpl; [discriminate |].
    intros [= ->]. destruct IH as (value & Hin & Hraise); [done |].
    exists value. split; [by apply list_elem_of_further | done].
  - intros [= ->]. exists v. split; [apply list_elem_of_here | done].
Qed.

Lemma replace_each_returns (f : Value → outcome Value) l l' :
  replace_each (map f l) = Returns l' → Forall2 (λ v nv, f v = Returns nv) l l'.
Proof.
  revert l'. induction l as [| v l IH]; intros l'; simpl.
  - intros [= <-]. constructor.
  - destruct (f v) as [nv | e'] eqn:Hf; [| discriminate].
    destruct (replace_each (map f l)) as [rest |]; simpl; [| discriminate].
    intros [= <-]. constructor; [done | by apply IH].
Qed.

Lemma Forall2_each_l {A B} (R : A → B → Prop) l l' a :
  Forall2 R l l' → a ∈ l → ∃ b, R a b.
Proof.
  induction 1 as [| x y l l' Hxy _ IH]; intros Hin.
  - by apply elem_of_nil in Hin.
  - apply elem_of_cons in Hin as [-> | Hin]; [by eexists | by apply IH].
Qed.

Lemma replace_each_total (f : Value → outcome Value) l :
  Forall (λ v, ∃ nv, f v = Returns nv) l →
  ∃ l', replace_each (map f l) = Returns l'.
Proof.
  induction 1 as [| v l [nv Hnv] _ [l' IH]]; simpl; [by eexists |].
  rewrite Hnv, IH. simpl. by eexists.
Qed.

Lemma keep_truthy_raises (f : Value → outcome Value) l e :
  keep_truthy (map f l) = Raises e → ∃ value, value ∈ l ∧ f value = Raises e.
Proof.
  induction l as [| v l IH]; simpl; [discriminate |].
  destruct (f v) as [nv | e'] eqn:Hf.
  - destruct (keep_truthy (map f l)); simpl; [discriminate |].
    intros [= ->]. destruct IH as (value & Hin & Hraise); [done |].
    exists value. split; [by apply list_elem_of_further | done].
  - intros [= ->]. exists v. split; [apply list_elem_of_here | done].
Qed.

Lemma keep_truthy_returns (f : Value → outcome Value) l kept :
  keep_truthy (map f l) = Returns kept →
  ∃ new_values,
    Forall2 (λ v nv, f v = Returns nv) l new_values
    ∧ kept = List.filter is_truthy new_values.
Proof.
  revert kept. induction l as [| v l IH]; intros kept; simpl.
  - intros [= <-]. exists []. split; [constructor | done].
  - destruct (f v) as [nv | e'] eqn:Hf; [| discriminate].
    destruct (keep_truthy (map f l)) as [rest |]; simpl; [| discriminate].
    intros [= <-]. destruct (IH _ eq_refl) as (news & Hall & ->).
    exists (nv :: news). split; [by constructor |].
    simpl. by destruct (is_truthy nv).
Qed.

Lemma keep_truthy_total (f : Value → outcome Value) l :
  Forall (λ v, ∃ nv, f v = Returns nv) l →
  ∃ kept, keep_truthy (map f l) = Returns kept.
Proof.
  induction 1 as [| v l [nv Hnv] _ [l' IH]]; simpl; [by eexists |].
  rewrite Hnv, IH. simpl. by eexists.
Qed.

(** *** The dict that is being built *)

Lemma item_set_fresh key value (d : items) :
  key ∉ map fst d → item_set key value d = (d ++ [(key, value)])%list.
Proof.
  induction d as [| [k v] d IH]; simpl; [done |].
  intros Hfresh. apply not_elem_of_cons in Hfresh as [Hne Hfresh].
  rewrite bool_decide_eq_false_2 by done. by rewrite IH.
Qed.

Lemma item_set_keys key value (d : items) :
  key ∈ map fst d → map fst (item_set key value d) = map fst d.
Proof.
  induction d as [| [k v] d IH]; simpl.
  - intros []%elem_of_nil.
  - intros Hin. destruct (bool_decide (key = k)) eqn:Hk.
    + apply bool_decide_eq_true in Hk as ->. done.
    + apply bool_decide_eq_false in Hk. simpl. f_equal. apply IH.
      apply elem_of_cons in Hin as [? | ?]; done.
Qed.

Lemma item_set_NoDup key value (d : items) :
  NoDup (map fst d) → NoDup (map fst (item_set key value d)).
Proof.
  intros Hd. destruct (decide (key ∈ map fst d)) as [Hin | Hfresh].
  - by rewrite item_set_keys.
  - rewrite item_set_fresh by done. rewrite map_app. simpl.
    apply NoDup_app. split; [done |]. split; [| apply NoDup_singleton].
    intros k Hk ->%list_elem_of_singleton. done.
Qed.

Lemma item_set_elem key value (d : items) entry :
  entry ∈ item_set key value d → entry = (key, value) ∨ entry ∈ d.
Proof.
  induction d as [| [k v] d IH]; simpl.
  - intros ->%list_elem_of_singleton. by left.
  - destruct (bool_decide (key = k)).
    + intros [-> | Hin]%elem_of_cons; [by left |].
      right. by apply list_elem_of_further.
    + intros [-> | Hin]%elem_of_cons; [right; apply list_elem_of_here |].
      destruct (IH Hin) as [-> | Hd]; [by left |].
      right. by apply list_elem_of_further.
Qed.

Lemma collect_NoDup new_values acc d :
  collect new_values acc = Returns d →
  NoDup (map fst acc) → NoDup (map fst d).
Proof.
  revert acc. induction new_values as [| [k [nv | e]] rest IH]; intros acc; simpl.
  - by intros [= <-].
  - intros Hrun Hacc. apply (IH _ Hrun).
    destruct (is_ellipsis nv); [done | by apply item_set_NoDup].
  - discriminate.
Qed.

Section MoreLoops.
Context (g : Key → Value → outcome Value).

(** Every entry of the dict that comes back was there before the loop, or
    is the new value of an entry of the source. *)
Lemma collect_entries source acc d :
  collect (new_values_of g source) acc = Returns d →
  ∀ key new_value, (key, new_value) ∈ d →
    (key, new_value) ∈ acc
    ∨ ∃ value, (key, value) ∈ source ∧ g key value = Returns new_value
               ∧ is_ellipsis new_value = false.
Proof.
  revert acc. induction source as [| [k v] source IH]; intros acc; simpl.
  - intros [= <-] key nv Hin. by left.
  - destruct (g k v) as [nv0 | e] eqn:Hg; [| discriminate].
    intros Hrun key nv Hin.
    destruct (IH _ Hrun key nv Hin) as [Hacc | (value & Hsrc & Hnv & Hnot)].
    + destruct (is_ellipsis nv0) eqn:Hell; [by left |].
      apply item_set_elem in Hacc as [[= -> ->] | Hacc]; [| by left].
      right. exists v. split; [apply list_elem_of_here | done].
    + right. exists value. split; [by apply list_elem_of_further | done].
Qed.

(** A dict whose entries are their own new values comes back as it is. *)
Lemma collect_fixed (d2 d1 : items) :
  NoDup (map fst (d1 ++ d2)) →
  Forall (λ '(key, value), g key value = Returns value
                           ∧ is_ellipsis value = false) d2 →
  collect (new_values_of g d2) d1 = Returns (d1 ++ d2)%list.
Proof.
  revert d1. induction d2 as [| [k v] d2 IH]; intros d1 Hnodup Hfixed; simpl.
  - by rewrite app_nil_r.
  - apply Forall_cons in Hfixed as [[Hg Hnot] Hfixed]. rewrite Hg, Hnot.
    rewrite item_set_fresh.
    + rewrite IH; [by rewrite <- app_assoc | by rewrite <- app_assoc | done].
    + rewrite map_app in Hnodup. apply NoDup_app in Hnodup as (_ & Hdisjoint & _).
      intros Hin. apply (Hdisjoint _ Hin). simpl. apply list_elem_of_here.
Qed.

End MoreLoops.

Lemma collect_news_entries new_values acc d :
  collect new_values acc = Returns d →
  ∀ key new_value, (key, new_value) ∈ d →
    (key, new_value) ∈ acc
    ∨ (key, Returns new_value) ∈ new_values ∧ is_ellipsis new_value = false.
Proof.
  revert acc.
  induction new_values as [| [k [nv0 | e]] rest IH]; intros acc; simpl.
  - intros [= <-] key nv Hin. by left.
  - intros Hrun key nv Hin.
    destruct (IH _ Hrun key nv Hin) as [Hacc | [Hnews Hnot]].
    + destruct (is_ellipsis nv0) eqn:Hell; [by left |].
      apply item_set_elem in Hacc as [[= -> ->] | Hacc]; [| by left].
      right. split; [apply list_elem_of_here | done].
    + right. split; [by apply list_elem_of_further | done].
  - discriminate.
Qed.

Lemma replace_each_fixed (f : Value → outcome Value) l :
  Forall (λ v, f v = Returns v) l → replace_each (map f l) = Returns l.
Proof.
  induction 1 as [| v l Hv _ IH]; simpl; [done |]. by rewrite Hv, IH.
Qed.

Lemma keep_truthy_fixed (f : Value → outcome Value) l :
  Forall (λ v, f v = Returns v ∧ is_truthy v = true) l →
  keep_truthy (map f l) = Returns l.
Proof.
  induction 1 as [| v l [Hv Htrue] _ IH]; simpl; [done |].
  by rewrite Hv, IH; simpl; rewrite Htrue.
Qed.

Lemma forallb_items (p : Value → bool) (d : items) :
  forallb (λ '(_, value), p value) d = true
  ↔ ∀ key value, (key, value) ∈ d → p value = true.
Proof.
  rewrite forallb_forall. split.
  - intros H key value Hin. apply list_elem_of_In in Hin. by apply (H (key, value)).
  - intros H [key value] Hin. apply list_elem_of_In in Hin. by eapply H.
Qed.

Lemma forallb_list (p : Value → bool) l :
  forallb p l = true ↔ ∀ value, value ∈ l → p value = true.
Proof.
  rewrite forallb_forall. split.
  - intros H value Hin. apply list_elem_of_In in Hin. by apply H.
  - intros H value Hin. apply list_elem_of_In in Hin. by apply H.
Qed.

Lemma Forall2_each_r {A B} (R : A → B → Prop) l l' b :
  Forall2 R l l' → b ∈ l' → ∃ a, a ∈ l ∧ R a b.
Proof.
  induction 1 as [| x y l l' Hxy _ IH]; intros Hin.
  - by apply elem_of_nil in Hin.
  - apply elem_of_cons in Hin as [-> | Hin].
    + exists x. split; [apply list_elem_of_here | done].
    + destruct (IH Hin) as (a & Ha & HR). exists a.
      split; [by apply list_elem_of_further | done].
Qed.

Lemma canonical_json_plain value : canonical value = true → json_plain value = true.
Proof.
  induction value as [value IH] using Value_children_ind.
  destruct_value value; simpl in *; try done.
  - intros [_ Hall]%andb_true_iff. rewrite forallb_items in Hall.
    apply forallb_items. intros key value Hin.
    rewrite Forall_forall in IH.
    apply (IH value (list_elem_of_fmap_2 snd _ _ Hin)). by eapply Hall.
  - intros Hall. rewrite forallb_list in Hall. apply forallb_list.
    intros value Hin. rewrite Forall_forall in IH. apply (IH _ Hin).
    by destruct (andb_prop _ _ (Hall _ Hin)).
Qed.

Lemma json_plain_assignable value : json_plain value = true → assignable value = true.
Proof.
  induction value as [value IH] using Value_children_ind.
  destruct_value value; simpl in *; try done.
  - intros Hall. rewrite forallb_items in Hall.
    apply forallb_items. intros key value Hin.
    rewrite Forall_forall in IH.
    apply (IH value (list_elem_of_fmap_2 snd _ _ Hin)). by eapply Hall.
  - intros Hall. rewrite forallb_list in Hall. apply forallb_list.
    intros value Hin. rewrite Forall_forall in IH. apply (IH _ Hin).
    by apply Hall.
Qed.

(** *** When the functions raise *)

Lemma forallb_items_false (p : Value → bool) (source : items) key value :
  (key, value) ∈ source → p value = false →
  forallb (λ '(_, value), p value) source = false.
Proof.
  intros Hin Hp. apply not_true_is_false. intros Hall.
  rewrite forallb_forall in Hall.
  apply list_elem_of_In, Hall in Hin. simpl in Hin. congruence.
Qed.

Lemma forallb_list_false (p : Value → bool) l value :
  value ∈ l → p value = false → forallb p l = false.
Proof.
  intros Hin Hp. apply not_true_is_false. intros Hall.
  rewrite forallb_forall in Hall.
  apply list_elem_of_In, Hall in Hin. congruence.
Qed.

(** When [cleanse_item] returns and when it raises. *)
Lemma cleanse_item_outcome key value :
  match cleanse_item key value with
  | Returns _ => assignable value = true
  | Raises e => e = TypeError ∧ assignable value = false
  end.
Proof.
  revert key. induction value as [value IH] using Value_children_ind.
  intros key.
  destruct_value value; simpl in *;
    try (destruct key;
         repeat match goal with |- context [if ?b then _ else _] => destruct b end;
         done).
  - (* dict *)
    fold (new_values_of cleanse_item items0).
    destruct (collect _ _) as [d | e] eqn:Hrun; simpl.
    + apply collect_returns in Hrun.
      apply forallb_forall. intros [k v] Hin.
      rewrite Forall_forall in Hrun. apply list_elem_of_In in Hin.
      destruct (Hrun _ Hin) as [nv Hnv].
      rewrite Forall_forall in IH.
      specialize (IH v (list_elem_of_fmap_2 snd _ _ Hin) k).
      by rewrite Hnv in IH.
    + apply collect_raises in Hrun as (k & v & Hin & Hraise).
      rewrite Forall_forall in IH.
      specialize (IH v (list_elem_of_fmap_2 snd _ _ Hin) k).
      rewrite Hraise in IH. destruct IH as [-> Hv].
      split; [done | by eapply forallb_items_false].
  - (* list *)
    destruct (replace_each _) as [l' | e] eqn:Hrun; simpl.
    + apply replace_each_returns in Hrun.
      apply forallb_forall. intros v Hin. apply list_elem_of_In in Hin.
      destruct (Forall2_each_l _ _ _ _ Hrun Hin) as [nv Hnv].
      rewrite Forall_forall in IH. specialize (IH v Hin key).
      by rewrite Hnv in IH.
    + apply replace_each_raises in Hrun as (v & Hin & Hraise).
      rewrite Forall_forall in IH. specialize (IH v Hin key).
      rewrite Hraise in IH. destruct IH as [-> Hv].
      split; [done | by eapply forallb_list_false].
  - (* tuple *)
    destruct l as [| item l]; [done |].
    apply Forall_cons in IH as [IH _]. specialize (IH key).
    destruct (cleanse_item key item); [done |]. by destruct IH as [-> _].
  - (* set *)
    destruct l as [| item l]; [done |].
    apply Forall_cons in IH as [IH _]. specialize (IH key).
    destruct (cleanse_item key item); [done |]. by destruct IH as [-> _].
Qed.

(** X18.  [cleanse_item] (and with it [cleanse_dict]) raises exactly when a
    tuple or a set that holds an item is reached through dicts and lists,
    and then it raises [TypeError]; empty tuples and sets pass. *)
Theorem cleanse_item_raises_on_tuples key value :
  match cleanse_item key value with
  | Returns _ => assignable value = true
  | Raises e => e = TypeError ∧ assignable value = false
  end.
Proof. apply cleanse_item_outcome. Qed.

(** X19.  [sanitize_item] raises exactly when it reaches, through dicts,
    dataclasses, lists, tuples, sets, generators and the [pk] and [name]
    of models, a dataclass class, a dataclass instance [asdict] fails on, a
    timezone-aware time or a callable without a [__name__]; what sits
    inside enum members and GeoIP records is not looked at. *)
Theorem sanitize_item_raises_iff value :
  match sanitize_item value with
  | Returns _ => representable value = true
  | Raises _ => representable value = false
  end.
Proof.
  induction value as [value IH] using Value_children_ind.
  assert (Hitems : ∀ source : items,
    Forall (λ value, match sanitize_item value with
                     | Returns _ => representable value = true
                     | Raises _ => representable value = false
                     end) (map snd source) →
    match collect (new_values_of (λ _, sanitize_item) source) [] with
    | Returns _ => forallb (λ '(_, value), representable value) source = true
    | Raises _ => forallb (λ '(_, value), representable value) source = false
    end).
  { intros source Hall. rewrite Forall_forall in Hall.
    destruct (collect _ _) as [d | e] eqn:Hrun.
    - apply collect_returns in Hrun. rewrite Forall_forall in Hrun.
      apply forallb_forall. intros [k v] Hin. apply list_elem_of_In in Hin.
      destruct (Hrun _ Hin) as [nv Hnv].
      specialize (Hall v (list_elem_of_fmap_2 snd _ _ Hin)).
      by rewrite Hnv in Hall.
    - apply collect_raises in Hrun as (k & v & Hin & Hraise).
      specialize (Hall v (list_elem_of_fmap_2 snd _ _ Hin)).
      rewrite Hraise in Hall. by eapply forallb_items_false. }
  assert (Hlist : ∀ l : list Value,
    Forall (λ value, match sanitize_item value with
                     | Returns _ => representable value = true
                     | Raises _ => representable value = false
                     end) l →
    match keep_truthy (map sanitize_item l) with
    | Returns _ => forallb representable l = true
    | Raises _ => forallb representable l = false
    end).
  { intros l Hall. rewrite Forall_forall in Hall.
    destruct (keep_truthy _) as [kept | e] eqn:Hrun.
    - apply keep_truthy_returns in Hrun as (news & Hnews & _).
      apply forallb_forall. intros v Hin. apply list_elem_of_In in Hin.
      destruct (Forall2_each_l _ _ _ _ Hnews Hin) as [nv Hnv].
      specialize (Hall v Hin). by rewrite Hnv in Hall.
    - apply keep_truthy_raises in Hrun as (v & Hin & Hraise).
      specialize (Hall v Hin). rewrite Hraise in Hall.
      by eapply forallb_list_false. }
  destruct_value value; simpl in *; try done.
  - specialize (Hitems _ IH). unfold new_values_of in Hitems.
    by destruct (collect _ _).
  - specialize (Hlist _ IH). by destruct (keep_truthy _).
  - specialize (Hlist _ IH). by destruct (keep_truthy _).
  - specialize (Hlist _ IH). by destruct (keep_truthy _).
  - specialize (Hlist _ IH). by destruct (keep_truthy _).
  - specialize (Hitems _ IH). unfold new_values_of in Hitems.
    by destruct (collect _ _).
  - apply Forall_cons in IH as [Hpk Hname].
    destruct (sanitize_item value) as [pk' | e]; rewrite Hpk; simpl; [| done].
    destruct name as [name |].
    + apply Forall_cons in Hname as [Hname _].
      by destruct (sanitize_item name).
    + done.
  - by destruct is_aware.
  - by destruct name.
Qed.

(** *** The calls of [get_user] and [model_to_dict] *)

Lemma sanitize_item_user u :
  sanitize_item (VUser u) = outcome_map VDict (sanitize_dict (get_user (Some u))).
Proof.
  unfold sanitize_dict. simpl. unfold get_user.
  destruct (String.eqb (username u) ANONYMOUS_USER_NAME); reflexivity.
Qed.

Lemma sanitize_item_anonymous_user :
  sanitize_item VAnonymousUser = outcome_map VDict (sanitize_dict (get_user None)).
Proof.
  unfold sanitize_dict. simpl. unfold get_user.
  destruct get_anonymous_user as [u |]; [| reflexivity].
  destruct (String.eqb (username u) ANONYMOUS_USER_NAME); reflexivity.
Qed.

Lemma sanitize_item_model app_label model_name pk str name :
  sanitize_item (VModel app_label model_name pk str name)
  = outcome_map VDict
      (sanitize_dict (model_to_dict app_label model_name pk str name)).
Proof. unfold sanitize_dict, model_to_dict. simpl. by destruct name. Qed.

Lemma get_user_canonical user : canonical (VDict (get_user user)) = true.
Proof.
  unfold get_user.
  destruct (match user with Some u => Some u | None => get_anonymous_user end)
    as [u |]; [| reflexivity].
  destruct (String.eqb (username u) ANONYMOUS_USER_NAME); reflexivity.
Qed.

(** *** Lists, tuples, sets and generators *)

(** X20.  A list, tuple, set or generator comes back as a list of the
    sanitized items that are true: an item whose sanitized form is [None],
    [False], zero, an empty string or an empty container is left out, so
    the positions of the items after it shift. *)
Theorem sanitize_item_keeps_true_items container l r :
  container ∈ [VList; VTuple; VSet; VGenerator] →
  sanitize_item (container l) = Returns r →
  ∃ new_values,
    Forall2 (λ value new_value, sanitize_item value = Returns new_value)
      l new_values
    ∧ r = VList (List.filter is_truthy new_values).
Proof.
  intros Hcontainer Hrun.
  assert (Hsame : sanitize_item (container l)
                  = outcome_map VList (keep_truthy (map sanitize_item l))).
  { repeat (apply elem_of_cons in Hcontainer as [-> | Hcontainer]; [done |]).
    by apply elem_of_nil in Hcontainer. }
  rewrite Hsame in Hrun.
  destruct (keep_truthy _) as [kept |] eqn:Hkept; [| discriminate].
  injection Hrun as <-.
  apply keep_truthy_returns in Hkept as (news & Hnews & ->). by exists news.
Qed.

(** *** Requests and [...] *)

Lemma sanitize_item_ellipsis value new_value :
  sanitize_item value = Returns new_value →
  is_ellipsis new_value = yields_ellipsis value.
Proof.
  destruct_value value; simpl;
    repeat match goal with
           | |- context [outcome_map _ ?o] => destruct o; simpl
           | |- context [match ?x with _ => _ end] => destruct x; simpl
           end;
    try discriminate; try (by intros [= <-]).
Qed.

Lemma collect_keys source acc d :
  NoDup (map fst (acc ++ source)) →
  collect (new_values_of (λ _, sanitize_item) source) acc = Returns d →
  map fst d
  = (map fst acc
     ++ map fst (List.filter (λ '(_, value), negb (yields_ellipsis value)) source))%list.
Proof.
  revert acc. induction source as [| [k v] source IH]; intros acc Hnodup; simpl.
  - intros [= <-]. by rewrite app_nil_r.
  - destruct (sanitize_item v) as [nv | e] eqn:Hv; [| discriminate].
    rewrite (sanitize_item_ellipsis _ _ Hv).
    assert (Hfresh : k ∉ map fst acc).
    { rewrite map_app in Hnodup.
      apply NoDup_app in Hnodup as (_ & Hdisjoint & _).
      intros Hin. apply (Hdisjoint _ Hin). simpl. apply list_elem_of_here. }
    destruct (yields_ellipsis v); simpl.
    + apply IH. rewrite map_app in *. simpl in Hnodup.
      apply NoDup_app in Hnodup as (Hacc & Hdisjoint & Hsrc).
      apply NoDup_app. split; [done |]. split.
      * intros x Hx Hin. apply (Hdisjoint x Hx). by apply list_elem_of_further.
      * by apply NoDup_cons in Hsrc as [_ ?].
    + intros Hrun. rewrite item_set_fresh in Hrun by done.
      assert (Hnodup' : NoDup (map fst ((acc ++ [(k, nv)]) ++ source))).
      { revert Hnodup. rewrite !map_app. simpl. by rewrite <- app_assoc. }
      rewrite (IH _ Hnodup' Hrun).
      rewrite map_app. simpl. by rewrite <- app_assoc.
Qed.

(** X21.  [sanitize_dict] keeps the keys of the source in their order and
    leaves out exactly the entries whose value is a request (or an enum
    member or GeoIP record that holds [...]); no value of the dict that
    comes back is [...].  A value that is [...] itself is kept, as the
    string ["Ellipsis"]. *)
Theorem sanitize_dict_leaves_out_requests source d :
  NoDup (map fst source) →
  sanitize_dict source = Returns d →
  map fst d
  = map fst (List.filter (λ '(_, value), negb (yields_ellipsis value)) source)
  ∧ (∀ key value, (key, value) ∈ d → value ≠ VEllipsis)
  ∧ (∀ key, (key, VEllipsis) ∈ source → (key, VStr "Ellipsis") ∈ d).
Proof.
  intros Hnodup Hrun. unfold sanitize_dict in Hrun.
  fold (new_values_of (λ _, sanitize_item) source) in Hrun.
  split; [by apply (collect_keys source []) |]. split.
  - intros key value Hin ->.
    destruct (collect_entries _ _ _ _ Hrun _ _ Hin)
      as [[]%elem_of_nil | (? & _ & _ & ?)]. done.
  - intros key Hin. revert Hrun Hnodup Hin. generalize (@nil (Key * Value)).
    induction source as [| [k v] source IH]; intros acc; simpl.
    + intros _ _ []%elem_of_nil.
    + destruct (sanitize_item v) as [nv | e] eqn:Hv; [| discriminate].
      intros Hrun [Hfresh Hnodup]%NoDup_cons [[= <- <-] | Hin]%elem_of_cons.
      * simpl in Hv. injection Hv as <-. simpl in Hrun.
        assert (Hkept : ∀ rest acc' d',
          collect (new_values_of (λ _, sanitize_item) rest) acc' = Returns d' →
          key ∉ map fst rest → (key, VStr "Ellipsis") ∈ acc' →
          (key, VStr "Ellipsis") ∈ d').
        { clear. induction rest as [| [k v] rest IH]; intros acc' d'; simpl.
          - by intros [= <-].
          - destruct (sanitize_item v) as [nv |]; [| discriminate].
            intros Hrun [Hne Hfresh]%not_elem_of_cons Hin.
            apply (IH _ _ Hrun Hfresh).
            destruct (is_ellipsis nv); [done |].
            clear -Hne Hin. induction acc' as [| [k' v'] acc' IHacc]; simpl.
            + by apply elem_of_nil in Hin.
            + destruct (bool_decide (k = k')) eqn:Hk.
              * apply bool_decide_eq_true in Hk as <-.
                apply elem_of_cons in Hin as [[= ? _] | Hin]; [done |].
                by apply list_elem_of_further.
              * apply elem_of_cons in Hin as [<- | Hin];
                  [apply list_elem_of_here |].
                apply list_elem_of_further. by apply IHacc. }
        apply (Hkept _ _ _ Hrun Hfresh).
        clear. induction acc as [| [k' v'] acc IHacc]; simpl.
        -- apply list_elem_of_here.
        -- destruct (bool_decide (key = k'));
             [apply list_elem_of_here | by apply list_elem_of_further].
      * by apply (IH _ Hrun).
Qed.

(** *** The form of what comes back *)

Lemma canonical_not_ellipsis value : canonical value = true → is_ellipsis value = false.
Proof. by destruct_value value. Qed.

Lemma request_or_convertible value new_value :
  is_request value || convertible value = true →
  sanitize_item value = Returns new_value →
  is_ellipsis new_value = false →
  convertible value = true.
Proof.
  intros Hor Hrun Hnot. destruct (is_request value) eqn:Hreq; [| done].
  destruct_value value; try discriminate. simpl in Hrun. injection Hrun as <-.
  discriminate.
Qed.

Lemma sanitize_item_canonical value new_value :
  convertible value = true →
  sanitize_item value = Returns new_value →
  canonical new_value = true.
Proof.
  revert new_value.
  induction value as [value IH] using Value_children_ind.
  intros new_value.
  assert (Hitems : ∀ source d,
    Forall (λ value, ∀ new_value,
              convertible value = true →
              sanitize_item value = Returns new_value →
              canonical new_value = true) (map snd source) →
    forallb (λ '(_, value), is_request value || convertible value) source = true →
    collect (new_values_of (λ _, sanitize_item) source) [] = Returns d →
    canonical (VDict d) = true).
  { intros source d Hall Hconv Hrun. simpl. apply andb_true_iff. split.
    - apply bool_decide_eq_true. apply (collect_NoDup _ _ _ Hrun). constructor.
    - apply forallb_items. intros key nv Hin.
      destruct (collect_entries _ _ _ _ Hrun _ _ Hin)
        as [[]%elem_of_nil | (v & Hsrc & Hv & Hnot)].
      rewrite Forall_forall in Hall. rewrite forallb_items in Hconv.
      apply (Hall v (list_elem_of_fmap_2 snd _ _ Hsrc)); [| done].
      eapply request_or_convertible; [by eapply Hconv | done | done]. }
  assert (Hlist : ∀ l kept,
    Forall (λ value, ∀ new_value,
              convertible value = true →
              sanitize_item value = Returns new_value →
              canonical new_value = true) l →
    forallb convertible l = true →
    keep_truthy (map sanitize_item l) = Returns kept →
    canonical (VList kept) = true).
  { intros l kept Hall Hconv Hrun. simpl.
    apply keep_truthy_returns in Hrun as (news & Hnews & ->).
    apply forallb_list. intros nv Hin.
    apply list_elem_of_In, filter_In in Hin as [Hin Htrue].
    apply list_elem_of_In in Hin.
    destruct (Forall2_each_r _ _ _ _ Hnews Hin) as (v & Hv & Hrun).
    rewrite Htrue. simpl. rewrite Forall_forall in Hall.
    rewrite forallb_list in Hconv. by apply (Hall v Hv); [apply Hconv |]. }
  destruct_value value; simpl in IH |- *; try discriminate;
    try (by intros _ [= <-]).
  - (* dict *)
    intros Hconv Hrun.
    fold (new_values_of (λ _, sanitize_item) items0) in Hrun.
    destruct (collect _ _) as [d |] eqn:Hd; [| discriminate].
    injection Hrun as <-. by eapply Hitems.
  - intros Hconv Hrun.
    destruct (keep_truthy _) as [kept |] eqn:Hkept; [| discriminate].
    injection Hrun as <-. by eapply Hlist.
  - intros Hconv Hrun.
    destruct (keep_truthy _) as [kept |] eqn:Hkept; [| discriminate].
    injection Hrun as <-. by eapply Hlist.
  - intros Hconv Hrun.
    destruct (keep_truthy _) as [kept |] eqn:Hkept; [| discriminate].
    injection Hrun as <-. by eapply Hlist.
  - intros Hconv Hrun.
    destruct (keep_truthy _) as [kept |] eqn:Hkept; [| discriminate].
    injection Hrun as <-. by eapply Hlist.
  - (* dataclass *)
    intros Hconv Hrun.
    fold (new_values_of (λ _, sanitize_item) asdict) in Hrun.
    destruct (collect _ _) as [d |] eqn:Hd; [| discriminate].
    injection Hrun as <-. by eapply Hitems.
  - (* user *)
    intros _ [= <-]. apply get_user_canonical.
  - intros _ [= <-]. apply get_user_canonical.
  - (* model *)
    intros Hconv Hrun.
    change (sanitize_item (VModel app_label model_name value str name)
            = Returns new_value) in Hrun.
    rewrite sanitize_item_model in Hrun. unfold sanitize_dict in Hrun.
    fold (new_values_of (λ _, sanitize_item)
            (model_to_dict app_label model_name value str name)) in Hrun.
    destruct (collect _ _) as [d |] eqn:Hd; [| discriminate].
    injection Hrun as <-.
    apply andb_true_iff in Hconv as [Hpk Hname].
    apply Forall_cons in IH as [IHpk IHname].
    eapply Hitems; [| | exact Hd].
    + unfold model_to_dict. simpl.
      repeat apply Forall_cons_2; try (by intros ? _ [= <-]); [done | |].
      * destruct name; [by apply Forall_cons in IHname as [? _] |].
        by intros ? _ [= <-].
      * constructor.
    + unfold model_to_dict. simpl. rewrite Hpk. simpl.
      destruct name; [by rewrite Hname | done].
  - (* time *)
    intros _. destruct is_aware; [discriminate | by intros [= <-]].
  - (* callable *)
    intros _. destruct name; [by intros [= <-] | discriminate].
Qed.

Lemma canonical_fixed value :
  canonical value = true → sanitize_item value = Returns value.
Proof.
  induction value as [value IH] using Value_children_ind.
  destruct_value value; simpl in IH |- *; try discriminate; try done.
  - intros [Hnodup Hall]%andb_true_iff.
    apply bool_decide_eq_true in Hnodup.
    fold (new_values_of (λ _, sanitize_item) items0).
    rewrite collect_fixed; [done | done |].
    rewrite forallb_items in Hall. rewrite Forall_forall in IH.
    apply Forall_forall. intros [k v] Hin.
    specialize (Hall _ _ Hin). split.
    + by apply (IH v (list_elem_of_fmap_2 snd _ _ Hin)).
    + by apply canonical_not_ellipsis.
  - intros Hall. rewrite keep_truthy_fixed; [done |].
    rewrite forallb_list in Hall. rewrite Forall_forall in IH.
    apply Forall_forall. intros v Hin.
    destruct (andb_prop _ _ (Hall _ Hin)) as [Htrue Hcanon].
    split; [by apply IH | done].
Qed.

(** X22.  A value that holds no enum member and no GeoIP record, and a
    request only where a dict entry is made of it, is sanitized into plain
    JSON data: [None], booleans, numbers, strings, and dicts and lists of
    these. *)
Theorem sanitize_item_gives_plain_json value new_value :
  convertible value = true →
  sanitize_item value = Returns new_value →
  json_plain new_value = true.
Proof.
  intros Hconv Hrun. apply canonical_json_plain.
  by eapply sanitize_item_canonical.
Qed.

(** X23.  Sanitizing is idempotent on such values: what [sanitize_item]
    returns, it returns again when it is given its own result. *)
Theorem sanitize_item_idempotent value new_value :
  convertible value = true →
  sanitize_item value = Returns new_value →
  sanitize_item new_value = Returns new_value.
Proof.
  intros Hconv Hrun. apply canonical_fixed.
  by eapply sanitize_item_canonical.
Qed.

(** *** Cleansing *)

Lemma cleanse_item_fixed key value new_value :
  cleanse_item key value = Returns new_value →
  cleanse_item key new_value = Returns new_value.
Proof.
  revert key new_value.
  induction value as [value IH] using Value_children_ind.
  intros key new_value.
  destruct_value value; simpl in IH |- *;
    try (destruct key as [key |];
         [destruct (search_ignorecase hidden_settings key) eqn:Hhidden;
          destruct (search_ignorecase ALLOWED_SPECIAL_KEYS key) eqn:Hallowed;
          simpl; intros [= <-]; simpl; by rewrite ?Hhidden, ?Hallowed
         | by intros [= <-]]).
  - (* dict *)
    fold (new_values_of cleanse_item items0).
    destruct (collect _ _) as [d |] eqn:Hd; [| discriminate].
    simpl. intros [= <-]. simpl.
    fold (new_values_of cleanse_item d).
    rewrite collect_fixed; [done | |].
    + simpl. apply (collect_NoDup _ _ _ Hd). constructor.
    + apply Forall_forall. intros [k nv] Hin.
      destruct (collect_entries _ _ _ _ Hd _ _ Hin)
        as [[]%elem_of_nil | (v & Hsrc & Hv & Hnot)].
      rewrite Forall_forall in IH.
      split; [| done].
      by apply (IH v (list_elem_of_fmap_2 snd _ _ Hsrc)).
  - (* list *)
    destruct (replace_each _) as [l' |] eqn:Hl'; [| discriminate].
    simpl. intros [= <-]. simpl.
    rewrite replace_each_fixed; [done |].
    apply replace_each_returns in Hl'.
    apply Forall_forall. intros nv Hin.
    destruct (Forall2_each_r _ _ _ _ Hl' Hin) as (v & Hv & Hrun).
    rewrite Forall_forall in IH. by apply (IH v Hv).
  - destruct l as [| item l]; [by intros [= <-] |].
    by destruct (cleanse_item key item).
  - destruct l as [| item l]; [by intros [= <-] |].
    by destruct (cleanse_item key item).
Qed.

(** X24.  Cleansing is idempotent: a dict [cleanse_dict] has returned is
    returned as it is when it is cleansed again. *)
Theorem cleanse_dict_idempotent source d :
  cleanse_dict source = Returns d → cleanse_dict d = Returns d.
Proof.
  intros Hrun.
  assert (Hitem : cleanse_item (KInt 0) (VDict source) = Returns (VDict d))
    by (simpl; unfold cleanse_dict in Hrun; by rewrite Hrun).
  apply cleanse_item_fixed in Hitem. simpl in Hitem. unfold cleanse_dict.
  destruct (collect _ _); simpl in Hitem; congruence.
Qed.

Lemma cleanse_item_blanked key value new_value :
  masked key = true →
  cleanse_item (KStr key) value = Returns new_value →
  blanked new_value = true.
Proof.
  intros [Hhidden Hallowed%negb_true_iff]%andb_true_iff. revert new_value.
  induction value as [value IH] using Value_children_ind.
  intros new_value.
  destruct_value value; simpl in IH |- *; rewrite ?Hhidden, ?Hallowed; simpl;
    try (intros [= <-]; simpl; by rewrite String.eqb_refl).
  - destruct (collect _ _); simpl; [by intros [= <-] | discriminate].
  - destruct (replace_each _) as [l' |] eqn:Hl'; [| discriminate].
    simpl. intros [= <-]. simpl. apply forallb_list. intros nv Hin.
    apply replace_each_returns in Hl'.
    destruct (Forall2_each_r _ _ _ _ Hl' Hin) as (v & Hv & Hrun).
    rewrite Forall_forall in IH. by apply (IH v Hv).
  - destruct l as [| item l]; [by intros [= <-] |].
    by destruct (cleanse_item (KStr key) item).
  - destruct l as [| item l]; [by intros [= <-] |].
    by destruct (cleanse_item (KStr key) item).
Qed.

(** X25.  In a cleansed dict, nothing but the substitute is left under a
    key that matches the filter and is not one of the allowed special
    keys: the value is the substitute, a list of it, an empty tuple or
    set, or a dict, which is cleansed by its own keys. *)
Theorem cleanse_dict_blanks_masked_keys source d key value :
  cleanse_dict source = Returns d →
  (KStr key, value) ∈ d →
  masked key = true →
  blanked value = true.
Proof.
  intros Hrun Hin Hmasked. unfold cleanse_dict in Hrun.
  fold (new_values_of cleanse_item source) in Hrun.
  destruct (collect_entries _ _ _ _ Hrun _ _ Hin)
    as [[]%elem_of_nil | (v & _ & Hv & _)].
  by eapply cleanse_item_blanked.
Qed.

Lemma cleanse_item_plain key value new_value :
  json_plain value = true →
  cleanse_item key value = Returns new_value →
  json_plain new_value = true.
Proof.
  revert key new_value.
  induction value as [value IH] using Value_children_ind.
  intros key new_value.
  destruct_value value; simpl in IH |- *; try discriminate;
    try (intros _; destruct key as [key |];
         [destruct (search_ignorecase hidden_settings key);
          destruct (search_ignorecase ALLOWED_SPECIAL_KEYS key);
          simpl; by intros [= <-]
         | by intros [= <-]]).
  - intros Hplain. fold (new_values_of cleanse_item items0).
    destruct (collect _ _) as [d |] eqn:Hd; [| discriminate].
    simpl. intros [= <-]. simpl. apply forallb_items. intros k nv Hin.
    destruct (collect_entries _ _ _ _ Hd _ _ Hin)
      as [[]%elem_of_nil | (v & Hsrc & Hv & _)].
    rewrite Forall_forall in IH. rewrite forallb_items in Hplain.
    eapply (IH v (list_elem_of_fmap_2 snd _ _ Hsrc)); [| done].
    by eapply Hplain.
  - intros Hplain.
    destruct (replace_each _) as [l' |] eqn:Hl'; [| discriminate].
    simpl. intros [= <-]. simpl. apply forallb_list. intros nv Hin.
    apply replace_each_returns in Hl'.
    destruct (Forall2_each_r _ _ _ _ Hl' Hin) as (v & Hv & Hrun).
    rewrite Forall_forall in IH. rewrite forallb_list in Hplain.
    eapply (IH v Hv); [by apply Hplain | done].
Qed.

(** X26.  [cleanse_dict] takes what [sanitize_dict] returns: for a source
    that holds no enum member and no GeoIP record, and no request inside a
    list, cleansing the sanitized dict does not raise, and what comes back
    is again plain JSON data. *)
Theorem cleanse_after_sanitize source d :
  convertible (VDict source) = true →
  sanitize_dict source = Returns d →
  ∃ d', cleanse_dict d = Returns d' ∧ json_plain (VDict d') = true.
Proof.
  intros Hconv Hrun.
  assert (Hitem : sanitize_item (VDict source) = Returns (VDict d))
    by (simpl; unfold sanitize_dict in Hrun; by rewrite Hrun).
  pose proof (sanitize_item_canonical _ _ Hconv Hitem) as Hcanon.
  apply canonical_json_plain in Hcanon.
  pose proof (cleanse_item_outcome (KInt 0) (VDict d)) as Hout.
  destruct (cleanse_item (KInt 0) (VDict d)) as [nv | e] eqn:Hcleanse.
  - pose proof (cleanse_item_plain _ _ _ Hcanon Hcleanse) as Hplain.
    simpl in Hcleanse. unfold cleanse_dict.
    destruct (collect _ _) as [d' |]; [| discriminate].
    simpl in Hcleanse. injection Hcleanse as <-. by exists d'.
  - destruct Hout as [_ Hout].
    by rewrite (json_plain_assignable _ Hcanon) in Hout.
Qed.

End EventUtilsProperties.

(** ** The further properties on concrete requests *)

Section MoreRuns.
#[local] Existing Instance CPython.reference.
Import Sample Fixtures.

(** Name the value of a closed run. *)
Ltac run_as H t :=
  let v := eval vm_compute in t in
  assert (H : t = v) by (vm_compute; reflexivity).

(** An authorization-code request for the sample provider is accepted; the
    params then carry that provider and the URI of its allow-list. *)
Lemma validated_redirect_uri_witness :
  let self :=
    unvalidated "https://rp.example/cb" "code" None "openid" (Some "s") None ""
      None in
  ∃ self',
    post_init false self world = (Ok self', world)
    ∧ redirect_uri self' = "https://rp.example/cb"
    ∧ provider self' = Some rp_provider
    ∧ ∃ allowed, allowed ∈ redirect_uris rp_provider
                 ∧ entry_matches "https://rp.example/cb" allowed.
Proof.
  intros self. run_as Hrun (post_init false self world).
  eexists. split; [exact Hrun |].
  destruct (validated_redirect_uri false self world _ _ Hrun)
    as (Huri & _ & prov & parsed & Hprov & _ & Hallowed & _).
  split; [exact Huri |].
  vm_compute in Hprov. injection Hprov as <-.
  split; [reflexivity | exact Hallowed].
Defined.

(** A request with a [javascript:] redirect URI to the fresh provider is
    refused, and the URI is the provider's allow-list from then on. *)
Lemma auto_provisioning_persists_witness :
  let self :=
    unvalidated "javascript:alert(1)" "code" None "openid" (Some "s") None ""
      None in
  (post_init false self fresh_world).1
  = Raise (OAuth (RedirectUriError "javascript:alert(1)"
                    [{| matching_mode := STRICT; url := "javascript:alert(1)" |}]
                    (Some "redirect_uri_forbidden_scheme")))
  ∧ (provider_by_client_id (client_id self)
       (post_init false self fresh_world).2).1
    = Ok (Some (with_redirect_uris
                  [{| matching_mode := STRICT; url := "javascript:alert(1)" |}]
                  fresh_provider)).
Proof.
  intros self. split; [by vm_compute |].
  by rewrite (auto_provisioning_persists false self fresh_world fresh_provider
                eq_refl eq_refl ltac:(discriminate)).
Defined.

(** The second request to the fresh provider, with another URI, is
    refused. *)
Lemma auto_provisioning_locks_witness :
  let first :=
    unvalidated "https://rp.example/cb" "code" None "openid" (Some "s") None ""
      None in
  let second :=
    unvalidated "https://other.example/cb" "code" None "openid" (Some "s")
      None "" None in
  (post_init false second (post_init false first fresh_world).2).1
  = Raise (OAuth (RedirectUriError "https://other.example/cb"
                    [{| matching_mode := STRICT;
                        url := "https://rp.example/cb" |}]
                    (Some "redirect_uri_no_match"))).
Proof.
  intros first second.
  exact (auto_provisioning_locks false first fresh_world fresh_provider
           false second eq_refl eq_refl ltac:(discriminate) eq_refl
           ltac:(discriminate) ltac:(discriminate)).
Defined.

(** A request to the sample provider, here one refused for its response
    type, leaves the world alone. *)
Lemma validation_reads_only_witness :
  let self :=
    unvalidated "https://rp.example/cb" "token" None "openid" (Some "s") None ""
      None in
  (post_init false self world).2 = world.
Proof.
  intros self.
  exact (validation_reads_only false self world rp_provider eq_refl
           ltac:(discriminate)).
Defined.

(** An implicit request that names no scope gets the configured scopes
    without [offline_access]. *)
Lemma validated_scope_configured_witness :
  let self :=
    unvalidated "https://rp.example/cb" "id_token" None "" (Some "s")
      (Some "n") "" None in
  ∃ self',
    post_init false self world = (Ok self', world)
    ∧ scope self' = {["openid"; "profile"]}.
Proof.
  intros self. run_as Hrun (post_init false self world).
  eexists. split; [exact Hrun |].
  destruct (validated_scope_configured false self world _ _ eq_refl Hrun)
    as [_ Hdefault].
  rewrite Hdefault; by vm_compute.
Defined.

(** An accepted implicit request has [openid] in its scope and a nonce. *)
Lemma validated_openid_and_nonce_witness :
  let self :=
    unvalidated "https://rp.example/cb" "id_token" None "openid profile"
      (Some "s") (Some "n") "" None in
  ∃ self',
    post_init false self world = (Ok self', world)
    ∧ SCOPE_OPENID ∈ scope self'
    ∧ truthy_opt (nonce self') = true.
Proof.
  intros self. run_as Hrun (post_init false self world).
  eexists. split; [exact Hrun |].
  destruct (validated_openid_and_nonce false self world _ _ eq_refl Hrun)
    as [Hopenid Hnonce].
  split; [apply Hopenid; by vm_compute | apply Hnonce; by vm_compute].
Defined.

(** An unknown response mode on a hybrid request falls back to
    [fragment]. *)
Lemma validated_response_mode_witness :
  let self :=
    unvalidated "https://rp.example/cb" "code id_token" (Some "web_message")
      "openid" (Some "s") (Some "n") "" None in
  ∃ self',
    post_init false self world = (Ok self', world)
    ∧ response_mode self' = Some ResponseMode.FRAGMENT.
Proof.
  intros self. run_as Hrun (post_init false self world).
  eexists. split; [exact Hrun |].
  destruct (validated_response_mode false self world _ _ eq_refl Hrun)
    as [_ Hmode].
  rewrite Hmode. by vm_compute.
Defined.

(** An accepted request with a PKCE challenge keeps challenge and
    method. *)
Lemma validated_pkce_method_witness :
  let self :=
    {| client_id := "CID"; redirect_uri := "https://rp.example/cb";
       response_type := "code"; response_mode := None;
       scope := {["openid"]}; state := Some "s"; nonce := None;
       prompt := ∅; grant_type := ""; provider := None; request := None;
       max_age := None;
       code_challenge := Some "E9Melhoa2OwvFrEMTJguCHaoeK1t8URWbuGJSstw-cM";
       code_challenge_method := Some "S256" |} in
  ∃ self',
    post_init false self world = (Ok self', world)
    ∧ code_challenge self' = Some "E9Melhoa2OwvFrEMTJguCHaoeK1t8URWbuGJSstw-cM"
    ∧ code_challenge_method self' = Some PKCE_METHOD_S256.
Proof.
  intros self. run_as Hrun (post_init false self world).
  eexists. split; [exact Hrun |].
  destruct (validated_pkce_method false self world _ _ eq_refl Hrun)
    as (Hchallenge & Hmethod & _).
  split; [exact Hchallenge | exact Hmethod].
Defined.

(** A redirect URI off the allow-list ends in a bad-request page. *)
Lemma validation_errors_become_responses_witness :
  let req :=
    authorize [("response_type", "code"); ("client_id", "CID");
               ("redirect_uri", "https://evil.example/cb")] in
  pre_permission_check req false world
  = (Raise (RequestValidationError
              (BadRequestMessage
                 (RedirectUriError "https://evil.example/cb"
                    [{| matching_mode := STRICT;
                        url := "https://rp.example/cb" |}]
                    (Some "redirect_uri_no_match")))), world).
Proof.
  intros req.
  exact (validation_errors_become_responses req false world
           (RedirectUriError "https://evil.example/cb"
              [{| matching_mode := STRICT; url := "https://rp.example/cb" |}]
              (Some "redirect_uri_no_match"))
           world ltac:(discriminate) ltac:(by vm_compute)).
Defined.

(** A POST that carries a complete request in its body and nothing in the
    query string is answered 404. *)
Lemma no_query_string_is_not_found_witness :
  let req :=
    {| method := "POST"; GET := [];
       POST := [("response_type", "code"); ("client_id", "CID");
                ("redirect_uri", "https://rp.example/cb")];
       user := "alice"; is_authenticated := true;
       login_event := None; session := ∅; now := 1500;
       uuid4_hex := "0123456789abcdef0123456789abcdef";
       generated_token := "opaque-access-token" |} in
  pre_permission_check req false world = (Raise Http404, world).
Proof.
  intros req. exact (no_query_string_is_not_found req false world eq_refl).
Defined.

(** [prompt=none] without a signed-in user. *)
Lemma prompt_none_needs_a_login_witness :
  let req :=
    {| method := "GET";
       GET := [("response_type", "code"); ("client_id", "CID");
               ("redirect_uri", "https://rp.example/cb");
               ("prompt", "none"); ("state", "s")];
       POST := []; user := "AnonymousUser"; is_authenticated := false;
       login_event := None; session := ∅; now := 1500;
       uuid4_hex := "0123456789abcdef0123456789abcdef";
       generated_token := "opaque-access-token" |} in
  pre_permission_check req false world
  = (Raise (RequestValidationError
              (AuthorizeErrorResponse
                 (AuthorizeError "https://rp.example/cb" "login_required"
                    "authorization_code" (Some "s") None None))), world).
Proof.
  intros req. run_as Hrun (from_request req false world).
  exact (prompt_none_needs_a_login req false world _ _ ltac:(discriminate)
           Hrun ltac:(apply (bool_decide_unpack _); by vm_compute) eq_refl).
Defined.

End MoreRuns.

Section InitViewRuns.
#[local] Existing Instance Fixtures.flows.
Import Sample.

Ltac run_as H t :=
  let v := eval vm_compute in t in
  assert (H : t = v) by (vm_compute; reflexivity).

(** A request with [prompt=consent] in query mode: the planner's stage, the
    in-memory consent stage, the fulfillment stage. *)
Lemma started_plan_ends_with_fulfillment_witness :
  let params :=
    granted "authorization_code" "query"
      (unvalidated "https://rp.example/cb" "code" None "openid" (Some "s") None
         "consent" None) in
  let req := authorize [("client_id", "CID")] in
  ∃ plan,
    init_get req params rp_provider rp_application
    = (to_redirect plan [fulfillment_stage], session req)
    ∧ last (bindings plan) = Some fulfillment_stage
    ∧ ∃ before, bindings plan = (before ++ [fulfillment_stage])%list
                ∧ existsb is_consent_stage before = true.
Proof.
  intros params req.
  run_as Hrun (init_get req params rp_provider rp_application).
  eexists. split; [exact Hrun |].
  destruct (started_plan_ends_with_fulfillment _ _ _ _ _ _ _ Hrun)
    as (Hlast & Hconsent & _).
  split; [exact Hlast |].
  apply Hconsent. apply (bool_decide_unpack _). by vm_compute.
Defined.


(** A login 500 seconds old with [max_age=300]. *)
Lemma max_age_forces_a_login_witness :
  let params :=
    {| client_id := "CID"; redirect_uri := "https://rp.example/cb";
       response_type := "code"; response_mode := Some "query";
       scope := {["openid"]}; state := Some "s"; nonce := None;
       prompt := ∅; grant_type := "authorization_code";
       provider := Some rp_provider; request := None;
       max_age := Some 300;
       code_challenge := None; code_challenge_method := None |} in
  let req := authorize [("client_id", "CID")] in
  init_get req params rp_provider rp_application
  = (handle_no_permission,
     <[SESSION_KEY_LAST_LOGIN_UID := "login-1"]> (session req)).
Proof.
  intros params req.
  destruct (max_age_forces_a_login req
              {| login_pk := "login-1"; created := 1000 |}
              params rp_provider rp_application eq_refl) as [Hold _].
  apply (Hold 300); [reflexivity | discriminate | reflexivity].
Defined.

End InitViewRuns.

Section EventUtilsRuns.
#[local] Existing Instance Fixtures.django.
Import EventUtils.

Ltac run_as H t :=
  let v := eval vm_compute in t in
  assert (H : t = v) by (vm_compute; reflexivity).

(** A tuple with a zero, a string, [None] and a request in it. *)
Lemma sanitize_item_keeps_true_items_witness :
  sanitize_item (VTuple [VInt 0; VStr "a"; VNone; VRequest])
  = Returns (VList [VStr "a"; VEllipsis])
  ∧ ∃ new_values,
      Forall2 (λ value new_value, sanitize_item value = Returns new_value)
        [VInt 0; VStr "a"; VNone; VRequest] new_values
      ∧ VList [VStr "a"; VEllipsis] = VList (List.filter is_truthy new_values).
Proof.
  split; [reflexivity |].
  apply (sanitize_item_keeps_true_items VTuple).
  - apply list_elem_of_further, list_elem_of_here.
  - reflexivity.
Defined.

(** The context of an event: the request is left out, the user becomes a
    dict, [...] becomes a string. *)
Lemma sanitize_dict_leaves_out_requests_witness :
  let source :=
    [(KStr "http_request", VRequest);
     (KStr "user", VUser {| username := "alice"; user_pk := 7;
                            email := "alice@example.org" |});
     (KStr "marker", VEllipsis)] in
  ∃ d,
    sanitize_dict source = Returns d
    ∧ map fst d = [KStr "user"; KStr "marker"]
    ∧ (KStr "marker", VStr "Ellipsis") ∈ d.
Proof.
  intros source. run_as Hrun (sanitize_dict source).
  eexists. split; [exact Hrun |].
  destruct (sanitize_dict_leaves_out_requests source _
              ltac:(apply (bool_decide_unpack _); by vm_compute) Hrun)
    as (Hkeys & _ & Hmarker).
  split; [exact Hkeys |].
  apply Hmarker. apply list_elem_of_further, list_elem_of_further, list_elem_of_here.
Defined.

(** A model whose [name] is a UUID, in a generator. *)
Lemma sanitize_item_gives_plain_json_witness :
  let value :=
    VGenerator [VModel "authentik_core" "application" (VInt 3) "app" 
                  (Some (VUUID "0123456789abcdef0123456789abcdef"));
                VDatetime "2024-01-01T10:00:00+00:00"] in
  sanitize_item value
  = Returns (VList [VDict [(KStr "app", VStr "authentik_core");
                           (KStr "model_name", VStr "application");
                           (KStr "pk", VInt 3);
                           (KStr "name", VStr "0123456789abcdef0123456789abcdef")];
                    VStr "2024-01-01T10:00:00Z"])
  ∧ json_plain
      (VList [VDict [(KStr "app", VStr "authentik_core");
                     (KStr "model_name", VStr "application");
                     (KStr "pk", VInt 3);
                     (KStr "name", VStr "0123456789abcdef0123456789abcdef")];
              VStr "2024-01-01T10:00:00Z"]) = true.
Proof.
  intros value. split; [reflexivity |].
  apply (sanitize_item_gives_plain_json value); reflexivity.
Defined.

(** The anonymous user and a dataclass, sanitized twice. *)
Lemma sanitize_item_idempotent_witness :
  let value :=
    VList [VAnonymousUser;
           VDataclass [(KStr "http_request", VNone);
                       (KStr "obj", VPath "/tmp/x")]] in
  ∃ new_value,
    sanitize_item value = Returns new_value
    ∧ sanitize_item new_value = Returns new_value.
Proof.
  intros value. run_as Hrun (sanitize_item value).
  eexists. split; [exact Hrun |].
  apply (sanitize_item_idempotent value); [reflexivity | exact Hrun].
Defined.

(** A dict with a password, a token list and an allowed special key. *)
Lemma cleanse_dict_idempotent_witness :
  let source :=
    [(KStr "username", VStr "alice");
     (KStr "password", VStr "hunter2");
     (KStr "api_tokens", VList [VStr "t1"; VStr "t2"]);
     (KStr "password_change_date", VDate "2024-01-01")] in
  let d :=
    [(KStr "username", VStr "alice");
     (KStr "password", VStr "********************");
     (KStr "api_tokens", VList [VStr "********************";
                                VStr "********************"]);
     (KStr "password_change_date", VDate "2024-01-01")] in
  cleanse_dict source = Returns d ∧ cleanse_dict d = Returns d.
Proof.
  intros source d. split; [reflexivity |].
  apply (cleanse_dict_idempotent source). reflexivity.
Defined.

(** What is left under [secret_key]. *)
Lemma cleanse_dict_blanks_masked_keys_witness :
  let source :=
    [(KStr "secret_key", VList [VInt 1; VList [VStr "x"]]);
     (KInt 5, VStr "kept")] in
  ∃ d,
    cleanse_dict source = Returns d
    ∧ blanked (VList [VStr "********************";
                      VList [VStr "********************"]]) = true.
Proof.
  intros source. run_as Hrun (cleanse_dict source).
  eexists. split; [exact Hrun |].
  apply (cleanse_dict_blanks_masked_keys source _ "secret_key" _ Hrun).
  - apply list_elem_of_here.
  - reflexivity.
Defined.

(** Sanitizing and then cleansing the context of an event. *)
Lemma cleanse_after_sanitize_witness :
  let source :=
    [(KStr "token", VUUID "0123456789abcdef0123456789abcdef");
     (KStr "scopes", VSet [VStr "openid"; VStr "profile"]);
     (KStr "http_request", VRequest)] in
  ∃ d d',
    sanitize_dict source = Returns d
    ∧ cleanse_dict d = Returns d'
    ∧ json_plain (VDict d') = true.
Proof.
  intros source. run_as Hrun (sanitize_dict source).
  eexists.
  destruct (cleanse_after_sanitize source _ eq_refl Hrun) as (d' & Hd' & Hplain).
  exists d'. split; [exact Hrun |]. split; [exact Hd' | exact Hplain].
Defined.

End EventUtilsRuns.
